(* ===== verification/_CoqProject ===== *)
-Q . S2P
Prelude.v
JsArray.v
Player.v
MapState.v
Room.v
Wire.v
Registry.v
Lifecycle.v
Gameplay.v
Server.v
Http.v
Isolation.v
Invariants.v
Bombs.v
Binding.v
Lobby.v
Drain.v
Scenarios.v
