(* ===== verification/Prelude.v ===== *)
(** * Bomberworld backend: a verification development

    The repository is the Node.js game server of Bomberworld.  Two files
    are under [src/]:
    - [src/index.js] boots an express/socket.io server, keeps its own
      [rooms] and [players] arrays for the status endpoint, and routes every
      socket event to a method of the handler object;
    - [src/SocketEventHandler.js] is the coordination engine: it owns the
      module-level arrays [rooms] and [players], binds each socket to a
      [Player] ([this.player]) and, after matchmaking, to a [Room]
      ([this.room]), and implements one method per socket event.
    The modules [Player], [Room] and the map template they load are
    required by the handler but are not under [src/]; they are modelled
    from the specification (§3, §4.3) and marked so in the manifest.

    Layout (each file opens with its own summary):
    - [Prelude] (this file): the [outcome] type of a handler run (a result
      or a thrown JS exception) with stdpp's monad notation, JS-style
      indexing of arrays by a number ([zlookup]), the hint database [bw]
      and the tactics shared by the components.
    - [JsArray]: a JS array of numbers as a sparse map with a [length]
      field: writes past the end grow the array, writes at negative or
      huge keys become plain properties that loops over [length] never
      visit.
    - [Player]: the [Player] record and the store of player objects (the
      objects are shared between the global array, the socket and the room
      rosters, so they live in one store keyed by connection id).
    - [MapState]: the map of a room: named layers of cells, the width and
      the spawn order; the layer loops of the handlers (first match with
      [break], every match, last match).
    - [Room]: the [Room] record, its roster of serial-indexed slots, and
      the interface [RoomMethods]/[RoomContract] the engine relies on
      (insertPlayer, excludePlayer, isFull, isEmpty, hasHost, isHost,
      selectNewHost, resetMap, which reinitialises the map state: the
      template's layers and the spawn cursor); the contract pins what the
      spec fixes and
      leaves the host tie-break open; [js_room_methods] implements it
      ([js_room_contract] proves the contract) with the first active
      member as the new host.
    - [Wire]: event payloads and outgoing messages; the two broadcast
      primitives (to all members, to all but the sender).
    - [Registry]: the [rooms] and [players] arrays: first-fit scan
      ([scan_rooms]), swap-with-last removal ([swap_remove], written as the
      code's splice/assign/pop, index -1 included), findIndex/splice
      removal ([remove_player]).
    - [Lifecycle]: the world ([World]: player store, room store, the two
      arrays, the socket bindings [Sock], the next room id) and the
      handlers that create, bind and tear down: [onClientConnect],
      [onRoomRequest] (= [find_or_create] then [join_room]),
      [onClientDisconnect] (= [host_leave], [scrub_bombs],
      [excludePlayer], [swap_remove]), [onPlayerUnavailable],
      [onPlayerAvailable].
    - [Gameplay]: the other handlers of [SocketEventHandler.js] (chat,
      spawn, move, death, powerups, bombs, map reset) with their layer
      loops ([plant_layers], [explode_cells], the spawn cursor
      [next_spawn]).
    - [Server]: the routing of [index.js] ([dispatch], one case per event
      name), the transport's delivery ([deliverable]), one event as a
      [step], [reachable] worlds, runs of an event list ([run]) and their
      executable check ([run_ok_with], for any decidable delivery
      predicate), and the
      module boot order that decides which arrays the status endpoint
      reads ([boot], [api_status]).
    - [Http]: the rest of [index.js]: the CORS options and their origin
      callback ([cors_origin]), the three GET routes ([route]: health,
      status, welcome page), the port, the socket.io options, and the
      process lifecycle ([pstep]: the listen banner, SIGTERM,
      [server.close] and [process.exit(0)], and Node's exit with 1 on an
      uncaught exception), and the process running the server
      ([sys_step]: socket events reach [dispatch] while the server serves,
      and a handler's throw ends the process).
    - [Isolation]: the footprint of an in-game event ([confined]: its own
      room, its sender and the room's members, messages to members only)
      and the room scoping of every in-game handler.
    - [Invariants]: the invariant [wf] of every reachable world and its
      preservation, handler by handler.
    - [Bombs]: the bombs-layer invariant (every non-zero array cell of a
      room's first bombs layer names an occupied slot) and its
      preservation, for a template whose bombs layer starts empty
      ([template_clear], checked by computation).
    - [Binding]: the socket bindings ([bind_ok]): every socket bound to a
      room is seated there (its player's serial names a slot of the room
      holding its id) and the room is in the rooms array; the case split
      of [dispatch] every whole-server proof uses ([dispatch_shape]).
    - [Lobby]: the abstract lobby of the specification (an ordered list of
      rooms with their members; [Lobby.join] is first fit or a new room at
      the end, [Lobby.leave] removes one member and an emptied room) and
      the refinement of the registry into it ([lobby_of], [lobby_op]).
    - [Drain]: runs of well-behaved clients, which ask for a room only
      while in none ([once_deliverable], [good_step]), and the invariant
      that every occupied slot of a listed room holds a live client bound
      to it ([drain_ok]).
    - [Scenarios]: a reference map, concrete runs, and the witnesses.

    The handlers take the Room methods through the class [RoomMethods], and
    every theorem about the engine is proved in a section that assumes only
    [RoomContract]; the witnesses instantiate it with [js_room_methods].

    Theorems, by group:
    - matchmaking (Lifecycle): a room request is first-fit and appends a
      room only when all are full; the requester gets the room before the
      others hear of the join; a missing payload crashes; a second
      request puts the player into two rooms (a finding);
    - teardown (Lifecycle): the emptied room leaves the array by
      swap-remove, exactly the leaver's bombs are scrubbed from the array
      part of the bombs layer (every other key kept), the host migrates to an active member; the same
      for a hidden tab; a member regaining focus restores a host;
    - gameplay (Gameplay): death accounting (kill, self-kill, protected
      victim), bomb planting and explosion, spawn placement and the spawn
      cursor (wraps at 8, so on a map with fewer points it runs past the
      last one and every later spawn crashes), moves, powerups (collect,
      disappear in every powerups layer, lost invincibility), map reset
      (the reset room is what is sent), and the crash of every payload-reading
      handler (the room request included) on an absent payload;
    - invariants (Invariants): in every reachable world rooms have
      capacity-wide rosters (so at most capacity members), the host is a
      member, the rooms array is
      duplicate-free and names existing rooms, sockets are bound to their
      own player; the players array lists each connected client once;
      room requests with a payload and disconnects never crash;
      (Bombs) every non-zero array cell of a bombs layer encodes an
      occupied slot;
    - bindings (Binding): every bound socket is seated in a room of the
      array, so the disconnect's [rooms.indexOf] never returns -1;
    - draining (Drain, Scenarios): with well-behaved clients every member
      of a listed room is a connected client bound to it, so the rooms
      array is empty once every client has left; a client that asks twice
      leaves a ghost member and its room in the array after everyone has
      gone (the run [Scenarios.rooms_leak], a finding);
    - refinement (Lobby): every delivered event performs the lobby
      operation it asks for (join, leave, or nothing) on [lobby_of];
    - registry and map arithmetic (Registry, MapState): the code's
      splice/assign/pop removal is, up to order, the filter that drops the
      room (and drops the last room when the index is -1);
    - room scoping (Isolation): an in-game event without a room is a
      silent no-op, and with one it stays inside that room;
    - HTTP surface and process (Http): the CORS callback allows every
      origin (a finding); the server process exits with 0 only after a
      SIGTERM and the server's close, and with 1 only when a handler
      throws on a delivered event;
    - concrete runs (Scenarios) that show two findings: a bomb at a
      negative key survives its owner's disconnect, and a room leaks
      after a double room request; they are runs, not theorems over all
      inputs.

    Bounds and fuel: the only loop with fuel is the bomb scrub
    ([MapState.scrub_loop]), run with fuel [length] of the layer, which is
    exactly the number of iterations of [for (b = 0; b < data.length; b++)]:
    each round advances [b] by one and writes only below [length], so
    [length] never moves ([scrub_loop_spec] proves that with this fuel
    every index from 0 to [length - 1] is visited and nothing else
    changes).  Every other loop is a
    structural recursion or a fold over a list.  The spawn cursor is a
    [nat] below 8 in the code's own arithmetic.

    Numbers: the handlers add and compare small integers (serials, frags,
    timestamps, cell indices), modelled as [Z]; positions come from
    [(col + 0.5) * tile_size] and client data and are modelled as [Q].
    Client payload fields are assumed to have the types the client sends
    (numbers where numbers are expected); a payload that is entirely
    absent ([undefined]) is modelled, because the code dereferences it.
    Timestamps ([Date.now()]) and [Math.random()] are inputs of each
    event.

    Not modelled: logging ([console.log]) in the handlers, which has no
    effect on state (the process lifecycle's lines are modelled as the
    log of [Http.pstep], and an uncaught exception's stack trace as one
    line of its standard error); the status routes' counts beyond the
    finding that they read arrays nothing writes ([Server.api_status]); the code of the libraries the sources only call
    (express's routing and default 404, the cors middleware's preflight
    answers and headers, socket.io's transport, framing and reconnection),
    of which the model keeps only what the code relies on (delivery to
    live sockets, fresh connection ids); and the modules [Room.js],
    [Player.js] and the map template, which are not in the repository
    and are modelled from the specification. *)

From stdpp Require Export base gmap list strings option pretty.
From Stdlib Require Export ZArith QArith.

Declare Scope bw_scope.
Delimit Scope bw_scope with bw.
Open Scope bw_scope.

(** ** Outcome of running a handler

    A socket.io listener either returns normally or throws (a [TypeError]
    when it reads a property of [undefined]); an uncaught throw brings the
    process down.  [Crash] records the message of the throw. *)
Inductive outcome (A : Type) : Type :=
  | Ok (a : A)
  | Crash (msg : string).
Arguments Ok {A} a.
Arguments Crash {A} msg.

#[export] Instance outcome_ret : MRet outcome := @Ok.
#[export] Instance outcome_bind : MBind outcome :=
  fun A B f m => match m with Ok a => f a | Crash e => Crash e end.

(** Reading a field of a payload that may be [undefined]. *)
Definition deref {A} (o : option A) (what : string) : outcome A :=
  match o with
  | Some a => Ok a
  | None => Crash ("TypeError: Cannot read properties of undefined (reading '" +:+ what +:+ "')")
  end.

Notation "'undefined'" := None (only parsing) : bw_scope.

(** ** JS indexing of an array by a number

    [a[k]] on a JS array yields the element at [k] when [k] is an index
    inside the array and [undefined] otherwise (negative numbers included). *)
Definition zlookup {A} (l : list A) (k : Z) : option A :=
  if (0 <=? k)%Z then l !! Z.to_nat k else None.

(** [Array.prototype.indexOf] / [findIndex]: the first position, or -1. *)
Fixpoint find_index {A} (p : A -> bool) (l : list A) : Z :=
  match l with
  | [] => (-1)%Z
  | x :: l' => if p x then 0%Z else
                 let i := find_index p l' in if (i <? 0)%Z then i else (i + 1)%Z
  end.

Create HintDb bw.
Create Rewrite HintDb bw_rw.

(** ** Shared lemmas *)

Lemma bind_Ok {A B} (a : A) (f : A -> outcome B) : (Ok a ≫= f) = f a.
Proof. reflexivity. Qed.

Lemma bind_Crash {A B} e (f : A -> outcome B) : (Crash e ≫= f) = Crash e.
Proof. reflexivity. Qed.

Lemma bind_Ok_inv {A B} (m : outcome A) (f : A -> outcome B) b :
  (m ≫= f) = Ok b -> exists a, m = Ok a /\ f a = Ok b.
Proof. destruct m; simpl; [eauto | discriminate]. Qed.

Lemma zlookup_nat {A} (l : list A) (n : nat) : zlookup l (Z.of_nat n) = l !! n.
Proof.
  unfold zlookup. destruct (Z.leb_spec 0 (Z.of_nat n)); [|lia].
  by rewrite Nat2Z.id.
Qed.

Lemma zlookup_Some {A} (l : list A) k x :
  zlookup l k = Some x -> (0 <= k)%Z /\ l !! Z.to_nat k = Some x.
Proof. unfold zlookup. destruct (Z.leb_spec 0 k); [eauto | discriminate]. Qed.

Lemma find_index_spec {A} (p : A -> bool) (l : list A) :
  (find_index p l = -1 /\ Forall (fun x => p x = false) l)%Z \/
  (exists n x, find_index p l = Z.of_nat n /\ l !! n = Some x /\ p x = true /\
     Forall (fun y => p y = false) (take n l)).
Proof.
  induction l as [|x l IH]; simpl; [by left|].
  destruct (p x) eqn:Hx.
  - right. exists 0%nat, x. simpl. eauto.
  - destruct IH as [[-> Hall] | (n & y & -> & Hl & Hy & Hall)].
    + left. simpl. eauto.
    + right. exists (S n), y.
      destruct (Z.ltb_spec (Z.of_nat n) 0); [lia|].
      split; [lia|]. simpl. eauto.
Qed.

#[export] Hint Rewrite @bind_Ok @bind_Crash : bw_rw.
#[export] Hint Resolve bind_Ok_inv : bw.

(** Case analysis on the boolean comparisons the handlers make. *)
Ltac bw_cases :=
  repeat match goal with
  | |- context [(?a =? ?b)%Z] => destruct (Z.eqb_spec a b)
  | |- context [(?a <=? ?b)%Z] => destruct (Z.leb_spec a b)
  | |- context [(?a <? ?b)%Z] => destruct (Z.ltb_spec a b)
  | |- context [bool_decide ?P] => case_bool_decide
  end.
