(* ===== verification/JsArray.v ===== *)
(** * JS arrays of numbers, as the map layers store them

    A layer's [data] is a JS array filled from the map template.  The
    handlers index it with [row * width + col] computed from client data,
    without a bounds check, so the model keeps what JS does on every key:
    - a read at a key that was never written yields [undefined] ([None]);
    - a write at an array index ([0 <= k < 2^32 - 1]) at or past [length]
      grows [length] to [k + 1] (the gap is holes);
    - a write at any other key (negative, too large) creates a plain
      property: it is read back by [data[k]] but no loop over [length]
      visits it. *)

From S2P Require Import Prelude.

Record jsarray := JsArray {
  js_length : Z;
  js_cells : gmap Z Z
}.

(** JS's array-index range: [0 <= k < 2^32 - 1]. *)
Definition is_array_index (k : Z) : bool := (0 <=? k)%Z && (k <? 4294967295)%Z.

(** [data[k]] *)
Definition js_get (a : jsarray) (k : Z) : option Z := js_cells a !! k.

(** [data[k] = v] *)
Definition js_set (a : jsarray) (k v : Z) : jsarray :=
  {| js_length := if is_array_index k && (js_length a <=? k)%Z then (k + 1)%Z else js_length a;
     js_cells := <[k:=v]> (js_cells a) |}.

(** An array literal [[v0, v1, ...]] (the template's layer data). *)
Fixpoint js_cells_of_list (i : Z) (l : list Z) : gmap Z Z :=
  match l with
  | [] => ∅
  | v :: l' => <[i:=v]> (js_cells_of_list (i + 1)%Z l')
  end.

Definition js_of_list (l : list Z) : jsarray :=
  {| js_length := Z.of_nat (length l); js_cells := js_cells_of_list 0 l |}.

(** JS truthiness of a cell read: [undefined] and [0] are falsy. *)
Definition js_truthy (o : option Z) : bool :=
  match o with Some v => negb (v =? 0)%Z | None => false end.

(** Loose equality [data[b] == n] with a number [n]: [undefined == n] is false. *)
Definition js_eq_num (o : option Z) (n : Z) : bool :=
  match o with Some v => (v =? n)%Z | None => false end.

(** Loose equality of a cell with a number holds exactly when the cell
    holds that number ([undefined == n] is false). *)
Lemma js_eq_num_spec o n : js_eq_num o n = true <-> o = Some n.
Proof. destruct o as [v|]; simpl; [rewrite Z.eqb_eq; split; congruence|done]. Qed.

(** Well-formedness of an array: every array-index key lies below [length]. *)
Definition js_wf (a : jsarray) : Prop :=
  (0 <= js_length a)%Z /\
  forall k v, js_cells a !! k = Some v -> is_array_index k = true -> (k < js_length a)%Z.

(** ** Lemmas *)

Lemma js_get_set_eq a k v : js_get (js_set a k v) k = Some v.
Proof. unfold js_get, js_set; simpl. apply lookup_insert_eq. Qed.

Lemma js_get_set_ne a k k' v : k <> k' -> js_get (js_set a k v) k' = js_get a k'.
Proof. intros Hne. unfold js_get, js_set; simpl. by apply lookup_insert_ne. Qed.

Lemma js_set_length_in a k v :
  (0 <= k < js_length a)%Z -> js_length (js_set a k v) = js_length a.
Proof.
  intros Hk. unfold js_set; simpl.
  destruct (is_array_index k); simpl; [|done].
  destruct (Z.leb_spec (js_length a) k); [lia | done].
Qed.

Lemma js_set_length_ge a k v : (js_length a <= js_length (js_set a k v))%Z.
Proof.
  unfold js_set; simpl.
  destruct (is_array_index k && (js_length a <=? k)%Z) eqn:E; [|lia].
  apply andb_prop in E as [_ E%Z.leb_le]. lia.
Qed.

Lemma js_set_wf a k v : js_wf a -> js_wf (js_set a k v).
Proof.
  intros [Hlen Hwf]. split.
  - pose proof (js_set_length_ge a k v). lia.
  - intros k' v' Hk' Hidx. unfold js_set in *; simpl in *.
    destruct (decide (k = k')) as [<-|Hne].
    + rewrite Hidx. simpl. destruct (Z.leb_spec (js_length a) k); lia.
    + rewrite lookup_insert_ne in Hk' by done.
      pose proof (Hwf _ _ Hk' Hidx).
      destruct (is_array_index k && (js_length a <=? k)%Z) eqn:E; [|lia].
      apply andb_prop in E as [_ E%Z.leb_le]. lia.
Qed.

Lemma js_cells_of_list_lookup i l k :
  js_cells_of_list i l !! k =
    if (i <=? k)%Z then l !! Z.to_nat (k - i) else None.
Proof.
  revert i. induction l as [|v l IH]; intros i; simpl.
  - rewrite lookup_empty. destruct (i <=? k)%Z; [by rewrite lookup_nil | done].
  - destruct (decide (i = k)) as [<-|Hne].
    + rewrite lookup_insert_eq, Z.leb_refl, Z.sub_diag. done.
    + rewrite lookup_insert_ne by done. rewrite IH.
      destruct (Z.leb_spec (i + 1) k), (Z.leb_spec i k); try lia; [|done].
      replace (Z.to_nat (k - i)) with (S (Z.to_nat (k - (i + 1)))) by lia. done.
Qed.

Lemma js_get_of_list l k :
  js_get (js_of_list l) k = zlookup l k.
Proof.
  unfold js_get, js_of_list, zlookup; simpl.
  rewrite js_cells_of_list_lookup. by rewrite Z.sub_0_r.
Qed.

Lemma js_of_list_wf l : js_wf (js_of_list l).
Proof.
  split; simpl; [lia|].
  intros k v Hk _. rewrite js_cells_of_list_lookup in Hk.
  destruct (Z.leb_spec 0 k); [|done].
  apply lookup_lt_Some in Hk. lia.
Qed.

#[export] Hint Resolve js_set_wf js_of_list_wf : bw.
#[export] Hint Rewrite js_get_set_eq js_get_of_list : bw_rw.
