(* ===== verification/Player.v ===== *)
(** * The Player record and the store of player objects

    [Player.js] is not under [src/]; its fields are those the handlers
    read and write (spec §3), and its constructor [new Player(id)] is
    modelled from the spec.  A player object is shared: the module's
    [players] array, the socket ([client.player]) and a room's roster all
    hold the same object, so a field write through one is seen through the
    others.  The model therefore keeps one store [pstore] of player objects
    keyed by connection id (one player per connection), and every other
    place holds the id. *)

From S2P Require Import Prelude.

Record Player := mkPlayer {
  p_id : string;                 (* connection id *)
  p_serial : option nat;         (* roster index, set by insertPlayer *)
  p_name : string;
  p_nickname : option string;
  p_x : Q;
  p_y : Q;
  p_animation_key : option string;
  p_is_dead : bool;
  p_is_invincible : bool;
  p_i_timestamp : Z;
  p_is_active : bool;
  p_frags : Z;
  p_last_message : option string
}.

Abbreviation pstore := (gmap string Player).

(** [new Player(id)]: a fresh player is active (it becomes host of the
    room it opens), alive, not invincible, with no frags. *)
Definition new_player (id : string) : Player :=
  {| p_id := id; p_serial := None; p_name := ""; p_nickname := None;
     p_x := 0; p_y := 0; p_animation_key := None; p_is_dead := false;
     p_is_invincible := false; p_i_timestamp := 0; p_is_active := true;
     p_frags := 0; p_last_message := None |}.

(** Field writes [player.f = v]. *)
Definition set_serial (s : nat) (p : Player) : Player :=
  {| p_id := p_id p; p_serial := Some s; p_name := p_name p; p_nickname := p_nickname p;
     p_x := p_x p; p_y := p_y p; p_animation_key := p_animation_key p; p_is_dead := p_is_dead p;
     p_is_invincible := p_is_invincible p; p_i_timestamp := p_i_timestamp p;
     p_is_active := p_is_active p; p_frags := p_frags p; p_last_message := p_last_message p |}.

Definition set_name (n : string) (p : Player) : Player :=
  {| p_id := p_id p; p_serial := p_serial p; p_name := n; p_nickname := p_nickname p;
     p_x := p_x p; p_y := p_y p; p_animation_key := p_animation_key p; p_is_dead := p_is_dead p;
     p_is_invincible := p_is_invincible p; p_i_timestamp := p_i_timestamp p;
     p_is_active := p_is_active p; p_frags := p_frags p; p_last_message := p_last_message p |}.

Definition set_active (b : bool) (p : Player) : Player :=
  {| p_id := p_id p; p_serial := p_serial p; p_name := p_name p; p_nickname := p_nickname p;
     p_x := p_x p; p_y := p_y p; p_animation_key := p_animation_key p; p_is_dead := p_is_dead p;
     p_is_invincible := p_is_invincible p; p_i_timestamp := p_i_timestamp p;
     p_is_active := b; p_frags := p_frags p; p_last_message := p_last_message p |}.

Definition set_last_message (m : option string) (p : Player) : Player :=
  {| p_id := p_id p; p_serial := p_serial p; p_name := p_name p; p_nickname := p_nickname p;
     p_x := p_x p; p_y := p_y p; p_animation_key := p_animation_key p; p_is_dead := p_is_dead p;
     p_is_invincible := p_is_invincible p; p_i_timestamp := p_i_timestamp p;
     p_is_active := p_is_active p; p_frags := p_frags p; p_last_message := m |}.

(** [player.x = ...; player.y = ...; player.animation_key = ...] (move). *)
Definition set_position (x y : Q) (key : option string) (p : Player) : Player :=
  {| p_id := p_id p; p_serial := p_serial p; p_name := p_name p; p_nickname := p_nickname p;
     p_x := x; p_y := y; p_animation_key := key; p_is_dead := p_is_dead p;
     p_is_invincible := p_is_invincible p; p_i_timestamp := p_i_timestamp p;
     p_is_active := p_is_active p; p_frags := p_frags p; p_last_message := p_last_message p |}.

(** The field writes of a spawn: position, alive, invincible since [now],
    nickname. *)
Definition spawn_fields (x y : Q) (now : Z) (nick : option string) (p : Player) : Player :=
  {| p_id := p_id p; p_serial := p_serial p; p_name := p_name p; p_nickname := nick;
     p_x := x; p_y := y; p_animation_key := p_animation_key p; p_is_dead := false;
     p_is_invincible := true; p_i_timestamp := now;
     p_is_active := p_is_active p; p_frags := p_frags p; p_last_message := p_last_message p |}.

(** [player.is_invincible = b] and, when a timestamp is given,
    [player.i_timestamp = t]. *)
Definition set_invincible (b : bool) (t : option Z) (p : Player) : Player :=
  {| p_id := p_id p; p_serial := p_serial p; p_name := p_name p; p_nickname := p_nickname p;
     p_x := p_x p; p_y := p_y p; p_animation_key := p_animation_key p; p_is_dead := p_is_dead p;
     p_is_invincible := b; p_i_timestamp := default (p_i_timestamp p) t;
     p_is_active := p_is_active p; p_frags := p_frags p; p_last_message := p_last_message p |}.

Definition set_dead (p : Player) : Player :=
  {| p_id := p_id p; p_serial := p_serial p; p_name := p_name p; p_nickname := p_nickname p;
     p_x := p_x p; p_y := p_y p; p_animation_key := p_animation_key p; p_is_dead := true;
     p_is_invincible := p_is_invincible p; p_i_timestamp := p_i_timestamp p;
     p_is_active := p_is_active p; p_frags := p_frags p; p_last_message := p_last_message p |}.

Definition add_frags (d : Z) (p : Player) : Player :=
  {| p_id := p_id p; p_serial := p_serial p; p_name := p_name p; p_nickname := p_nickname p;
     p_x := p_x p; p_y := p_y p; p_animation_key := p_animation_key p; p_is_dead := p_is_dead p;
     p_is_invincible := p_is_invincible p; p_i_timestamp := p_i_timestamp p;
     p_is_active := p_is_active p; p_frags := (p_frags p + d)%Z; p_last_message := p_last_message p |}.

(** Reading a flag of a player object through its id. *)
Definition active_in (ps : pstore) (id : string) : bool :=
  match ps !! id with Some p => p_is_active p | None => false end.

(** ** Lemmas: which fields each write touches *)

Lemma set_active_flag b p : p_is_active (set_active b p) = b.
Proof. reflexivity. Qed.

Lemma add_frags_frags d p : p_frags (add_frags d p) = (p_frags p + d)%Z.
Proof. reflexivity. Qed.

Lemma active_in_alter_ne (f : Player -> Player) ps i j :
  i <> j -> active_in (alter f i ps) j = active_in ps j.
Proof. intros Hne. unfold active_in. by rewrite lookup_alter_ne. Qed.

#[export] Hint Rewrite set_active_flag add_frags_frags : bw_rw.
