(* ===== verification/MapState.v ===== *)
(** * The map state of a room and the handlers' loops over its layers

    A room's [map] (loaded from the map template, not under [src/]) has a
    [width], an array [layers] of [{name, data}] objects and a
    [spawn_order] array of [{col, row}] points.  The handlers reach a layer
    by scanning [layers] by name, in three different ways, and this file
    models each as the code writes it:
    - scan with [break] at the first match (disconnect, collect powerup,
      plant bomb);
    - scan without [break] (powerup disappear: every match is written);
    - scan recording the match in a variable without leaving the loop
      (bomb explode: the [break] leaves the [switch] only, so the last
      match wins).
    A cell is addressed by [row * width + col], with no bounds check
    ([cell_index]).  The disconnect's scrub loop is run with fuel
    [length], its exact number of iterations ([scrub_spec]). *)

From S2P Require Import Prelude JsArray.

Record Layer := mkLayer { l_name : string; l_data : jsarray }.

Record SpawnPoint := mkSpawnPoint { sp_col : Z; sp_row : Z }.

Record MapState := mkMapState {
  m_width : Z;
  m_layers : list Layer;
  m_spawn_order : list SpawnPoint
}.

Definition with_layers (m : MapState) (ls : list Layer) : MapState :=
  {| m_width := m_width m; m_layers := ls; m_spawn_order := m_spawn_order m |}.

Definition update_data (f : jsarray -> jsarray) (l : Layer) : Layer :=
  {| l_name := l_name l; l_data := f (l_data l) |}.

(** [row * this.room.map.width + col] *)
Definition cell_index (m : MapState) (col row : Z) : Z := (row * m_width m + col)%Z.

(** [for (l ...) if (layers[l].name == name) { ...; break; }] *)
Fixpoint update_first (name : string) (f : jsarray -> jsarray) (ls : list Layer) : list Layer :=
  match ls with
  | [] => []
  | l :: ls' => if String.eqb (l_name l) name then update_data f l :: ls'
                else l :: update_first name f ls'
  end.

(** [for (l ...) { if (layers[l].name != name) continue; ... }]: no break. *)
Fixpoint update_all (name : string) (f : jsarray -> jsarray) (ls : list Layer) : list Layer :=
  match ls with
  | [] => []
  | l :: ls' => (if String.eqb (l_name l) name then update_data f l else l) :: update_all name f ls'
  end.

(** The index of the first layer with this name. *)
Fixpoint first_index (name : string) (ls : list Layer) : option nat :=
  match ls with
  | [] => None
  | l :: ls' => if String.eqb (l_name l) name then Some 0%nat else S <$> first_index name ls'
  end.

(** [for (l ...) switch (layers[l].name) { case name: x = layers[l]; break; }]:
    the loop runs to the end, so the variable holds the last match. *)
Fixpoint last_index_from (name : string) (i : nat) (acc : option nat) (ls : list Layer) : option nat :=
  match ls with
  | [] => acc
  | l :: ls' => last_index_from name (S i)
                  (if String.eqb (l_name l) name then Some i else acc) ls'
  end.

Definition last_index (name : string) (ls : list Layer) : option nat :=
  last_index_from name 0 None ls.

(** Writing through a layer reference found by index. *)
Definition update_at (i : nat) (f : jsarray -> jsarray) (ls : list Layer) : list Layer :=
  alter (update_data f) i ls.

(** The bomb scrub of the disconnect handler:
    [for (b = 0; b < data.length; b++) if (data[b] == target) data[b] = 0;]
    with [target] the departing player's [serial + 1] ([None] when the
    serial is undefined, which makes the sum NaN). *)
Fixpoint scrub_loop (fuel : nat) (b : Z) (target : option Z) (a : jsarray) : jsarray :=
  match fuel with
  | O => a
  | S fuel' =>
      if (b <? js_length a)%Z then
        let a' := match target with
                  | Some t => if js_eq_num (js_get a b) t then js_set a b 0 else a
                  | None => a
                  end in
        scrub_loop fuel' (b + 1)%Z target a'
      else a
  end.

Definition scrub (target : option Z) (a : jsarray) : jsarray :=
  scrub_loop (Z.to_nat (js_length a)) 0 target a.

(** ** Lemmas *)

Lemma update_data_name f l : l_name (update_data f l) = l_name l.
Proof. reflexivity. Qed.

Lemma update_first_names name f ls : l_name <$> update_first name f ls = l_name <$> ls.
Proof.
  induction ls as [|l ls IH]; [done|]. cbn [update_first].
  destruct (String.eqb _ _); rewrite !fmap_cons; [done|]. by rewrite IH.
Qed.

Lemma update_all_names name f ls : l_name <$> update_all name f ls = l_name <$> ls.
Proof.
  induction ls as [|l ls IH]; [done|]. cbn [update_all].
  rewrite !fmap_cons, IH. by destruct (String.eqb _ _).
Qed.

Lemma update_at_names i f ls : l_name <$> update_at i f ls = l_name <$> ls.
Proof.
  unfold update_at. apply list_eq. intros j. rewrite !list_lookup_fmap.
  destruct (decide (i = j)) as [<-|Hne].
  - rewrite list_lookup_alter. destruct (ls !! i); simpl; by case_decide.
  - by rewrite list_lookup_alter_ne.
Qed.

(** [update_first] writes exactly the layer [first_index] names. *)
Lemma update_first_at name f ls :
  update_first name f ls =
    match first_index name ls with Some i => update_at i f ls | None => ls end.
Proof.
  unfold update_at.
  induction ls as [|l ls IH]; simpl; [done|].
  destruct (String.eqb (l_name l) name); [done|].
  rewrite IH. by destruct (first_index name ls).
Qed.

Lemma first_index_Some name ls i :
  first_index name ls = Some i ->
  exists l, ls !! i = Some l /\ l_name l = name /\
    forall j l', (j < i)%nat -> ls !! j = Some l' -> l_name l' <> name.
Proof.
  revert i. induction ls as [|l ls IH]; intros i; simpl; [done|].
  destruct (String.eqb_spec (l_name l) name) as [Heq|Hne].
  - intros [= <-]. exists l. split_and!; [done..|]. intros j l' Hj. lia.
  - destruct (first_index name ls) as [i'|] eqn:E; simpl; [|done].
    intros [= <-]. destruct (IH i' eq_refl) as (l0 & Hl0 & Hn & Hbefore).
    exists l0. split_and!; [done..|].
    intros [|j] l' Hj Hl'; simpl in Hl'; [by injection Hl' as <-|].
    apply (Hbefore j); [lia|done].
Qed.

Lemma last_index_from_spec name ls : forall i acc,
  last_index_from name i acc ls =
    match last_index_from name 0 None ls with Some j => Some (i + j)%nat | None => acc end.
Proof.
  induction ls as [|l ls IH]; intros i acc; simpl; [done|].
  rewrite (IH (S i)), (IH 1%nat).
  destruct (last_index_from name 0 None ls); [f_equal; lia|].
  destruct (String.eqb _ _); [f_equal; lia|done].
Qed.

(** When layer names are distinct, the last match is the first match: the
    explode handler's scan and the others' agree. *)
Lemma last_index_first_index name ls :
  NoDup (l_name <$> ls) -> last_index name ls = first_index name ls.
Proof.
  unfold last_index. induction ls as [|l ls IH]; intros Hnd; simpl; [done|].
  rewrite fmap_cons in Hnd. apply NoDup_cons in Hnd as [Hnotin Hnd].
  rewrite last_index_from_spec, IH by done.
  destruct (String.eqb_spec (l_name l) name) as [<-|Hne].
  - destruct (first_index (l_name l) ls) as [j|] eqn:E; [|done].
    apply first_index_Some in E as (l' & Hl' & Hn & _).
    exfalso. apply Hnotin. rewrite <- Hn. apply list_elem_of_fmap. exists l'.
    split; [done|]. by eapply list_elem_of_lookup_2.
  - destruct (first_index name ls); simpl; [f_equal; lia|done].
Qed.

(** The scrub loop visits every index from [b] up to [length] (the writes
    stay inside the array, so [length] does not move), given enough fuel. *)
Lemma scrub_loop_spec fuel : forall b t a k,
  (0 <= b)%Z -> (js_length a <= b + Z.of_nat fuel)%Z ->
  js_length (scrub_loop fuel b (Some t) a) = js_length a /\
  js_get (scrub_loop fuel b (Some t) a) k =
    (if (b <=? k)%Z && (k <? js_length a)%Z && js_eq_num (js_get a k) t
     then Some 0%Z else js_get a k).
Proof.
  induction fuel as [|fuel IH]; intros b t a k Hb Hfuel; simpl.
  - split; [done|]. bw_cases; simpl; try done; lia.
  - destruct (Z.ltb_spec b (js_length a)) as [Hlt|Hge].
    + set (a' := if js_eq_num (js_get a b) t then js_set a b 0 else a).
      assert (Hlen : js_length a' = js_length a).
      { subst a'. destruct (js_eq_num _ _); [apply js_set_length_in; lia|done]. }
      destruct (IH (b + 1)%Z t a' k) as [IHlen IHget]; [lia|lia|].
      split; [congruence|]. rewrite IHget, Hlen.
      subst a'. destruct (decide (k = b)) as [->|Hne].
      * destruct (js_eq_num (js_get a b) t) eqn:E.
        -- rewrite js_get_set_eq. bw_cases; simpl; try done; lia.
        -- rewrite E. bw_cases; simpl; try rewrite E; try done; lia.
      * destruct (js_eq_num (js_get a b) t); [rewrite !js_get_set_ne by congruence|];
          bw_cases; simpl; try done; lia.
    + split; [done|]. bw_cases; simpl; try done; lia.
Qed.

(** [scrub]: every cell of the array that holds [t] becomes [0]; nothing
    else changes, keys outside [0, length) included. *)
Lemma scrub_spec t a k :
  (0 <= js_length a)%Z ->
  js_length (scrub (Some t) a) = js_length a /\
  js_get (scrub (Some t) a) k =
    (if (0 <=? k)%Z && (k <? js_length a)%Z && js_eq_num (js_get a k) t
     then Some 0%Z else js_get a k).
Proof. intros Hl. apply scrub_loop_spec; lia. Qed.

(** [update_all] writes every layer of that name and only those. *)
Lemma update_all_lookup name f ls i :
  update_all name f ls !! i =
    (fun l => if String.eqb (l_name l) name then update_data f l else l) <$> ls !! i.
Proof.
  revert i. induction ls as [|l ls IH]; intros [|i]; simpl; [done..|apply IH].
Qed.

#[export] Hint Rewrite update_first_names update_all_names update_at_names : bw_rw.
