(* ===== verification/Room.v ===== *)
(** * Rooms: the roster, the host pointer, and the Room interface

    [Room.js] is not under [src/].  The handlers read its fields directly
    ([room.players[serial]], [room.map], [room.next_spawn_index],
    [room.rc_timestamp]) and call its methods.  The fields form the record
    [Room]; the methods form the interface [RoomMethods], and the class
    [RoomContract] states what the specification (§3, §4.2, §4.3) fixes
    about them:
    - the roster has one slot per spawn point (capacity), a player joins
      the first free slot and takes its index as serial;
    - [isFull]/[isEmpty] compare the number of members with the capacity
      and with zero;
    - [hasHost] holds when the host pointer names an active player;
    - [selectNewHost] points the host at an active member, or at nobody
      when no member is active; which active member it picks is the open
      question of spec §9, and the contract leaves it open;
    - [resetMap] reinitialises the room's map state (§4.5), which §3 makes
      of the layers and the spawn cursor: the template's layers, cursor 0.
    The engine's theorems are proved from the contract, so they hold for
    every tie-break.  [js_room_methods] is one implementation (lowest
    serial first) and [js_room_contract] shows that it meets the contract;
    the witnesses run on it. *)

From S2P Require Import Prelude JsArray Player MapState.

Record Room := mkRoom {
  r_id : nat;
  r_players : list (option string);   (* slot [s] holds the player of serial [s] *)
  r_host : option string;
  rc_timestamp : Z;
  next_spawn_index : nat;
  r_map : MapState
}.

Definition with_players (r : Room) (l : list (option string)) : Room :=
  {| r_id := r_id r; r_players := l; r_host := r_host r; rc_timestamp := rc_timestamp r;
     next_spawn_index := next_spawn_index r; r_map := r_map r |}.
Definition with_host (r : Room) (h : option string) : Room :=
  {| r_id := r_id r; r_players := r_players r; r_host := h; rc_timestamp := rc_timestamp r;
     next_spawn_index := next_spawn_index r; r_map := r_map r |}.
Definition with_rc_timestamp (r : Room) (t : Z) : Room :=
  {| r_id := r_id r; r_players := r_players r; r_host := r_host r; rc_timestamp := t;
     next_spawn_index := next_spawn_index r; r_map := r_map r |}.
Definition with_next_spawn (r : Room) (i : nat) : Room :=
  {| r_id := r_id r; r_players := r_players r; r_host := r_host r; rc_timestamp := rc_timestamp r;
     next_spawn_index := i; r_map := r_map r |}.
Definition with_map (r : Room) (m : MapState) : Room :=
  {| r_id := r_id r; r_players := r_players r; r_host := r_host r; rc_timestamp := rc_timestamp r;
     next_spawn_index := next_spawn_index r; r_map := m |}.

(** The members of a roster, in serial order. *)
Fixpoint members (l : list (option string)) : list string :=
  match l with
  | [] => []
  | Some x :: l' => x :: members l'
  | None :: l' => members l'
  end.

(** [room.players[s]] with [s] a number from a payload. *)
Definition roster_at (r : Room) (s : Z) : option string := zlookup (r_players r) s ≫= id.

(** The first free slot. *)
Fixpoint first_free_from (i : nat) (l : list (option string)) : option nat :=
  match l with
  | [] => None
  | None :: _ => Some i
  | Some _ :: l' => first_free_from (S i) l'
  end.
Definition first_free (r : Room) : option nat := first_free_from 0 (r_players r).

(** ** The interface the engine calls *)
Class RoomMethods := {
  new_Room : MapState -> nat -> Room;
  isFull : Room -> bool;
  isEmpty : Room -> bool;
  hasHost : Room -> pstore -> bool;
  isHost : Room -> string -> bool;
  insertPlayer : Room -> pstore -> string -> Room * pstore;
  excludePlayer : Room -> pstore -> string -> Room;
  selectNewHost : Room -> pstore -> Room * option string;
  resetMap : MapState -> Room -> Room
}.

(** The host a selection may return: an active member, or nobody when no
    member is active. *)
Definition host_choice_ok (r : Room) (ps : pstore) (h : option string) : Prop :=
  match h with
  | Some x => x ∈ members (r_players r) /\ active_in ps x = true
  | None => forall x, x ∈ members (r_players r) -> active_in ps x = false
  end.

Class RoomContract `{RoomMethods} : Prop := {
  new_Room_spec m id :
    new_Room m id = {| r_id := id; r_players := replicate (length (m_spawn_order m)) None;
                       r_host := None; rc_timestamp := 0; next_spawn_index := 0; r_map := m |};
  isFull_spec r : isFull r = (length (members (r_players r)) =? length (r_players r))%nat;
  isEmpty_spec r : isEmpty r = (length (members (r_players r)) =? 0)%nat;
  hasHost_spec r ps : hasHost r ps = match r_host r with Some h => active_in ps h | None => false end;
  isHost_spec r pid : isHost r pid = bool_decide (r_host r = Some pid);
  insertPlayer_spec r ps pid :
    insertPlayer r ps pid =
      match first_free r with
      | Some s => (with_players r (<[s:=Some pid]> (r_players r)), alter (set_serial s) pid ps)
      | None => (r, ps)
      end;
  excludePlayer_spec r ps pid :
    excludePlayer r ps pid =
      match ps !! pid ≫= p_serial with
      | Some s => if bool_decide (r_players r !! s = Some (Some pid))
                  then with_players r (<[s:=None]> (r_players r)) else r
      | None => r
      end;
  selectNewHost_spec r ps :
    (selectNewHost r ps).1 = with_host r (selectNewHost r ps).2 /\
    host_choice_ok r ps (selectNewHost r ps).2;
  resetMap_spec m r : resetMap m r = with_next_spawn (with_map r m) 0
}.

(** ** One implementation: the lowest active serial becomes host *)
Definition js_new_Room (m : MapState) (id : nat) : Room :=
  {| r_id := id; r_players := replicate (length (m_spawn_order m)) None;
     r_host := None; rc_timestamp := 0; next_spawn_index := 0; r_map := m |}.

Definition js_insertPlayer (r : Room) (ps : pstore) (pid : string) : Room * pstore :=
  match first_free r with
  | Some s => (with_players r (<[s:=Some pid]> (r_players r)), alter (set_serial s) pid ps)
  | None => (r, ps)
  end.

Definition js_excludePlayer (r : Room) (ps : pstore) (pid : string) : Room :=
  match ps !! pid ≫= p_serial with
  | Some s => if bool_decide (r_players r !! s = Some (Some pid))
              then with_players r (<[s:=None]> (r_players r)) else r
  | None => r
  end.

Definition js_selectNewHost (r : Room) (ps : pstore) : Room * option string :=
  let h := List.find (active_in ps) (members (r_players r)) in
  (with_host r h, h).

#[export] Instance js_room_methods : RoomMethods := {|
  new_Room := js_new_Room;
  isFull r := (length (members (r_players r)) =? length (r_players r))%nat;
  isEmpty r := (length (members (r_players r)) =? 0)%nat;
  hasHost r ps := match r_host r with Some h => active_in ps h | None => false end;
  isHost r pid := bool_decide (r_host r = Some pid);
  insertPlayer := js_insertPlayer;
  excludePlayer := js_excludePlayer;
  selectNewHost := js_selectNewHost;
  resetMap m r := with_next_spawn (with_map r m) 0
|}.

(** ** Roster lemmas *)

Lemma elem_of_members (l : list (option string)) x :
  x ∈ members l <-> exists s, l !! s = Some (Some x).
Proof.
  induction l as [|[y|] l IH]; simpl.
  - split; [by intros ?%elem_of_nil|]. by intros [? ?].
  - rewrite elem_of_cons, IH. split.
    + intros [->|[s Hs]]; [by exists 0%nat | by exists (S s)].
    + intros [[|s] Hs]; simpl in Hs; [left; congruence | right; eauto].
  - rewrite IH. split; intros [s Hs]; [by exists (S s)|].
    destruct s; simpl in Hs; [done | eauto].
Qed.

Lemma members_app l1 l2 : members (l1 ++ l2) = members l1 ++ members l2.
Proof. induction l1 as [|[]]; simpl; congruence. Qed.

Lemma length_members_le l : (length (members l) <= length l)%nat.
Proof. induction l as [|[]]; simpl; lia. Qed.

Lemma length_members_insert l s o o' :
  l !! s = Some o ->
  (length (members (<[s:=o']> l)) + length (members [o]) =
   length (members l) + length (members [o']))%nat.
Proof.
  intros Hs. rewrite <- (take_drop_middle l s o Hs) at 2.
  rewrite insert_take_drop by (by eapply lookup_lt_Some).
  rewrite !members_app, !length_app.
  destruct o, o'; simpl; lia.
Qed.

Lemma first_free_from_Some i l j :
  first_free_from i l = Some j -> (i <= j)%nat /\ l !! (j - i)%nat = Some None.
Proof.
  revert i. induction l as [|[x|] l IH]; intros i; simpl; [done| |].
  - intros H. apply IH in H as [Hij Hj]. split; [lia|].
    replace (j - i)%nat with (S (j - S i)) by lia. done.
  - intros [= <-]. by rewrite Nat.sub_diag.
Qed.

Lemma first_free_from_None i l :
  first_free_from i l = None -> length (members l) = length l.
Proof.
  revert i. induction l as [|[x|] l IH]; intros i; simpl; [done| |done].
  intros H. by rewrite (IH _ H).
Qed.

Lemma first_free_Some r s : first_free r = Some s -> r_players r !! s = Some None.
Proof.
  unfold first_free. intros H. apply first_free_from_Some in H as [_ H].
  by rewrite Nat.sub_0_r in H.
Qed.

(** A roster has a free slot exactly when it is not full. *)
Lemma first_free_not_full r :
  first_free r = None <-> length (members (r_players r)) = length (r_players r).
Proof.
  split; [apply first_free_from_None|]. intros Hfull.
  destruct (first_free r) as [s|] eqn:E; [|done].
  apply first_free_Some in E.
  pose proof (length_members_insert (r_players r) s None (Some "") E) as Hl.
  pose proof (length_members_le (<[s:=Some ""]> (r_players r))).
  rewrite length_insert in *. simpl in *. lia.
Qed.

Lemma find_active_choice r ps : host_choice_ok r ps (List.find (active_in ps) (members (r_players r))).
Proof.
  unfold host_choice_ok. destruct (List.find _ _) as [x|] eqn:E.
  - apply find_some in E as [Hin Ha]. split; [by apply list_elem_of_In|done].
  - intros x Hx. apply list_elem_of_In in Hx. exact (find_none _ _ E x Hx).
Qed.

#[export] Instance js_room_contract : RoomContract.
Proof.
  split; try reflexivity.
  intros r ps. split; [reflexivity|]. apply find_active_choice.
Qed.

#[export] Hint Resolve first_free_Some : bw.
