(* ===== verification/Wire.v ===== *)
(** * Wire events: client payloads, server messages, the two broadcasts

    The payload records are the fields the handlers read from the client's
    data (spec §6); a whole payload may be [undefined], which the engine
    models with [option].  Outgoing messages are [msg]s addressed to one
    connection; the room broadcasts ([Room.emitAll], [Room.emitBroadcast],
    not under [src/]) deliver one message per roster member, in serial
    order, at the moment of the call, the second one skipping the sender. *)

From S2P Require Import Prelude JsArray Player MapState Room.

Record RoomReq := mkRoomReq { rq_name : option string }.
Record SpawnIn := mkSpawnIn { spi_x : Q; spi_nickname : option string }.
Record MoveIn := mkMoveIn { mv_tag : string; mv_x : Q; mv_y : Q; mv_key : option string }.
Record DeathIn := mkDeathIn { d_victim_serial : Z; d_killer_serial : Z }.
Record CollectIn := mkCollectIn { c_col : Z; c_row : Z; c_type : string }.
Record SerialIn := mkSerialIn { si_serial : Z }.
Record BombIn := mkBombIn { b_owner_serial : Z; b_col : Z; b_row : Z }.
Record ExplodeIn := mkExplodeIn { e_indexes : list (Z * Z) }.
Record PowerupIn := mkPowerupIn { pw_col : Z; pw_row : Z }.
Record LoginIn := mkLoginIn { li_name : option string }.

(** The data a message carries, after the handler has stamped it. *)
Inductive Payload :=
  | PPlayer (p : Player)
  | PRoom (r : Room)
  | PChat (sender_id : string) (body : option string)
  | PSpawn (x y : Q) (nickname : option string) (timestamp : Z)
  | PMove (d : MoveIn)
  | PDeath (d : DeathIn) (victim_id : string) (victim_frags : Z)
           (killer_id : string) (killer_frags : Z)
  | PCollect (d : CollectIn) (timestamp : Z) (c_serial : option nat)
  | PLostInv (d : SerialIn)
  | PBomb (d : BombIn) (timestamp : Z)
  | PExplode (d : ExplodeIn) (timestamp : Z)
  | PPowerup (d : option PowerupIn)
  | PHost (host : string)
  | PLogin (name : option string).

Record msg := mkMsg { m_to : string; m_event : string; m_data : Payload }.

(** [socket.emit(ev, data)] *)
Definition emit_to (cid : string) (ev : string) (d : Payload) : list msg := [mkMsg cid ev d].

(** [room.emitAll(io, ev, data)]: every member, the sender included. *)
Definition emitAll (r : Room) (ev : string) (d : Payload) : list msg :=
  (fun c => mkMsg c ev d) <$> members (r_players r).

(** [room.emitBroadcast(io, ev, data, except)]: every member but [except]. *)
Definition emitBroadcast (r : Room) (ev : string) (d : Payload) (except : string) : list msg :=
  (fun c => mkMsg c ev d) <$> filter (fun c => c <> except) (members (r_players r)).

(** The connections a list of messages reaches with a given event. *)
Definition receivers (ev : string) (ms : list msg) : list string :=
  m_to <$> filter (fun m => m_event m = ev) ms.

(** ** Lemmas *)

Lemma elem_of_emitAll r ev d m :
  m ∈ emitAll r ev d <-> m_to m ∈ members (r_players r) /\ m = mkMsg (m_to m) ev d.
Proof.
  unfold emitAll. rewrite list_elem_of_fmap. split.
  - intros (c & -> & Hc). simpl. done.
  - intros [Hin ->]. eauto.
Qed.

Lemma elem_of_emitBroadcast r ev d ex m :
  m ∈ emitBroadcast r ev d ex <->
  m_to m ∈ members (r_players r) /\ m_to m <> ex /\ m = mkMsg (m_to m) ev d.
Proof.
  unfold emitBroadcast. rewrite list_elem_of_fmap. split.
  - intros (c & -> & Hc). apply list_elem_of_filter in Hc as [Hne Hc]. simpl. done.
  - intros (Hin & Hne & ->). exists (m_to m). split; [done|].
    by apply list_elem_of_filter.
Qed.

Lemma receivers_app ev ms1 ms2 : receivers ev (ms1 ++ ms2) = receivers ev ms1 ++ receivers ev ms2.
Proof. unfold receivers. by rewrite filter_app, fmap_app. Qed.

Lemma receivers_fmap ev ev' d cs :
  receivers ev ((fun c => mkMsg c ev' d) <$> cs) = if decide (ev' = ev) then cs else [].
Proof.
  unfold receivers. induction cs as [|c cs IH].
  - by case_decide.
  - rewrite fmap_cons, filter_cons. simpl.
    destruct (decide (ev' = ev)) as [E|E] in *; rewrite ?fmap_cons, IH; simpl;
      by repeat case_decide.
Qed.

Lemma receivers_emitAll ev ev' r d :
  receivers ev (emitAll r ev' d) = if decide (ev' = ev) then members (r_players r) else [].
Proof. apply receivers_fmap. Qed.

Lemma receivers_emitBroadcast ev ev' r d ex :
  receivers ev (emitBroadcast r ev' d ex) =
    if decide (ev' = ev) then filter (fun c => c <> ex) (members (r_players r)) else [].
Proof. apply receivers_fmap. Qed.

Lemma receivers_emit_to ev ev' c d :
  receivers ev (emit_to c ev' d) = if decide (ev' = ev) then [c] else [].
Proof. unfold receivers, emit_to. rewrite filter_cons, filter_nil. simpl. by case_decide. Qed.

#[export] Hint Rewrite receivers_app receivers_emitAll receivers_emitBroadcast receivers_emit_to : bw_rw.

(** Messages that all carry another event reach nobody with [ev]. *)
Lemma receivers_other ev ev' ms :
  Forall (fun m => m_event m = ev') ms -> ev' <> ev -> receivers ev ms = [].
Proof.
  intros Hall Hne. unfold receivers. induction Hall as [|m ms Hm _ IH]; [done|].
  rewrite filter_cons, decide_False by congruence. exact IH.
Qed.

