(* ===== verification/Registry.v ===== *)
(** * The registries: the handler module's [rooms] and [players] arrays

    [SocketEventHandler.js] keeps two module-level arrays.  [rooms] holds
    references to room objects (here: room ids into the room store);
    [players] holds references to player objects (here: connection ids
    into the player store).  This file models the array code of the
    handlers:
    - the first-fit scan of [onRoomRequest] (lines 78-86);
    - [rooms.indexOf(room)] and the swap-with-last removal of
      [onClientDisconnect] (lines 33, 63-66), written as the three JS array
      operations it performs, including what they do when the index is -1;
    - [players.findIndex(p => p.id === id)] followed by [splice] (lines
      26-29).
    The lemmas relate the removals to their intent: the swap-remove at
    the index of a present room is a permutation of [delete] and, on a
    duplicate-free array, of the filter that drops the room
    ([swap_remove_equiv]); [remove_player] deletes the first occurrence. *)

From S2P Require Import Prelude JsArray Player MapState Room.

Section Registry.
Context `{RM : RoomMethods}.

(** [for (r ...) { if (rooms[r].isFull()) continue; else { t_room = rooms[r]; break; } }]
    A dangling reference would make [room.isFull()] throw. *)
Fixpoint scan_rooms (rs : gmap nat Room) (l : list nat) : outcome (option nat) :=
  match l with
  | [] => Ok None
  | rid :: l' =>
      match rs !! rid with
      | None => Crash "TypeError: Cannot read properties of undefined (reading 'isFull')"
      | Some r => if isFull r then scan_rooms rs l' else Ok (Some rid)
      end
  end.

End Registry.

(** [rooms.indexOf(room)] *)
Definition index_of (rid : nat) (l : list nat) : Z := find_index (fun x => bool_decide (x = rid)) l.

(** [rooms[ri] = rooms.splice(rooms.length - 1, 1, rooms[ri])[0]; rooms.pop();]
    - [splice] replaces the last element by [rooms[ri]] and returns the old
      last element;
    - the assignment writes it at [ri]: inside the array when [ri] is an
      index, as a plain property (invisible to the array) when [ri = -1];
    - [pop] drops the last element.
    On an empty array nothing is left. *)
Definition swap_remove (ri : Z) (l : list nat) : list nat :=
  match last l with
  | None => []
  | Some last_room =>
      let n := (length l - 1)%nat in
      if (0 <=? ri)%Z && (ri <? Z.of_nat (length l))%Z then
        match l !! Z.to_nat ri with
        | Some moved =>
            let l1 := <[n := moved]> l in
            let l2 := <[Z.to_nat ri := last_room]> l1 in
            take n l2
        | None => take n l
        end
      else take n l
  end.

(** [var i = players.findIndex(p => p.id === id); if (i !== -1) players.splice(i, 1);] *)
Definition remove_player (id : string) (l : list string) : list string :=
  let i := find_index (fun x => bool_decide (x = id)) l in
  if (i =? -1)%Z then l else delete (Z.to_nat i) l.

(** ** Lemmas *)

Section RegistryLemmas.
Context `{RM : RoomMethods}.

(** The scan returns the first room of the array that is not full. *)
Lemma scan_rooms_first_fit rs l :
  Forall (fun rid => is_Some (rs !! rid)) l ->
  scan_rooms rs l =
    Ok (List.find (fun rid => match rs !! rid with Some r => negb (isFull r) | None => false end) l).
Proof.
  induction l as [|rid l IH]; intros Hall; simpl; [done|].
  apply Forall_cons in Hall as [[r Hr] Hall]. rewrite Hr.
  destruct (isFull r); simpl; [by apply IH | done].
Qed.

End RegistryLemmas.

Lemma find_index_bool_decide_NoDup (l : list nat) i x :
  NoDup l -> l !! i = Some x -> find_index (fun y => bool_decide (y = x)) l = Z.of_nat i.
Proof.
  intros Hnd Hi.
  destruct (find_index_spec (fun y => bool_decide (y = x)) l) as [[_ Hall] | (n & y & Hn & Hy & Hp & _)].
  - exfalso. eapply Forall_lookup_1 in Hall; [|done]. simpl in Hall.
    by rewrite bool_decide_eq_false in Hall.
  - apply bool_decide_eq_true in Hp as ->. rewrite Hn. f_equal.
    by eapply NoDup_lookup.
Qed.

(** Swap-remove at the index of [x] leaves a permutation of the other
    elements: exactly [x] is gone. *)
Lemma swap_remove_perm (l : list nat) i x :
  l !! i = Some x -> swap_remove (Z.of_nat i) l ≡ₚ delete i l.
Proof.
  intros Hi. unfold swap_remove.
  assert (Hlt : (i < length l)%nat) by (by eapply lookup_lt_Some).
  destruct (last l) as [y|] eqn:Hlast; [|by apply last_None in Hlast as ->].
  destruct (Z.leb_spec 0 (Z.of_nat i)); [|lia].
  destruct (Z.ltb_spec (Z.of_nat i) (Z.of_nat (length l))); [|lia]. simpl.
  rewrite Nat2Z.id, Hi.
  apply last_Some in Hlast as [l0 ->].
  rewrite length_app in *. simpl in *. replace (length l0 + 1 - 1)%nat with (length l0) by lia.
  rewrite insert_app_r_alt by lia. rewrite Nat.sub_diag. simpl.
  destruct (decide (i = length l0)) as [->|Hne].
  - rewrite insert_app_r_alt by lia. rewrite Nat.sub_diag. simpl.
    rewrite take_app_length, delete_middle. by rewrite app_nil_r.
  - assert (Hi0 : (i < length l0)%nat) by lia.
    rewrite insert_app_l by done. rewrite take_app_length' by (by rewrite length_insert).
    rewrite insert_take_drop by done. rewrite delete_take_drop.
    rewrite take_app_le, drop_app_le by lia.
    apply Permutation_app_head. apply Permutation_cons_append.
Qed.

(** Whatever the index, swap-remove leaves a duplicate-free array of
    elements of the original one. *)
Lemma swap_remove_sub (l : list nat) ri :
  NoDup l -> NoDup (swap_remove ri l) /\ forall x, x ∈ swap_remove ri l -> x ∈ l.
Proof.
  intros Hnd.
  assert (Hsub : forall l', l' `sublist_of` l -> NoDup l' /\ forall x, x ∈ l' -> x ∈ l).
  { intros l' Hl'. split; [by eapply sublist_NoDup|]. intros x Hx. by eapply elem_of_sublist. }
  destruct (decide (0 <= ri < Z.of_nat (length l))%Z) as [Hin|Hout].
  - destruct (lookup_lt_is_Some_2 l (Z.to_nat ri)) as [x Hx]; [lia|].
    pose proof (swap_remove_perm l (Z.to_nat ri) x Hx) as Hp. rewrite Z2Nat.id in Hp by lia.
    destruct (Hsub _ (sublist_delete l (Z.to_nat ri))) as [H1 H2].
    split; [by rewrite Hp|]. intros y Hy. apply H2. by rewrite <- Hp.
  - unfold swap_remove. destruct (last l); [|split; [constructor|by intros ? ?%elem_of_nil]].
    replace ((0 <=? ri)%Z && (ri <? Z.of_nat (length l))%Z) with false
      by (symmetry; apply andb_false_iff; destruct (Z.leb_spec 0 ri), (Z.ltb_spec ri (Z.of_nat (length l)));
          [lia|auto..]).
    apply Hsub, sublist_take.
Qed.

(** Removing a connection id from a duplicate-free players array: exactly
    that id goes, whether or not it was there. *)
Lemma remove_player_spec id l :
  NoDup l -> NoDup (remove_player id l) /\ forall x, x ∈ remove_player id l <-> x ∈ l /\ x <> id.
Proof.
  intros Hnd. unfold remove_player.
  destruct (find_index_spec (fun x => bool_decide (x = id)) l) as [[-> Hall] | (n & y & -> & Hy & Hp & _)].
  - simpl. split; [done|]. intros x. split; [|tauto]. intros Hx. split; [done|]. intros ->.
    eapply Forall_forall in Hall; [|exact Hx]. simpl in Hall. by rewrite bool_decide_eq_true_2 in Hall.
  - apply bool_decide_eq_true in Hp as ->.
    replace (Z.of_nat n =? -1)%Z with false by (symmetry; apply Z.eqb_neq; lia).
    rewrite Nat2Z.id, delete_take_drop. pose proof (take_drop_middle l n id Hy) as Hl.
    set (T := take n l) in *. set (D := drop (S n) l) in *. rewrite <- Hl in Hnd.
    apply NoDup_app in Hnd as (Hnd1 & Hdisj & Hnd2). apply NoDup_cons in Hnd2 as [Hid Hnd2].
    split.
    + apply NoDup_app. split_and!; [done| |done].
      intros x Hx1 Hx2. apply (Hdisj x Hx1). by apply elem_of_cons; right.
    + intros x. rewrite <- Hl, !elem_of_app, elem_of_cons. split.
      * intros [H|H]; split; [by left| |by right; right|by intros ->].
        intros ->. apply (Hdisj id H). by left.
      * intros [[H|[->|H]] Hne]; [by left|done|by right].
Qed.


(** Deleting the position of [x] from a duplicate-free array removes
    exactly the occurrences of [x]. *)
Lemma delete_filter_NoDup (l : list nat) i x :
  NoDup l -> l !! i = Some x -> delete i l = filter (fun y => y <> x) l.
Proof.
  revert i. induction l as [|y l IH]; intros i Hnd Hi; [done|].
  apply NoDup_cons in Hnd as [Hy Hnd]. rewrite filter_cons.
  destruct i as [|i]; simpl in Hi.
  - injection Hi as ->. rewrite decide_False by (intros Hxx; by apply Hxx). simpl. clear IH Hnd.
    induction l as [|z l IHl]; [done|].
    rewrite filter_cons, decide_True by (intros ->; apply Hy; by left).
    f_equal. apply IHl. intros ?. apply Hy. by right.
  - rewrite decide_True; [simpl; f_equal; by apply IH|].
    intros ->. apply Hy. by eapply list_elem_of_lookup_2.
Qed.

(** C30: the removal the disconnect performs on the rooms array
    ([rooms[ri] = rooms.splice(...)[0]; rooms.pop()] at
    [ri = rooms.indexOf(room)]) is equivalent, up to the order of the
    remaining rooms, to filtering the room out of the array, when the room
    is in it; when it is not, [indexOf] yields -1 and the same code drops
    the last room of the array instead. *)
Theorem swap_remove_equiv (l : list nat) rid :
  NoDup l ->
  (rid ∈ l -> swap_remove (index_of rid l) l ≡ₚ filter (fun x => x <> rid) l) /\
  (rid ∉ l -> swap_remove (index_of rid l) l = take (length l - 1) l).
Proof.
  intros Hnd. split.
  - intros (i & Hi)%list_elem_of_lookup. unfold index_of.
    rewrite (find_index_bool_decide_NoDup l i rid Hnd Hi), (swap_remove_perm l i rid Hi).
    by rewrite (delete_filter_NoDup l i rid Hnd Hi).
  - intros Hnot. unfold index_of.
    destruct (find_index_spec (fun x => bool_decide (x = rid)) l) as [[-> _] | (n & y & _ & Hy & Hp & _)].
    + unfold swap_remove. destruct (last l) eqn:Hl; [done|]. by apply last_None in Hl as ->.
    + apply bool_decide_eq_true in Hp as ->. exfalso. apply Hnot. by eapply list_elem_of_lookup_2.
Qed.
