(* ===== verification/Lifecycle.v ===== *)
(** * The engine's world and the lifecycle handlers

    The state [SocketEventHandler.js] works on, made explicit:
    - [w_players]: the player objects (the store of [Player]);
    - [w_plist]: the module's [players] array;
    - [w_rooms]: the room objects (a room object outlives its removal from
      the array as long as a socket still points at it);
    - [w_rlist]: the module's [rooms] array;
    - [w_socks]: the live sockets with their [this.player] / [this.room];
    - [w_next_room]: the id the next [new Room()] receives.
    This file models the handlers that create, bind and tear down players
    and rooms: [onClientConnect], [onRoomRequest], [onClientDisconnect],
    [onPlayerUnavailable], [onPlayerAvailable].  Each is a function from a
    world to an [outcome] of the new world and the messages it emits, in
    the order the code emits them. *)

From S2P Require Import Prelude JsArray Player MapState Room Wire Registry.

Record Sock := mkSock { s_player : option string; s_room : option nat }.

Record World := mkWorld {
  w_players : pstore;
  w_plist : list string;
  w_rooms : gmap nat Room;
  w_rlist : list nat;
  w_socks : gmap string Sock;
  w_next_room : nat
}.

Definition set_pstore (w : World) (ps : pstore) : World :=
  {| w_players := ps; w_plist := w_plist w; w_rooms := w_rooms w; w_rlist := w_rlist w;
     w_socks := w_socks w; w_next_room := w_next_room w |}.
Definition set_plist (w : World) (l : list string) : World :=
  {| w_players := w_players w; w_plist := l; w_rooms := w_rooms w; w_rlist := w_rlist w;
     w_socks := w_socks w; w_next_room := w_next_room w |}.
Definition set_rlist (w : World) (l : list nat) : World :=
  {| w_players := w_players w; w_plist := w_plist w; w_rooms := w_rooms w; w_rlist := l;
     w_socks := w_socks w; w_next_room := w_next_room w |}.
Definition set_socks (w : World) (ss : gmap string Sock) : World :=
  {| w_players := w_players w; w_plist := w_plist w; w_rooms := w_rooms w; w_rlist := w_rlist w;
     w_socks := ss; w_next_room := w_next_room w |}.
(** Writing a room object back into the store. *)
Definition put_room (w : World) (rid : nat) (r : Room) : World :=
  {| w_players := w_players w; w_plist := w_plist w; w_rooms := <[rid:=r]> (w_rooms w);
     w_rlist := w_rlist w; w_socks := w_socks w; w_next_room := w_next_room w |}.

Definition init_world : World :=
  {| w_players := ∅; w_plist := []; w_rooms := ∅; w_rlist := []; w_socks := ∅; w_next_room := 0 |}.

(** [this.room], resolved to the room object. *)
Definition room_of (w : World) (s : Sock) : option (nat * Room) :=
  rid ← s_room s; r ← w_rooms w !! rid; Some (rid, r).

(** The event [Room.selectNewHost] broadcasts is not visible in [src/];
    the model names it here. *)
Definition host_event : string := "new host".

Section Lifecycle.
Context `{RM : RoomMethods}.
Variable tmpl : MapState.   (* the map template every [new Room()] loads *)

(** [room.selectNewHost(io)]: the new host pointer and its broadcast. *)
Definition select_host (r : Room) (ps : pstore) : Room * list msg :=
  let '(r', h) := selectNewHost r ps in
  (r', match h with Some x => emitAll r' host_event (PHost x) | None => [] end).

(** [onClientConnect(client)] (lines 10-19). *)
Definition onClientConnect (cid : string) (w : World) : World * list msg :=
  let p := new_player cid in
  let w' := {| w_players := <[cid:=p]> (w_players w); w_plist := w_plist w ++ [cid];
               w_rooms := w_rooms w; w_rlist := w_rlist w;
               w_socks := <[cid:={| s_player := Some cid; s_room := None |}]> (w_socks w);
               w_next_room := w_next_room w |} in
  (w', emit_to cid "player connect" (PPlayer p)).

(** The name a joining player gets:
    [client_data.name || ("Guest" + Math.floor(Math.random() * 9999))],
    with [rnd] the value of [Math.floor(Math.random() * 9999)]. *)
Definition player_name (name : option string) (rnd : Z) : string :=
  match name with
  | Some n => if String.eqb n "" then "Guest" +:+ pretty rnd else n
  | None => "Guest" +:+ pretty rnd
  end.

(** [t_room = new Room(); rooms.push(t_room);] (lines 89-93). *)
Definition open_room (w : World) : World :=
  let rid := w_next_room w in
  {| w_players := w_players w; w_plist := w_plist w;
     w_rooms := <[rid:=new_Room tmpl rid]> (w_rooms w); w_rlist := w_rlist w ++ [rid];
     w_socks := w_socks w; w_next_room := S rid |}.

(** The matchmaking of [onRoomRequest] (lines 75-93): the first room that is
    not full, or a new room appended to the array. *)
Definition find_or_create (w : World) : outcome (nat * Room * World) :=
  t ← scan_rooms (w_rooms w) (w_rlist w);
  match t with
  | Some rid =>
      match w_rooms w !! rid with
      | Some r => Ok (rid, r, w)
      | None => Crash "TypeError: room is undefined"
      end
  | None => Ok (w_next_room w, new_Room tmpl (w_next_room w), open_room w)
  end.

(** The join of [onRoomRequest] (lines 95-111): name the player, insert
    it, select a host if the room has none, answer the requester, tell the
    others, bind the socket. *)
Definition join_room (rnd : Z) (cid : string) (s : Sock) (pid : string) (cd : RoomReq)
    (rid : nat) (r : Room) (w1 : World) : outcome (World * list msg) :=
  let ps1 := alter (set_name (player_name (rq_name cd) rnd)) pid (w_players w1) in
  let '(r1, ps2) := insertPlayer r ps1 pid in
  let '(r2, hmsgs) := if hasHost r1 ps2 then (r1, []) else select_host r1 ps2 in
  p ← deref (ps2 !! pid) "player";
  let w2 := put_room (set_pstore w1 ps2) rid r2 in
  let w3 := set_socks w2 (<[cid:={| s_player := s_player s; s_room := Some rid |}]> (w_socks w2)) in
  Ok (w3, hmsgs ++ emit_to cid "room found" (PRoom r2)
              ++ emitBroadcast r2 "player join room" (PPlayer p) cid).

(** [onRoomRequest(client_data)] (lines 72-114). *)
Definition onRoomRequest (rnd : Z) (cid : string) (s : Sock) (d : option RoomReq) (w : World)
    : outcome (World * list msg) :=
  pid ← deref (s_player s) "id";
  '(rid, r, w1) ← find_or_create w;
  cd ← deref d "name";
  join_room rnd cid s pid cd rid r w1.

(** The bomb scrub of [onClientDisconnect] (lines 44-52): the cells of the
    first "bombs" layer equal to [this.player.serial + 1] become 0. *)
Definition scrub_bombs (serial : option nat) (r : Room) : Room :=
  let target := (fun s => Z.of_nat s + 1)%Z <$> serial in
  with_map r (with_layers (r_map r) (update_first "bombs" (scrub target) (m_layers (r_map r)))).

(** The host reset of [onClientDisconnect] (lines 36-41): a leaving host
    is marked inactive, the room's [rc_timestamp] is stamped and a new host
    is selected. *)
Definition host_leave (now : Z) (pid : string) (r : Room) (ps : pstore) : pstore * Room * list msg :=
  if isHost r pid then
    let ps1 := alter (set_active false) pid ps in
    let '(r1, hmsgs) := select_host (with_rc_timestamp r now) ps1 in
    (ps1, r1, hmsgs)
  else (ps, r, []).

(** [onClientDisconnect()] (lines 21-69). *)
Definition onClientDisconnect (now : Z) (cid : string) (s : Sock) (w : World)
    : outcome (World * list msg) :=
  let w1 := set_plist w (remove_player cid (w_plist w)) in
  match room_of w s with
  | None => Ok (w1, [])
  | Some (rid, r) =>
      let ri := index_of rid (w_rlist w1) in
      pid ← deref (s_player s) "is_active";
      let '(ps1, r1, hmsgs) := host_leave now pid r (w_players w1) in
      p ← deref (ps1 !! pid) "serial";
      let r2 := scrub_bombs (p_serial p) r1 in
      let emsgs := emitBroadcast r2 "player exit room" (PPlayer p) cid in
      let r3 := excludePlayer r2 ps1 pid in
      let w2 := put_room (set_pstore w1 ps1) rid r3 in
      let w3 := if isEmpty r3 then set_rlist w2 (swap_remove ri (w_rlist w2)) else w2 in
      Ok (w3, hmsgs ++ emsgs)
  end.

(** [onPlayerUnavailable()] (lines 117-127). *)
Definition onPlayerUnavailable (now : Z) (s : Sock) (w : World) : World * list msg :=
  match s_player s with
  | None => (w, [])
  | Some pid =>
      let w1 := set_pstore w (alter (set_active false) pid (w_players w)) in
      match room_of w1 s with
      | Some (rid, r) =>
          if isHost r pid then
            let '(r1, hmsgs) := select_host (with_rc_timestamp r now) (w_players w1) in
            (put_room w1 rid r1, hmsgs)
          else (w1, [])
      | None => (w1, [])
      end
  end.

(** [onPlayerAvailable()] (lines 130-139). *)
Definition onPlayerAvailable (s : Sock) (w : World) : World * list msg :=
  match s_player s with
  | None => (w, [])
  | Some pid =>
      let w1 := set_pstore w (alter (set_active true) pid (w_players w)) in
      match room_of w1 s with
      | Some (rid, r) =>
          if hasHost r (w_players w1) then (w1, [])
          else let '(r1, hmsgs) := select_host r (w_players w1) in (put_room w1 rid r1, hmsgs)
      | None => (w1, [])
      end
  end.

End Lifecycle.

(** ** Properties of the lifecycle handlers *)

Lemma room_of_Some w s rid r :
  room_of w s = Some (rid, r) <-> s_room s = Some rid /\ w_rooms w !! rid = Some r.
Proof.
  unfold room_of. split.
  - destruct (s_room s) as [q|]; simpl; [|done].
    destruct (w_rooms w !! q) eqn:E; simpl; [|done]. by intros [= -> ->].
  - intros [-> Hr]. simpl. by rewrite Hr.
Qed.

Section LifecycleFacts.
Context {RM : RoomMethods} {RC : RoomContract}.

Lemma select_host_spec r ps :
  (select_host r ps).1 = with_host r (selectNewHost r ps).2 /\
  host_choice_ok r ps (selectNewHost r ps).2.
Proof.
  unfold select_host. destruct (selectNewHost_spec r ps) as [H1 H2].
  destruct (selectNewHost r ps) as [r' h]. simpl in *. done.
Qed.

Lemma select_host_players r ps : r_players (select_host r ps).1 = r_players r.
Proof. by rewrite (proj1 (select_host_spec r ps)). Qed.

Lemma select_host_map r ps : r_map (select_host r ps).1 = r_map r.
Proof. by rewrite (proj1 (select_host_spec r ps)). Qed.

(** What the host reset does: nothing unless the leaver is host; then the
    leaver is inactive, the timestamp is stamped and the new host is a
    valid choice for the marked store. *)
Lemma host_leave_spec now pid r ps ps1 r1 hm :
  host_leave now pid r ps = (ps1, r1, hm) ->
  r_players r1 = r_players r /\ r_map r1 = r_map r /\
  (isHost r pid = false -> ps1 = ps /\ r1 = r /\ hm = []) /\
  (isHost r pid = true -> ps1 = alter (set_active false) pid ps /\ rc_timestamp r1 = now /\
     host_choice_ok r ps1 (r_host r1) /\ receivers "player exit room" hm = []).
Proof.
  unfold host_leave. destruct (isHost r pid) eqn:Hh.
  - destruct (select_host _ _) as [r' hm'] eqn:E. intros [= <- <- <-].
    pose proof (select_host_spec (with_rc_timestamp r now) (alter (set_active false) pid ps)) as [Hr Hc].
    rewrite E in Hr. simpl in Hr. subst r'. simpl.
    split_and!; try done. intros _. split_and!; try done.
    unfold select_host in E. destruct (selectNewHost _ _) as [r'' [x|]]; injection E as _ <-; [|done].
    rewrite receivers_emitAll. by rewrite decide_False.
  - intros [= <- <- <-]. done.
Qed.

Lemma host_leave_serial now pid r ps ps1 r1 hm p :
  host_leave now pid r ps = (ps1, r1, hm) -> ps !! pid = Some p ->
  exists p', ps1 !! pid = Some p' /\ p_serial p' = p_serial p.
Proof.
  intros H Hp. apply host_leave_spec in H as (_ & _ & Hno & Hyes).
  destruct (isHost r pid).
  - destruct (Hyes eq_refl) as (-> & _). rewrite lookup_alter_eq, Hp. eauto.
  - destruct (Hno eq_refl) as (-> & _). eauto.
Qed.

(** [excludePlayer] empties the leaver's slot and keeps everything else. *)
Lemma excludePlayer_slot r ps pid p sr :
  ps !! pid = Some p -> p_serial p = Some sr -> r_players r !! sr = Some (Some pid) ->
  excludePlayer r ps pid = with_players r (<[sr:=None]> (r_players r)).
Proof.
  intros Hp Hs Hslot. rewrite excludePlayer_spec, Hp. simpl. rewrite Hs.
  by rewrite bool_decide_eq_true_2.
Qed.

Lemma excludePlayer_map r ps pid : r_map (excludePlayer r ps pid) = r_map r.
Proof.
  rewrite excludePlayer_spec. destruct (ps !! pid ≫= p_serial); [|done].
  by case_bool_decide.
Qed.

Lemma excludePlayer_keeps r ps pid x :
  x <> pid -> x ∈ members (r_players r) -> x ∈ members (r_players (excludePlayer r ps pid)).
Proof.
  intros Hne Hx. rewrite excludePlayer_spec. destruct (ps !! pid ≫= p_serial) as [sr|]; [|done].
  case_bool_decide as Hslot; [|done]. simpl.
  apply elem_of_members in Hx as [j Hj]. apply elem_of_members. exists j.
  rewrite list_lookup_insert_ne; [done|]. intros ->. congruence.
Qed.

(** The disconnect of a player bound to a room, computed. *)
Lemma onClientDisconnect_in_room now cid s w pid rid r ps1 r1 hm p :
  s_player s = Some pid -> room_of w s = Some (rid, r) ->
  host_leave now pid r (w_players w) = (ps1, r1, hm) -> ps1 !! pid = Some p ->
  let r2 := scrub_bombs (p_serial p) r1 in
  let r3 := excludePlayer r2 ps1 pid in
  let w2 := put_room (set_pstore (set_plist w (remove_player cid (w_plist w))) ps1) rid r3 in
  onClientDisconnect now cid s w =
    Ok (if isEmpty r3 then set_rlist w2 (swap_remove (index_of rid (w_rlist w)) (w_rlist w)) else w2,
        hm ++ emitBroadcast r2 "player exit room" (PPlayer p) cid).
Proof.
  intros Hs Hr Hh Hp. unfold onClientDisconnect. rewrite Hr, Hs. simpl.
  rewrite Hh. simpl. rewrite Hp. done.
Qed.

Lemma scrub_bombs_players t r : r_players (scrub_bombs t r) = r_players r.
Proof. reflexivity. Qed.

(** A disconnect that empties its room: the state after it, computed. *)
Lemma disconnect_last_member_world now cid s w pid rid r p sr :
  s_player s = Some pid -> room_of w s = Some (rid, r) -> w_players w !! pid = Some p ->
  p_serial p = Some sr -> r_players r !! sr = Some (Some pid) -> members (r_players r) = [pid] ->
  exists w2 ms, onClientDisconnect now cid s w =
    Ok (set_rlist w2 (swap_remove (index_of rid (w_rlist w)) (w_rlist w)), ms) /\
    w_rooms w2 = <[rid:=default r (w_rooms w2 !! rid)]> (w_rooms w).
Proof.
  intros Hs Hr Hp Hsr Hslot Hmem.
  destruct (host_leave now pid r (w_players w)) as [[ps1 r1] hm] eqn:Hh.
  destruct (host_leave_serial _ _ _ _ _ _ _ _ Hh Hp) as (p' & Hp' & Hser').
  pose proof (host_leave_spec _ _ _ _ _ _ _ Hh) as (Hpl & _).
  rewrite (onClientDisconnect_in_room now cid s w pid rid r ps1 r1 hm p') by done.
  rewrite Hser', Hsr. simpl.
  rewrite (excludePlayer_slot _ _ _ p' sr) by (rewrite ?Hser'; simpl; congruence).
  rewrite isEmpty_spec. simpl.
  pose proof (length_members_insert (r_players r1) sr (Some pid) None) as Hlen.
  rewrite Hpl, Hmem in Hlen. specialize (Hlen Hslot). simpl in Hlen.
  replace (length (members _) =? 0)%nat with true by (symmetry; apply Nat.eqb_eq; rewrite Hpl; lia).
  do 2 eexists. split; [done|]. simpl. by rewrite lookup_insert_eq.
Qed.

(** C2: when the last member of a room disconnects, the room leaves the
    rooms array (swap-remove at its index gives a permutation of the other
    rooms) and no other room object changes. *)
Theorem disconnect_removes_empty_room now cid s w pid rid r p sr i :
  s_player s = Some pid -> room_of w s = Some (rid, r) -> w_players w !! pid = Some p ->
  p_serial p = Some sr -> r_players r !! sr = Some (Some pid) -> members (r_players r) = [pid] ->
  NoDup (w_rlist w) -> w_rlist w !! i = Some rid ->
  exists w' ms, onClientDisconnect now cid s w = Ok (w', ms) /\
    (w_rlist w' ≡ₚ delete i (w_rlist w)) /\ (rid ∉ w_rlist w') /\
    forall rid', rid' <> rid -> w_rooms w' !! rid' = w_rooms w !! rid'.
Proof.
  intros Hs Hr Hp Hsr Hslot Hmem Hnd Hi.
  destruct (disconnect_last_member_world now cid s w pid rid r p sr) as (w2 & ms & Hrun & Hrooms);
    [done..|].
  exists (set_rlist w2 (swap_remove (index_of rid (w_rlist w)) (w_rlist w))), ms.
  split; [done|]. simpl.
  unfold index_of. rewrite (find_index_bool_decide_NoDup _ i rid) by done.
  assert (Hperm : swap_remove (Z.of_nat i) (w_rlist w) ≡ₚ delete i (w_rlist w))
    by (by eapply swap_remove_perm).
  split_and!; [done| |].
  - rewrite Hperm. intros Hin.
    pose proof (delete_Permutation (w_rlist w) i rid Hi) as Hl.
    rewrite Hl in Hnd. apply NoDup_cons in Hnd as [Hnot _]. done.
  - intros rid' Hne. rewrite Hrooms. by rewrite lookup_insert_ne.
Qed.

(** C3: a disconnect scrubs exactly the leaver's bombs from the room's
    first "bombs" layer: every cell of the array ([0 <= k < length]) that
    held the leaver's [serial + 1] now holds 0, every other key (a cell
    holding anything else, another player's bomb included, or a key
    outside the array) keeps its value, and the array keeps its length. *)
Theorem disconnect_scrubs_bombs now cid s w pid rid r p sr bi bl :
  s_player s = Some pid -> room_of w s = Some (rid, r) -> w_players w !! pid = Some p ->
  p_serial p = Some sr ->
  first_index "bombs" (m_layers (r_map r)) = Some bi ->
  m_layers (r_map r) !! bi = Some bl -> (0 <= js_length (l_data bl))%Z ->
  exists w' ms r' bl',
    onClientDisconnect now cid s w = Ok (w', ms) /\
    w_rooms w' !! rid = Some r' /\ m_layers (r_map r') !! bi = Some bl' /\
    js_length (l_data bl') = js_length (l_data bl) /\
    (forall k, (0 <= k < js_length (l_data bl))%Z -> js_get (l_data bl) k = Some (Z.of_nat sr + 1)%Z ->
       js_get (l_data bl') k = Some 0%Z) /\
    (forall k, js_get (l_data bl) k <> Some (Z.of_nat sr + 1)%Z \/ ~ (0 <= k < js_length (l_data bl))%Z ->
       js_get (l_data bl') k = js_get (l_data bl) k).
Proof.
  intros Hs Hr Hp Hsr Hbi Hbl Hlen.
  destruct (host_leave now pid r (w_players w)) as [[ps1 r1] hm] eqn:Hh.
  destruct (host_leave_serial _ _ _ _ _ _ _ _ Hh Hp) as (p' & Hp' & Hser').
  pose proof (host_leave_spec _ _ _ _ _ _ _ Hh) as (_ & Hmap & _).
  rewrite (onClientDisconnect_in_room now cid s w pid rid r ps1 r1 hm p') by done.
  rewrite Hser', Hsr. simpl.
  set (r3 := excludePlayer _ _ _).
  destruct (scrub_spec (Z.of_nat sr + 1) (l_data bl) 0 Hlen) as [Hl' _].
  eexists _, _, r3, (update_data (scrub (Some (Z.of_nat sr + 1)%Z)) bl). split; [done|].
  split; [by destruct (isEmpty r3); simpl; rewrite lookup_insert_eq|].
  subst r3. rewrite excludePlayer_map. simpl. rewrite Hmap, update_first_at, Hbi.
  split; [unfold update_at; rewrite list_lookup_alter, Hbl; simpl; by rewrite decide_True|].
  split; [done|]. split.
  - intros k Hk Hget. destruct (scrub_spec (Z.of_nat sr + 1) (l_data bl) k Hlen) as [_ ->].
    rewrite Hget. simpl. rewrite Z.eqb_refl. bw_cases; simpl; try done; lia.
  - intros k Hk. destruct (scrub_spec (Z.of_nat sr + 1) (l_data bl) k Hlen) as [_ ->].
    destruct Hk as [Hk|Hk].
    + destruct (js_eq_num (js_get (l_data bl) k) _) eqn:E; [|by rewrite andb_false_r].
      by apply js_eq_num_spec in E.
    + bw_cases; simpl; try done; lia.
Qed.

(** C13: when the host disconnects while another member [q] is active, the
    room gets a new host that is an active remaining member other than the
    leaver, [rc_timestamp] is stamped with [now], and the exit is broadcast
    to every member except the leaver. *)
Theorem disconnect_host_migrates now cid s w pid rid r p q :
  s_player s = Some pid -> room_of w s = Some (rid, r) -> w_players w !! pid = Some p ->
  r_host r = Some pid -> q ∈ members (r_players r) -> q <> pid ->
  active_in (w_players w) q = true ->
  exists w' ms r' h,
    onClientDisconnect now cid s w = Ok (w', ms) /\ w_rooms w' !! rid = Some r' /\
    rc_timestamp r' = now /\ r_host r' = Some h /\ h <> pid /\
    h ∈ members (r_players r') /\ active_in (w_players w') h = true /\
    receivers "player exit room" ms = filter (fun c => c <> cid) (members (r_players r)).
Proof.
  intros Hs Hr Hp Hhost Hq Hqp Hqa.
  assert (Hih : isHost r pid = true) by (rewrite isHost_spec; by apply bool_decide_eq_true_2).
  destruct (host_leave now pid r (w_players w)) as [[ps1 r1] hm] eqn:Hh.
  destruct (host_leave_serial _ _ _ _ _ _ _ _ Hh Hp) as (p' & Hp' & Hser').
  pose proof (host_leave_spec _ _ _ _ _ _ _ Hh) as (Hpl & _ & _ & Hyes).
  destruct (Hyes Hih) as (-> & Hts & Hchoice & Hrecv).
  rewrite (onClientDisconnect_in_room now cid s w pid rid r _ r1 hm p') by done.
  set (r2 := scrub_bombs _ r1). set (r3 := excludePlayer r2 _ pid).
  destruct (r_host r1) as [h|] eqn:Hh1; simpl in Hchoice.
  - destruct Hchoice as [Hmem Hact].
    assert (Hhp : h <> pid).
    { intros ->. unfold active_in in Hact. rewrite lookup_alter_eq, Hp in Hact. done. }
    eexists _, _, r3, h. split; [done|].
    split; [by destruct (isEmpty r3); simpl; rewrite lookup_insert_eq|].
    assert (Hr3 : r_host r3 = r_host r2 /\ rc_timestamp r3 = rc_timestamp r2).
    { subst r3. rewrite excludePlayer_spec. destruct (_ ≫= p_serial); [|done]. by case_bool_decide. }
    split_and!; try done.
    + rewrite (proj2 Hr3). done.
    + rewrite (proj1 Hr3). done.
    + apply excludePlayer_keeps; [done|]. unfold r2. rewrite scrub_bombs_players, Hpl. done.
    + destruct (isEmpty r3); done.
    + rewrite receivers_app, Hrecv, receivers_emitBroadcast, decide_True by done.
      simpl. by rewrite Hpl.
  - exfalso. apply Hchoice in Hq. rewrite active_in_alter_ne in Hq by done. congruence.
Qed.

(** C14: when a member reports focus regained, its room has a host
    afterwards: either the one it had, or one selected now (the reporting
    player itself is an active candidate). *)
Theorem available_recovers_host s w pid rid r :
  s_player s = Some pid -> room_of w s = Some (rid, r) ->
  pid ∈ members (r_players r) -> is_Some (w_players w !! pid) ->
  exists r', w_rooms (onPlayerAvailable s w).1 !! rid = Some r' /\
    hasHost r' (w_players (onPlayerAvailable s w).1) = true.
Proof.
  intros Hs Hr Hmem [p Hp]. apply room_of_Some in Hr as [Hsr Hr].
  unfold onPlayerAvailable. rewrite Hs.
  set (ps1 := alter (set_active true) pid (w_players w)).
  assert (Hr1 : room_of (set_pstore w ps1) s = Some (rid, r)) by (by apply room_of_Some).
  rewrite Hr1. change (w_players (set_pstore w ps1)) with ps1. destruct (hasHost r ps1) eqn:Hhas; [by exists r|].
  pose proof (select_host_spec r ps1) as [Heq Hchoice].
  destruct (select_host r ps1) as [r1 hm]. simpl in *.
  exists r1. split; [by rewrite lookup_insert_eq|]. subst r1.
  rewrite hasHost_spec. simpl.
  destruct (selectNewHost r ps1).2 as [x|]; simpl in Hchoice; [by destruct Hchoice|].
  apply Hchoice in Hmem. unfold active_in, ps1 in Hmem. rewrite lookup_alter_eq, Hp in Hmem. done.
Qed.

(** A player marked unavailable is not active. *)
Lemma active_in_set_inactive ps pid : active_in (alter (set_active false) pid ps) pid = false.
Proof. unfold active_in. rewrite lookup_alter_eq. by destruct (ps !! pid). Qed.

(** C19: when the host goes unavailable (tab hidden), the player is
    marked inactive, the room's [rc_timestamp] is stamped and the new host
    is a valid choice for the updated store: an active member, or none
    when no member is active; never the player who went away. *)
Theorem unavailable_host_migrates now s w pid rid r :
  s_player s = Some pid -> room_of w s = Some (rid, r) -> r_host r = Some pid ->
  exists r', w_rooms (onPlayerUnavailable now s w).1 !! rid = Some r' /\
    w_players (onPlayerUnavailable now s w).1 = alter (set_active false) pid (w_players w) /\
    r_players r' = r_players r /\ rc_timestamp r' = now /\
    host_choice_ok r (w_players (onPlayerUnavailable now s w).1) (r_host r') /\
    r_host r' <> Some pid.
Proof.
  intros Hs Hr Hh. apply room_of_Some in Hr as [Hsr Hr].
  unfold onPlayerUnavailable. rewrite Hs.
  set (ps1 := alter (set_active false) pid (w_players w)).
  assert (Hr1 : room_of (set_pstore w ps1) s = Some (rid, r)) by (by apply room_of_Some).
  rewrite Hr1. change (w_players (set_pstore w ps1)) with ps1.
  rewrite isHost_spec, bool_decide_eq_true_2 by done.
  pose proof (select_host_spec (with_rc_timestamp r now) ps1) as [Heq Hchoice].
  destruct (select_host _ ps1) as [r1 hm]. simpl in *. subst r1.
  eexists. split_and!; [by rewrite lookup_insert_eq|done|done|done|exact Hchoice|].
  simpl. intros Hp. rewrite Hp in Hchoice. destruct Hchoice as [_ Ha].
  unfold ps1 in Ha. by rewrite active_in_set_inactive in Ha.
Qed.

(** The test of the matchmaking scan on a room id. *)
Definition not_full_in (w : World) (rid : nat) : bool :=
  match w_rooms w !! rid with Some r => negb (isFull r) | None => false end.

Lemma members_replicate_None n : members (replicate n None) = [].
Proof. induction n; simpl; done. Qed.

Lemma new_Room_not_full tmpl rid :
  (0 < length (m_spawn_order tmpl))%nat -> isFull (new_Room tmpl rid) = false.
Proof.
  intros Hn. rewrite isFull_spec, new_Room_spec. simpl.
  rewrite members_replicate_None, length_replicate. apply Nat.eqb_neq. simpl. lia.
Qed.

Lemma find_or_create_spec tmpl w :
  Forall (fun rid => is_Some (w_rooms w !! rid)) (w_rlist w) ->
  (exists rid r, List.find (not_full_in w) (w_rlist w) = Some rid /\ w_rooms w !! rid = Some r /\
     isFull r = false /\ find_or_create tmpl w = Ok (rid, r, w)) \/
  (List.find (not_full_in w) (w_rlist w) = None /\
   find_or_create tmpl w = Ok (w_next_room w, new_Room tmpl (w_next_room w), open_room tmpl w)).
Proof.
  intros Hall. unfold find_or_create. rewrite scan_rooms_first_fit by done. simpl.
  change (fun rid => match w_rooms w !! rid with Some r => negb (isFull r) | None => false end)
    with (not_full_in w).
  destruct (List.find (not_full_in w) (w_rlist w)) as [rid|] eqn:E; [left|right; done].
  apply find_some in E as [Hin Hnf]. unfold not_full_in in Hnf.
  destruct (w_rooms w !! rid) as [r|] eqn:Hr; [|done].
  exists rid, r. rewrite <- (negb_involutive (isFull r)), Hnf.
  by split_and!.
Qed.

(** Joining a room that is not full puts the player in a free slot of it
    and binds the socket to it. *)
Lemma join_room_spec rnd cid s pid cd rid r w1 :
  isFull r = false -> is_Some (w_players w1 !! pid) ->
  exists w' ms r',
    join_room rnd cid s pid cd rid r w1 = Ok (w', ms) /\
    w_socks w' !! cid = Some {| s_player := s_player s; s_room := Some rid |} /\
    w_rooms w' !! rid = Some r' /\ pid ∈ members (r_players r') /\
    w_rlist w' = w_rlist w1 /\
    (forall x, x <> rid -> w_rooms w' !! x = w_rooms w1 !! x).
Proof.
  intros Hnf [p Hp]. unfold join_room.
  rewrite insertPlayer_spec.
  destruct (first_free r) as [sr|] eqn:Hff.
  2:{ apply first_free_not_full in Hff. rewrite isFull_spec, Hff, Nat.eqb_refl in Hnf. done. }
  apply first_free_Some in Hff.
  set (r1 := with_players r _). set (ps2 := alter (set_serial sr) pid _).
  assert (Hmem : pid ∈ members (r_players r1)).
  { apply elem_of_members. exists sr. simpl. apply list_lookup_insert_eq. by eapply lookup_lt_Some. }
  assert (Hp2 : is_Some (ps2 !! pid)) by (unfold ps2; by rewrite lookup_alter_eq, lookup_alter_eq, Hp).
  destruct Hp2 as [p2 Hp2].
  assert (Hsel : exists r2 hm, (if hasHost r1 ps2 then (r1, []) else select_host r1 ps2) = (r2, hm) /\
                               r_players r2 = r_players r1).
  { destruct (hasHost r1 ps2); [by exists r1, []|].
    exists (select_host r1 ps2).1, (select_host r1 ps2).2.
    split; [by destruct (select_host r1 ps2)|]. apply select_host_players. }
  destruct Hsel as (r2 & hm & Hsel & Hpl). rewrite Hsel. simpl. rewrite Hp2. simpl.
  eexists _, _, r2. split; [done|]. simpl.
  split; [by rewrite lookup_insert_eq|]. split; [by rewrite lookup_insert_eq|].
  split; [by rewrite Hpl|]. split; [done|]. intros x Hx. by rewrite lookup_insert_ne.
Qed.

(** C1: a room request from a connected player always succeeds and is
    first-fit: the player joins the first room of the array that is not
    full, and a new room (appended to the array) is opened only when every
    room is full; the socket is bound to the joined room and the player is
    one of its members. *)
Theorem onRoomRequest_first_fit tmpl rnd cid s d w pid :
  s_player s = Some pid -> is_Some (w_players w !! pid) ->
  Forall (fun rid => is_Some (w_rooms w !! rid)) (w_rlist w) ->
  (0 < length (m_spawn_order tmpl))%nat ->
  exists w' ms rid r',
    onRoomRequest tmpl rnd cid s (Some d) w = Ok (w', ms) /\
    w_socks w' !! cid = Some {| s_player := Some pid; s_room := Some rid |} /\
    w_rooms w' !! rid = Some r' /\ pid ∈ members (r_players r') /\
    ((List.find (not_full_in w) (w_rlist w) = Some rid /\ w_rlist w' = w_rlist w) \/
     (List.find (not_full_in w) (w_rlist w) = None /\ rid = w_next_room w /\
      w_rlist w' = w_rlist w ++ [rid])).
Proof.
  intros Hs Hp Hall Hcap. unfold onRoomRequest. rewrite Hs. simpl.
  destruct (find_or_create_spec tmpl w Hall) as [(rid & r & Hf & Hr & Hnf & ->) | (Hf & ->)]; simpl.
  - destruct (join_room_spec rnd cid s pid d rid r w Hnf Hp) as (w' & ms & r' & -> & Hsk & Hr' & Hm & Hl & _).
    rewrite Hs in Hsk. exists w', ms, rid, r'. naive_solver.
  - destruct (join_room_spec rnd cid s pid d (w_next_room w) (new_Room tmpl (w_next_room w))
                (open_room tmpl w) (new_Room_not_full tmpl _ Hcap) Hp) as (w' & ms & r' & -> & Hsk & Hr' & Hm & Hl & _).
    rewrite Hs in Hsk. exists w', ms, (w_next_room w), r'. naive_solver.
Qed.

(** A room request whose payload is absent throws (reading
    [client_data.name]); the throw happens after a new room may already
    have been created. *)
Lemma onRoomRequest_missing_payload_crashes tmpl rnd cid s w pid :
  s_player s = Some pid ->
  Forall (fun rid => is_Some (w_rooms w !! rid)) (w_rlist w) ->
  exists e, onRoomRequest tmpl rnd cid s None w = Crash e.
Proof.
  intros Hs Hall. unfold onRoomRequest. rewrite Hs. simpl.
  destruct (find_or_create_spec tmpl w Hall) as [(rid & r & _ & _ & _ & ->) | (_ & ->)]; simpl; eauto.
Qed.

(** C15: a second room request from a player whose room is full, while
    every room is full, opens a new room and inserts the player there too:
    the handler never looks at [this.room], so the player ends up in the
    rosters of two rooms, against the spec's "at most one room". *)
Theorem second_request_double_membership tmpl rnd cid s d w pid rid0 r0 :
  s_player s = Some pid -> is_Some (w_players w !! pid) ->
  Forall (fun rid => is_Some (w_rooms w !! rid)) (w_rlist w) ->
  w_rooms w !! w_next_room w = None ->
  (0 < length (m_spawn_order tmpl))%nat ->
  w_rooms w !! rid0 = Some r0 -> pid ∈ members (r_players r0) ->
  List.find (not_full_in w) (w_rlist w) = None ->
  exists w' ms rid r',
    onRoomRequest tmpl rnd cid s (Some d) w = Ok (w', ms) /\ rid <> rid0 /\
    w_rooms w' !! rid0 = Some r0 /\ w_rooms w' !! rid = Some r' /\
    pid ∈ members (r_players r0) /\ pid ∈ members (r_players r').
Proof.
  intros Hs Hp Hall Hfresh Hcap Hr0 Hm0 Hnone.
  unfold onRoomRequest. rewrite Hs. simpl.
  destruct (find_or_create_spec tmpl w Hall) as [(rid & r & Hf & _) | (_ & ->)];
    [by rewrite Hnone in Hf|]. simpl.
  destruct (join_room_spec rnd cid s pid d (w_next_room w) (new_Room tmpl (w_next_room w))
              (open_room tmpl w) (new_Room_not_full tmpl _ Hcap) Hp)
    as (w' & ms & r' & -> & _ & Hr' & Hm & _ & Hother).
  assert (Hne : w_next_room w <> rid0) by congruence.
  exists w', ms, (w_next_room w), r'. split_and!; try done.
  rewrite Hother by congruence. simpl. by rewrite lookup_insert_ne.
Qed.

(** The messages of a host selection are all host announcements. *)
Lemma select_host_events r ps : Forall (fun m => m_event m = host_event) (select_host r ps).2.
Proof.
  unfold select_host. destruct (selectNewHost r ps) as [r' [x|]]; simpl; [|constructor].
  apply Forall_fmap, Forall_forall. done.
Qed.

(** C23: a successful room request answers the requester with the room
    object as stored ("room found") before the other members hear of the
    join ("player join room"), which reaches every other member of that
    room and never the requester; only host announcements come first, and
    the socket is bound to the room sent. *)
Theorem onRoomRequest_announce_order tmpl rnd cid s cd w w' ms :
  onRoomRequest tmpl rnd cid s (Some cd) w = Ok (w', ms) ->
  exists rid r2 p hm,
    ms = hm ++ emit_to cid "room found" (PRoom r2) ++ emitBroadcast r2 "player join room" (PPlayer p) cid /\
    Forall (fun m => m_event m = host_event) hm /\
    w_rooms w' !! rid = Some r2 /\ s_room <$> w_socks w' !! cid = Some (Some rid) /\
    receivers "player join room" ms = filter (fun c => c <> cid) (members (r_players r2)).
Proof.
  unfold onRoomRequest. destruct (s_player s) as [pid|]; simpl; [|discriminate].
  destruct (find_or_create tmpl w) as [[[rid r] w1]|]; simpl; [|discriminate].
  unfold join_room. destruct (insertPlayer r _ pid) as [r1 ps2].
  destruct (if hasHost r1 ps2 then (r1, []) else select_host r1 ps2) as [r2 hm] eqn:Esel.
  assert (Hhm : Forall (fun m => m_event m = host_event) hm).
  { destruct (hasHost r1 ps2); [by injection Esel as _ <-|].
    pose proof (select_host_events r1 ps2) as H. by rewrite Esel in H. }
  destruct (ps2 !! pid) as [p|]; simpl; [|discriminate]. intros [= <- <-].
  exists rid, r2, p, hm. split_and!; [done|done| |by simpl; rewrite lookup_insert_eq|].
  - simpl. by rewrite lookup_insert_eq.
  - rewrite !receivers_app, (receivers_other _ host_event) by done.
    change (_ :: emitBroadcast r2 "player join room" (PPlayer p) cid)
      with (emit_to cid "room found" (PRoom r2) ++ emitBroadcast r2 "player join room" (PPlayer p) cid).
    rewrite receivers_app, receivers_emit_to, decide_False by done.
    rewrite receivers_emitBroadcast, decide_True by done. done.
Qed.

End LifecycleFacts.
