(* ===== verification/Gameplay.v ===== *)
(** * The gameplay handlers

    One definition per gameplay method of [SocketEventHandler.js]: chat,
    spawn, move, death, powerup collection, loss of invincibility, bomb
    planting and explosion, powerup blink and disappearance, map reset.
    Each takes the socket's bindings ([this.player], [this.room]) and the
    event's payload, starts with the code's guards (an absent binding is a
    silent return), and returns the new world and the messages emitted, or
    [Crash] where the code reads a field of an absent payload. *)

From S2P Require Import Prelude JsArray Player MapState Room Wire Registry Lifecycle.

(** [player_of w s]: [this.player], resolved to the player object. *)
Definition player_of (w : World) (s : Sock) : option (string * Player) :=
  pid ← s_player s; p ← w_players w !! pid; Some (pid, p).

Definition alter_player (f : Player -> Player) (pid : string) (w : World) : World :=
  set_pstore w (alter f pid (w_players w)).

(** Writing new layers into a room's map. *)
Definition room_layers (r : Room) (ls : list Layer) : Room :=
  with_map r (with_layers (r_map r) ls).

(** The loop of [onPlayerPlantBomb] (lines 263-270): in the first "bombs"
    layer, a truthy cell makes the handler [return] ([None]); otherwise the
    cell receives [v].  Without a "bombs" layer nothing is written. *)
Fixpoint plant_layers (k v : Z) (ls : list Layer) : option (list Layer) :=
  match ls with
  | [] => Some []
  | l :: ls' =>
      if String.eqb (l_name l) "bombs" then
        if js_truthy (js_get (l_data l) k) then None
        else Some (update_data (fun a => js_set a k v) l :: ls')
      else (l ::.) <$> plant_layers k v ls'
  end.

(** The loop of [onBombExplode] (lines 294-301) over the reported cells. *)
Definition explode_cells (m : MapState) (bi oi : nat) (cells : list (Z * Z)) (ls : list Layer) : list Layer :=
  foldl (fun ls '(col, row) =>
           let k := cell_index m col row in
           update_at oi (fun a => js_set a k 0) (update_at bi (fun a => js_set a k 0) ls))
        ls cells.

(** [next_spawn_index == 7 ? next_spawn_index = 0 : next_spawn_index++] *)
Definition next_spawn (i : nat) : nat := if Nat.eqb i 7 then 0%nat else S i.

Section Gameplay.
Context `{RM : RoomMethods}.
Variable tmpl : MapState.

(** [onChatMessage(text)] (lines 142-155). *)
Definition onChatMessage (cid : string) (s : Sock) (text : option string) (w : World)
    : World * list msg :=
  match player_of w s, room_of w s with
  | Some (pid, _), Some (_, r) =>
      (alter_player (set_last_message text) pid w, emitAll r "chat message" (PChat cid text))
  | _, _ => (w, [])
  end.

(** [onPlayerSpawn(data)] (lines 158-173): [data.x] carries the tile size;
    the spawn point is [spawn_order[next_spawn_index]]. *)
Definition onPlayerSpawn (now : Z) (s : Sock) (d : option SpawnIn) (w : World)
    : outcome (World * list msg) :=
  match player_of w s, room_of w s with
  | Some (pid, _), Some (rid, r) =>
      data ← deref d "x";
      let tile := spi_x data in
      sp ← deref (m_spawn_order (r_map r) !! next_spawn_index r) "col";
      let x := ((inject_Z (sp_col sp) + (1#2)) * tile)%Q in
      let y := ((inject_Z (sp_row sp) + (1#2)) * tile)%Q in
      let r1 := with_next_spawn r (next_spawn (next_spawn_index r)) in
      let w1 := put_room (alter_player (spawn_fields x y now (spi_nickname data)) pid w) rid r1 in
      Ok (w1, emitAll r1 "player spawn" (PSpawn x y (spi_nickname data) now))
  | _, _ => Ok (w, [])
  end.

(** [onPlayerMove(player_data)] (lines 176-185): a dead player's moves are
    dropped. *)
Definition onPlayerMove (cid : string) (s : Sock) (d : option MoveIn) (w : World)
    : outcome (World * list msg) :=
  match player_of w s, room_of w s with
  | Some (pid, p), Some (_, r) =>
      if p_is_dead p then Ok (w, [])
      else
        data ← deref d "1";
        Ok (alter_player (set_position (mv_x data) (mv_y data) (mv_key data)) pid w,
            emitBroadcast r "player move" (PMove data) cid)
  | _, _ => Ok (w, [])
  end.

(** [onPlayerDeath(death_data)] (lines 188-210). *)
Definition onPlayerDeath (s : Sock) (d : option DeathIn) (w : World)
    : outcome (World * list msg) :=
  match room_of w s with
  | None => Ok (w, [])
  | Some (_, r) =>
      data ← deref d "victim_serial";
      let vs := d_victim_serial data in
      let ks := d_killer_serial data in
      match roster_at r vs ≫= (fun v => (v,.) <$> w_players w !! v),
            roster_at r ks ≫= (fun k => (k,.) <$> w_players w !! k) with
      | Some (vid, victim), Some (kid, _) =>
          if p_is_invincible victim || p_is_dead victim then Ok (w, [])
          else
            let ps1 := if (vs =? ks)%Z then alter (add_frags (-1)) vid (w_players w)
                       else w_players w in
            let ps2 := if bool_decide (vid = kid) then ps1 else alter (add_frags 1) kid ps1 in
            let ps3 := alter set_dead vid ps2 in
            let frags i := default 0%Z (p_frags <$> ps3 !! i) in
            Ok (set_pstore w ps3,
                emitAll r "player death" (PDeath data vid (frags vid) kid (frags kid)))
      | _, _ => Ok (w, [])
      end
  end.

(** [onPlayerCollectPowerup(powerup_data)] (lines 213-236). *)
Definition onPlayerCollectPowerup (now : Z) (s : Sock) (d : option CollectIn) (w : World)
    : outcome (World * list msg) :=
  match player_of w s, room_of w s with
  | Some (pid, p), Some (rid, r) =>
      data ← deref d "row";
      let k := cell_index (r_map r) (c_col data) (c_row data) in
      let r1 := room_layers r (update_first "powerups" (fun a => js_set a k 0) (m_layers (r_map r))) in
      let w1 := put_room w rid r1 in
      let w2 := if String.eqb (c_type data) "protection"
                then alter_player (set_invincible true (Some now)) pid w1 else w1 in
      Ok (w2, emitAll r1 "player collect powerup" (PCollect data now (p_serial p)))
  | _, _ => Ok (w, [])
  end.

(** [onPlayerLostInvicibility(player_data)] (lines 239-249). *)
Definition onPlayerLostInvicibility (s : Sock) (d : option SerialIn) (w : World)
    : outcome (World * list msg) :=
  match room_of w s with
  | None => Ok (w, [])
  | Some (_, r) =>
      data ← deref d "serial";
      let w1 := match roster_at r (si_serial data) with
                | Some pid => alter_player (set_invincible false None) pid w
                | None => w
                end in
      Ok (w1, emitAll r "player lost invincibility" (PLostInv data))
  end.

(** [onPlayerPlantBomb(bomb_data)] (lines 252-274). *)
Definition onPlayerPlantBomb (now : Z) (s : Sock) (d : option BombIn) (w : World)
    : outcome (World * list msg) :=
  match room_of w s with
  | None => Ok (w, [])
  | Some (rid, r) =>
      data ← deref d "owner_serial";
      match roster_at r (b_owner_serial data) with
      | None => Ok (w, [])
      | Some _ =>
          let k := cell_index (r_map r) (b_col data) (b_row data) in
          match plant_layers k (b_owner_serial data + 1) (m_layers (r_map r)) with
          | None => Ok (w, [])
          | Some ls =>
              let r1 := room_layers r ls in
              Ok (put_room w rid r1, emitAll r1 "player plant bomb" (PBomb data now))
          end
      end
  end.

(** [onBombExplode(bomb_data)] (lines 276-308). *)
Definition onBombExplode (now : Z) (s : Sock) (d : option ExplodeIn) (w : World)
    : outcome (World * list msg) :=
  match room_of w s with
  | None => Ok (w, [])
  | Some (rid, r) =>
      data ← deref d "e_indexes";
      let ls := m_layers (r_map r) in
      let r1 := match last_index "objects" ls, last_index "bombs" ls with
                | Some oi, Some bi => room_layers r (explode_cells (r_map r) bi oi (e_indexes data) ls)
                | _, _ => r
                end in
      Ok (put_room w rid r1, emitAll r1 "bomb explode" (PExplode data now))
  end.

(** [onPowerupBlink(powerup_data)] (lines 311-316). *)
Definition onPowerupBlink (s : Sock) (d : option PowerupIn) (w : World) : World * list msg :=
  match room_of w s with
  | None => (w, [])
  | Some (_, r) => (w, emitAll r "powerup blink" (PPowerup d))
  end.

(** [onPowerupDisappear(powerup_data)] (lines 318-331): the payload is read
    only inside the loop, at a "powerups" layer. *)
Definition onPowerupDisappear (s : Sock) (d : option PowerupIn) (w : World)
    : outcome (World * list msg) :=
  match room_of w s with
  | None => Ok (w, [])
  | Some (rid, r) =>
      let ls := m_layers (r_map r) in
      r1 ← (if existsb (fun l => String.eqb (l_name l) "powerups") ls then
              data ← deref d "row";
              let k := cell_index (r_map r) (pw_col data) (pw_row data) in
              Ok (room_layers r (update_all "powerups" (fun a => js_set a k 0) ls))
            else Ok r);
      Ok (put_room w rid r1, emitAll r1 "powerup disappear" (PPowerup d))
  end.

(** [onMapReset()] (lines 333-338). *)
Definition onMapReset (s : Sock) (w : World) : World * list msg :=
  match room_of w s with
  | None => (w, [])
  | Some (rid, r) =>
      let r1 := resetMap tmpl r in
      (put_room w rid r1, emitAll r1 "map reset" (PRoom r1))
  end.

End Gameplay.

(** ** Properties of the gameplay handlers *)

Lemma player_of_Some w s pid p :
  player_of w s = Some (pid, p) -> s_player s = Some pid /\ w_players w !! pid = Some p.
Proof.
  unfold player_of. destruct (s_player s) as [q|]; simpl; [|done].
  destruct (w_players w !! q) eqn:E; simpl; [|done]. intros [= <- <-]. done.
Qed.

(** ** Lemmas on the layer loops of the handlers *)

(** The plant loop reads and writes the layer [first_index] names. *)
Lemma plant_layers_spec k v ls :
  plant_layers k v ls =
    match first_index "bombs" ls with
    | Some i => match ls !! i with
                | Some l => if js_truthy (js_get (l_data l) k) then None
                            else Some (update_at i (fun a => js_set a k v) ls)
                | None => Some ls
                end
    | None => Some ls
    end.
Proof.
  unfold update_at. induction ls as [|l ls IH]; simpl; [done|].
  destruct (String.eqb (l_name l) "bombs"); simpl; [by destruct (js_truthy _)|].
  rewrite IH. destruct (first_index "bombs" ls) as [i|]; simpl; [|done].
  destruct (ls !! i); simpl; [|done]. by destruct (js_truthy _).
Qed.

(** Cell [k] of layer [i] holds 0. *)
Definition cell_zero (i : nat) (k : Z) (ls : list Layer) : Prop :=
  exists l, ls !! i = Some l /\ js_get (l_data l) k = Some 0%Z.

Lemma cell_zero_update_at i j k k' ls :
  cell_zero i k ls -> cell_zero i k (update_at j (fun a => js_set a k' 0) ls).
Proof.
  intros (l & Hl & Hk). unfold update_at. destruct (decide (i = j)) as [<-|Hne].
  - exists (update_data (fun a => js_set a k' 0) l). rewrite list_lookup_alter, Hl.
    simpl. rewrite decide_True by done. split; [done|]. simpl. destruct (decide (k' = k)) as [->|Hne'];
      [apply js_get_set_eq | by rewrite js_get_set_ne].
  - exists l. by rewrite list_lookup_alter_ne.
Qed.

Lemma cell_zero_set i k ls :
  (i < length ls)%nat -> cell_zero i k (update_at i (fun a => js_set a k 0) ls).
Proof.
  intros Hi. apply lookup_lt_is_Some in Hi as [l Hl].
  exists (update_data (fun a => js_set a k 0) l). unfold update_at.
  rewrite list_lookup_alter, Hl. simpl. rewrite decide_True by done.
  split; [done|]. apply js_get_set_eq.
Qed.

Lemma length_update_at i f ls : length (update_at i f ls) = length ls.
Proof. apply length_alter. Qed.

(** After the explode loop, every reported cell is 0 in both layers. *)
Lemma explode_cells_zero m bi oi cells ls col row :
  (bi < length ls)%nat -> (oi < length ls)%nat -> (col, row) ∈ cells ->
  cell_zero bi (cell_index m col row) (explode_cells m bi oi cells ls) /\
  cell_zero oi (cell_index m col row) (explode_cells m bi oi cells ls).
Proof.
  unfold explode_cells. revert ls.
  assert (Hkeep : forall cs ls i k, cell_zero i k ls ->
    cell_zero i k (foldl (fun ls '(col, row) =>
           let k := cell_index m col row in
           update_at oi (fun a => js_set a k 0) (update_at bi (fun a => js_set a k 0) ls)) ls cs)).
  { induction cs as [|[c r] cs IH]; intros ls i k Hz; simpl; [done|].
    apply IH. by apply cell_zero_update_at, cell_zero_update_at. }
  induction cells as [|[c r] cells IH]; intros ls Hb Ho Hin; [by apply elem_of_nil in Hin|].
  simpl. apply elem_of_cons in Hin as [[= -> ->]|Hin].
  - split; apply Hkeep.
    + apply cell_zero_update_at, cell_zero_set. done.
    + apply cell_zero_set. by rewrite length_update_at.
  - apply IH; [by rewrite !length_update_at..|done].
Qed.

(** [next_spawn] counts modulo 8 from 0. *)
Lemma next_spawn_mod i : (i < 8)%nat -> next_spawn i = ((i + 1) mod 8)%nat.
Proof. intros Hi. unfold next_spawn. destruct (Nat.eqb_spec i 7) as [->|]; [done|].
  rewrite Nat.mod_small; lia. Qed.

Section GameplayFacts.
Context {RM : RoomMethods} {RC : RoomContract}.

(** C4: the frag accounting of a death report against a killable victim
    (neither invincible nor dead), both serials naming seated players.  A
    self-kill (equal serials) costs the player exactly one frag; a kill by
    another player gives the killer exactly one frag and leaves the
    victim's frags alone.  Either way the victim is marked dead and the
    death is broadcast to the whole room with the updated counts. *)
Theorem onPlayerDeath_frags w s rid r data vid kid victim killer :
  room_of w s = Some (rid, r) ->
  roster_at r (d_victim_serial data) = Some vid ->
  roster_at r (d_killer_serial data) = Some kid ->
  w_players w !! vid = Some victim -> w_players w !! kid = Some killer ->
  p_is_invincible victim = false -> p_is_dead victim = false ->
  (d_victim_serial data = d_killer_serial data ->
   exists w', onPlayerDeath s (Some data) w =
      Ok (w', emitAll r "player death"
                (PDeath data vid (p_frags victim - 1)%Z vid (p_frags victim - 1)%Z)) /\
    p_frags <$> w_players w' !! vid = Some (p_frags victim - 1)%Z /\
    p_is_dead <$> w_players w' !! vid = Some true) /\
  (d_victim_serial data <> d_killer_serial data -> vid <> kid ->
   exists w', onPlayerDeath s (Some data) w =
      Ok (w', emitAll r "player death"
                (PDeath data vid (p_frags victim) kid (p_frags killer + 1)%Z)) /\
    p_frags <$> w_players w' !! kid = Some (p_frags killer + 1)%Z /\
    p_is_dead <$> w_players w' !! vid = Some true /\
    p_frags <$> w_players w' !! vid = Some (p_frags victim)).
Proof.
  intros Hr Hv Hk Hpv Hpk Hinv Hdead. unfold onPlayerDeath. rewrite Hr. simpl. split.
  - intros Hs. rewrite <- Hs, Hv. simpl. rewrite Hpv. simpl.
    rewrite Hinv, Hdead, Z.eqb_refl. simpl. rewrite bool_decide_eq_true_2 by done.
    eexists. simpl. split_and!; [do 3 f_equal|..]; simplify_map_eq; simpl; try done; f_equal; lia.
  - intros Hs Hne. rewrite Hv, Hk. simpl. rewrite Hpv, Hpk. simpl. rewrite Hinv, Hdead. simpl.
    destruct (Z.eqb_spec (d_victim_serial data) (d_killer_serial data)); [done|].
    rewrite bool_decide_eq_false_2 by done.
    eexists. simpl. split_and!; [do 3 f_equal|..]; by simplify_map_eq.
Qed.

(** C5: a victim that is invincible or already dead cannot be killed: the
    event changes nothing and is not broadcast. *)
Theorem onPlayerDeath_protected w s rid r data vid kid victim killer :
  room_of w s = Some (rid, r) ->
  roster_at r (d_victim_serial data) = Some vid ->
  roster_at r (d_killer_serial data) = Some kid ->
  w_players w !! vid = Some victim -> w_players w !! kid = Some killer ->
  p_is_invincible victim = true \/ p_is_dead victim = true ->
  onPlayerDeath s (Some data) w = Ok (w, []).
Proof.
  intros Hr Hv Hk Hpv Hpk Hprot.
  unfold onPlayerDeath. rewrite Hr. simpl. rewrite Hv, Hk. simpl. rewrite Hpv, Hpk. simpl.
  by destruct Hprot as [-> | ->]; [|rewrite orb_true_r].
Qed.

(** C6: planting on an empty cell of the bombs layer writes the owner's
    [serial + 1] at [row * width + col] of the first "bombs" layer, changes
    nothing else in the room, and is broadcast to the whole room. *)
Theorem onPlayerPlantBomb_writes now w s rid r data owner bi bl :
  room_of w s = Some (rid, r) ->
  roster_at r (b_owner_serial data) = Some owner ->
  first_index "bombs" (m_layers (r_map r)) = Some bi ->
  m_layers (r_map r) !! bi = Some bl ->
  js_truthy (js_get (l_data bl) (cell_index (r_map r) (b_col data) (b_row data))) = false ->
  let r1 := room_layers r (update_at bi
              (fun a => js_set a (cell_index (r_map r) (b_col data) (b_row data))
                                 (b_owner_serial data + 1)) (m_layers (r_map r))) in
  onPlayerPlantBomb now s (Some data) w =
    Ok (put_room w rid r1, emitAll r1 "player plant bomb" (PBomb data now)).
Proof.
  intros Hr Ho Hbi Hbl Hempty r1.
  unfold onPlayerPlantBomb. rewrite Hr. simpl. rewrite Ho.
  rewrite plant_layers_spec, Hbi, Hbl, Hempty. done.
Qed.

(** C7: a plant request on an occupied cell is dropped: no state change and
    no broadcast. *)
Theorem onPlayerPlantBomb_occupied now w s rid r data owner bi bl :
  room_of w s = Some (rid, r) ->
  roster_at r (b_owner_serial data) = Some owner ->
  first_index "bombs" (m_layers (r_map r)) = Some bi ->
  m_layers (r_map r) !! bi = Some bl ->
  js_truthy (js_get (l_data bl) (cell_index (r_map r) (b_col data) (b_row data))) = true ->
  onPlayerPlantBomb now s (Some data) w = Ok (w, []).
Proof.
  intros Hr Ho Hbi Hbl Hfull.
  unfold onPlayerPlantBomb. rewrite Hr. simpl. rewrite Ho.
  rewrite plant_layers_spec, Hbi, Hbl, Hfull. done.
Qed.

(** C8: when the layer names are distinct, an explosion zeroes every
    reported cell in both the "bombs" and the "objects" layer (the layers
    the other handlers find first), keeps the roster, and is broadcast to
    the whole room. *)
Theorem onBombExplode_clears now w s rid r data bi oi :
  room_of w s = Some (rid, r) ->
  NoDup (l_name <$> m_layers (r_map r)) ->
  first_index "bombs" (m_layers (r_map r)) = Some bi ->
  first_index "objects" (m_layers (r_map r)) = Some oi ->
  exists r1,
    onBombExplode now s (Some data) w = Ok (put_room w rid r1, emitAll r1 "bomb explode" (PExplode data now)) /\
    r_players r1 = r_players r /\
    forall col row, (col, row) ∈ e_indexes data ->
      cell_zero bi (cell_index (r_map r) col row) (m_layers (r_map r1)) /\
      cell_zero oi (cell_index (r_map r) col row) (m_layers (r_map r1)).
Proof.
  intros Hr Hnd Hbi Hoi.
  unfold onBombExplode. rewrite Hr. simpl.
  rewrite !last_index_first_index, Hbi, Hoi by done.
  eexists. split; [done|]. split; [done|].
  intros col row Hin. apply explode_cells_zero; [| |done].
  - apply first_index_Some in Hbi as (l & Hl & _). by eapply lookup_lt_Some.
  - apply first_index_Some in Hoi as (l & Hl & _). by eapply lookup_lt_Some.
Qed.

(** C9: a spawn places the player at the centre of the spawn point under
    the room's cursor ([(col + 0.5) * tile_size]), makes it alive and
    invincible since [now], advances the cursor, and broadcasts the spawn
    to the whole room. *)
Theorem onPlayerSpawn_spec now w s pid p rid r data sp :
  player_of w s = Some (pid, p) -> room_of w s = Some (rid, r) ->
  m_spawn_order (r_map r) !! next_spawn_index r = Some sp ->
  exists w',
    onPlayerSpawn now s (Some data) w =
      Ok (w', emitAll (with_next_spawn r (next_spawn (next_spawn_index r))) "player spawn"
                (PSpawn ((inject_Z (sp_col sp) + (1#2)) * spi_x data)%Q
                        ((inject_Z (sp_row sp) + (1#2)) * spi_x data)%Q (spi_nickname data) now)) /\
    w_rooms w' !! rid = Some (with_next_spawn r (next_spawn (next_spawn_index r))) /\
    w_players w' !! pid =
      Some (spawn_fields ((inject_Z (sp_col sp) + (1#2)) * spi_x data)%Q
                         ((inject_Z (sp_row sp) + (1#2)) * spi_x data)%Q now (spi_nickname data) p).
Proof.
  intros Hp Hr Hsp. unfold onPlayerSpawn. rewrite Hp, Hr, Hsp. simpl.
  eexists. split; [done|]. simpl. split; [by simplify_map_eq|].
  apply player_of_Some in Hp as [_ Hp]. simpl. by rewrite lookup_alter_eq, Hp.
Qed.

(** C10: the spawn cursor cycles through the eight spawn points: after [n]
    spawns from a fresh room it is at [n mod 8], so the ninth spawn is at
    point 0 again. *)
Theorem next_spawn_cycle n : Nat.iter n next_spawn 0%nat = (n mod 8)%nat.
Proof.
  induction n as [|n IH]; [done|].
  rewrite Nat.iter_succ, IH, next_spawn_mod by (apply Nat.mod_upper_bound; lia).
  rewrite Nat.Div0.add_mod_idemp_l. f_equal. lia.
Qed.

(** C11: a move from a live player updates its position and animation key
    and is echoed to every other member of the room, never to the sender;
    a dead player's move is dropped. *)
Theorem onPlayerMove_spec cid w s pid p rid r data :
  player_of w s = Some (pid, p) -> room_of w s = Some (rid, r) ->
  onPlayerMove cid s (Some data) w =
    (if p_is_dead p then Ok (w, [])
     else Ok (alter_player (set_position (mv_x data) (mv_y data) (mv_key data)) pid w,
              emitBroadcast r "player move" (PMove data) cid)) /\
  cid ∉ receivers "player move" (emitBroadcast r "player move" (PMove data) cid).
Proof.
  intros Hp Hr. unfold onPlayerMove. rewrite Hp, Hr. split; [by destruct (p_is_dead p)|].
  rewrite receivers_emitBroadcast, decide_True by done.
  rewrite list_elem_of_filter. tauto.
Qed.

(** C20: collecting a powerup clears its cell in the first "powerups"
    layer and leaves the other layers and the roster alone; a
    "protection" powerup makes the collector invincible from [now], any
    other type leaves the players untouched; the whole room is told. *)
Theorem onPlayerCollectPowerup_spec now w s pid p rid r data pi :
  player_of w s = Some (pid, p) -> room_of w s = Some (rid, r) ->
  first_index "powerups" (m_layers (r_map r)) = Some pi ->
  exists w' r1 ms,
    onPlayerCollectPowerup now s (Some data) w = Ok (w', ms) /\
    w_rooms w' !! rid = Some r1 /\ r_players r1 = r_players r /\
    cell_zero pi (cell_index (r_map r) (c_col data) (c_row data)) (m_layers (r_map r1)) /\
    (forall i, i <> pi -> m_layers (r_map r1) !! i = m_layers (r_map r) !! i) /\
    (c_type data = "protection" ->
       exists p', w_players w' !! pid = Some p' /\ p_is_invincible p' = true /\ p_i_timestamp p' = now) /\
    (c_type data <> "protection" -> w_players w' = w_players w) /\
    receivers "player collect powerup" ms = members (r_players r).
Proof.
  intros Hp Hr Hpi. pose proof Hpi as (l & Hl & _)%first_index_Some.
  unfold onPlayerCollectPowerup. rewrite Hp, Hr. apply player_of_Some in Hp as [_ Hp].
  simpl. rewrite update_first_at, Hpi.
  set (r1 := room_layers r _).
  assert (Hz : cell_zero pi (cell_index (r_map r) (c_col data) (c_row data)) (m_layers (r_map r1)))
    by (apply cell_zero_set; by eapply lookup_lt_Some).
  assert (Hother : forall i, i <> pi -> m_layers (r_map r1) !! i = m_layers (r_map r) !! i)
    by (intros i Hi; by apply list_lookup_alter_ne).
  assert (Hrecv : receivers "player collect powerup"
                    (emitAll r1 "player collect powerup" (PCollect data now (p_serial p))) =
                  members (r_players r)) by (by rewrite receivers_emitAll, decide_True).
  destruct (String.eqb_spec (c_type data) "protection") as [Hprot|Hprot];
    eexists _, r1, _; (split; [reflexivity|]); simpl; rewrite lookup_insert_eq;
    split_and!; try done.
  intros _. rewrite lookup_alter_eq, Hp. by eexists.
Qed.

(** C21: the spawn cursor wraps at 8, not at the map's spawn points.  On
    a map with fewer than eight spawn points, a spawn with the cursor at
    the last point succeeds and advances the cursor to [length
    spawn_order] ([next_spawn] wraps only at 7), and from then on every
    spawn in that room crashes reading [spawn_order[next_spawn_index].col];
    the specification wants the cursor to wrap at capacity. *)
Theorem onPlayerSpawn_past_spawn_points now w s pid p rid r data :
  player_of w s = Some (pid, p) -> room_of w s = Some (rid, r) ->
  (length (m_spawn_order (r_map r)) < 8)%nat ->
  S (next_spawn_index r) = length (m_spawn_order (r_map r)) ->
  exists w' ms r', onPlayerSpawn now s (Some data) w = Ok (w', ms) /\ w_rooms w' !! rid = Some r' /\
    next_spawn_index r' = length (m_spawn_order (r_map r)) /\
    forall now' s' data', is_Some (player_of w' s') -> room_of w' s' = Some (rid, r') ->
      exists e, onPlayerSpawn now' s' (Some data') w' = Crash e.
Proof.
  intros Hp Hr H8 Hcur.
  destruct (lookup_lt_is_Some_2 (m_spawn_order (r_map r)) (next_spawn_index r)) as [sp Hsp]; [lia|].
  unfold onPlayerSpawn at 1. rewrite Hp, Hr, Hsp. simpl.
  assert (Hn : next_spawn (next_spawn_index r) = length (m_spawn_order (r_map r))).
  { unfold next_spawn. destruct (Nat.eqb_spec (next_spawn_index r) 7); lia. }
  do 3 eexists. split; [reflexivity|]. split; [simpl; by rewrite lookup_insert_eq|]. split; [exact Hn|].
  intros now' s' data' [[pid' p'] Hp'] Hr'. unfold onPlayerSpawn. rewrite Hp', Hr'. simpl.
  rewrite Hn, lookup_ge_None_2 by lia. by eexists.
Qed.

(** C24: an event without payload from a live player in a room throws,
    where the specification wants a silent no-op: a room request (reading
    [client_data.name], after a new room may already have been pushed),
    spawn, move, death, collect, lost-invincibility, plant and explode
    always; powerup disappearance exactly when the map has a "powerups"
    layer (the payload is read inside the loop); powerup blink never (it
    forwards [undefined]). *)
Theorem missing_payload_crashes tmpl rnd now cid w s pid p rid r :
  player_of w s = Some (pid, p) -> room_of w s = Some (rid, r) -> p_is_dead p = false ->
  Forall (fun rid => is_Some (w_rooms w !! rid)) (w_rlist w) ->
  (exists e, onRoomRequest tmpl rnd cid s None w = Crash e) /\
  (exists e, onPlayerSpawn now s None w = Crash e) /\
  (exists e, onPlayerMove cid s None w = Crash e) /\
  (exists e, onPlayerDeath s None w = Crash e) /\
  (exists e, onPlayerCollectPowerup now s None w = Crash e) /\
  (exists e, onPlayerLostInvicibility s None w = Crash e) /\
  (exists e, onPlayerPlantBomb now s None w = Crash e) /\
  (exists e, onBombExplode now s None w = Crash e) /\
  ((exists e, onPowerupDisappear s None w = Crash e) <->
     existsb (fun l => String.eqb (l_name l) "powerups") (m_layers (r_map r)) = true) /\
  onPowerupBlink s None w = (w, emitAll r "powerup blink" (PPowerup None)).
Proof.
  intros Hp Hr Hd Hall. split.
  { apply (onRoomRequest_missing_payload_crashes tmpl rnd cid s w pid); [|done].
    unfold player_of in Hp. destruct (s_player s); simpl in Hp; [|done].
    destruct (w_players w !! _); simpl in Hp; [|done]. congruence. }
  unfold onPlayerSpawn, onPlayerMove, onPlayerDeath, onPlayerCollectPowerup,
    onPlayerLostInvicibility, onPlayerPlantBomb, onBombExplode, onPowerupDisappear, onPowerupBlink.
  rewrite Hp, Hr, Hd. simpl. split_and!; try by eexists.
  destruct (existsb _ _); simpl; split; first [by intros | by eexists | by intros [e ?]].
Qed.

(** C25: "player lost invincibility" clears the invincible flag of the
    player in the reported slot (any member, not only the sender) and
    nothing else of it, leaves every other player and every room alone,
    and tells the whole room. *)
Theorem onPlayerLostInvicibility_spec w s rid r data pid p :
  room_of w s = Some (rid, r) -> roster_at r (si_serial data) = Some pid -> w_players w !! pid = Some p ->
  exists w' ms, onPlayerLostInvicibility s (Some data) w = Ok (w', ms) /\
    w_players w' !! pid = Some (set_invincible false None p) /\
    p_is_invincible (set_invincible false None p) = false /\
    p_i_timestamp (set_invincible false None p) = p_i_timestamp p /\
    (forall q, q <> pid -> w_players w' !! q = w_players w !! q) /\ w_rooms w' = w_rooms w /\
    receivers "player lost invincibility" ms = members (r_players r).
Proof.
  intros Hr Hs Hp. unfold onPlayerLostInvicibility. rewrite Hr. simpl. rewrite Hs.
  eexists _, _. split; [reflexivity|]. simpl. split_and!; try done.
  - by rewrite lookup_alter_eq, Hp.
  - intros q Hq. by rewrite lookup_alter_ne.
  - by rewrite receivers_emitAll, decide_True.
Qed.

(** C26: a powerup's disappearance zeroes its cell in every "powerups"
    layer (the loop has no [break]), leaves every other layer and the
    roster as they were, and tells the whole room. *)
Theorem onPowerupDisappear_clears_all s w rid r data :
  room_of w s = Some (rid, r) ->
  exists r1 ms, onPowerupDisappear s (Some data) w = Ok (put_room w rid r1, ms) /\
    r_players r1 = r_players r /\
    (forall i l, m_layers (r_map r) !! i = Some l -> l_name l = "powerups" ->
       exists l', m_layers (r_map r1) !! i = Some l' /\
         js_get (l_data l') (cell_index (r_map r) (pw_col data) (pw_row data)) = Some 0%Z) /\
    (forall i l, m_layers (r_map r) !! i = Some l -> l_name l <> "powerups" ->
       m_layers (r_map r1) !! i = Some l) /\
    receivers "powerup disappear" ms = members (r_players r).
Proof.
  intros Hr. unfold onPowerupDisappear. rewrite Hr.
  destruct (existsb _ _) eqn:Hex; simpl; (eexists _, _; split; [reflexivity|]); simpl;
    (split_and!; [done| | |by rewrite receivers_emitAll, decide_True]).
  - intros i l Hl Hn. rewrite update_all_lookup, Hl. simpl. rewrite Hn, String.eqb_refl.
    eexists. split; [done|]. apply js_get_set_eq.
  - intros i l Hl Hn. rewrite update_all_lookup, Hl. simpl.
    by destruct (String.eqb_spec (l_name l) "powerups").
  - intros i l Hl Hn. exfalso. apply not_true_iff_false in Hex. apply Hex, existsb_exists.
    exists l. split; [by eapply list_elem_of_In, list_elem_of_lookup_2|by apply String.eqb_eq].
  - done.
Qed.

(** C27: a map reset reinitialises the room's map state (the template's
    layers, the spawn cursor back at 0), keeps the roster and the host,
    and then sends the room as reset, not as it was, to every member. *)
Theorem onMapReset_spec tmpl s w rid r :
  room_of w s = Some (rid, r) ->
  exists r1 ms, onMapReset tmpl s w = (put_room w rid r1, ms) /\
    r_map r1 = tmpl /\ next_spawn_index r1 = 0%nat /\ r_players r1 = r_players r /\ r_host r1 = r_host r /\
    ms = emitAll r1 "map reset" (PRoom r1) /\ receivers "map reset" ms = members (r_players r).
Proof.
  intros Hr. unfold onMapReset. rewrite Hr, resetMap_spec.
  eexists _, _. split; [reflexivity|]. simpl. split_and!; try done.
  by rewrite receivers_emitAll, decide_True.
Qed.

End GameplayFacts.
