(* ===== verification/Server.v ===== *)
(** * The server of [index.js]: event routing, runs, and the status endpoint

    [index.js] registers, for every connection, one listener per event name
    and calls the handler method with the socket as [this].  [dispatch]
    is that routing; the transport delivers events only to live sockets
    and forgets a socket after its disconnect.  [step] is one delivered
    event (with the time and the random draw it sees) and [reachable]
    the worlds a run from the empty server can reach.

    The status endpoint ([/api/status], the welcome page) reads
    [rooms.length] and [players.length] of the arrays [index.js] declares;
    [boot] models the module evaluation order that decides whether those
    are the handler's arrays; [Http] builds the routes on [api_status]. *)

From S2P Require Import Prelude JsArray Player MapState Room Wire Registry Lifecycle Gameplay.

Inductive Event :=
  | EvConnect
  | EvDisconnect
  | EvRoomRequest (d : option RoomReq) (rnd : Z)
  | EvChat (text : option string)
  | EvAvailable
  | EvUnavailable
  | EvSpawn (d : option SpawnIn)
  | EvMove (d : option MoveIn)
  | EvDeath (d : option DeathIn)
  | EvCollect (d : option CollectIn)
  | EvLostInv (d : option SerialIn)
  | EvPlant (d : option BombIn)
  | EvExplode (d : option ExplodeIn)
  | EvBlink (d : option PowerupIn)
  | EvDisappear (d : option PowerupIn)
  | EvMapReset
  | EvWebLogin (d : option LoginIn).

Section Server.
Context `{RM : RoomMethods}.
Variable tmpl : MapState.

(** The listeners of [io.on('connection', ...)] (lines 101-177). *)
Definition dispatch (now : Z) (cid : string) (ev : Event) (w : World) : outcome (World * list msg) :=
  match ev with
  | EvConnect => Ok (onClientConnect cid w)
  | _ =>
    match w_socks w !! cid with
    | None => Ok (w, [])
    | Some s =>
      match ev with
      | EvConnect => Ok (w, [])
      | EvDisconnect =>
          '(w1, ms) ← onClientDisconnect now cid s w;
          Ok (set_socks w1 (delete cid (w_socks w1)), ms)
      | EvRoomRequest d rnd => onRoomRequest tmpl rnd cid s d w
      | EvChat text => Ok (onChatMessage cid s text w)
      | EvAvailable => Ok (onPlayerAvailable s w)
      | EvUnavailable => Ok (onPlayerUnavailable now s w)
      | EvSpawn d => onPlayerSpawn now s d w
      | EvMove d => onPlayerMove cid s d w
      | EvDeath d => onPlayerDeath s d w
      | EvCollect d => onPlayerCollectPowerup now s d w
      | EvLostInv d => onPlayerLostInvicibility s d w
      | EvPlant d => onPlayerPlantBomb now s d w
      | EvExplode d => onBombExplode now s d w
      | EvBlink d => Ok (onPowerupBlink s d w)
      | EvDisappear d => onPowerupDisappear s d w
      | EvMapReset => Ok (onMapReset tmpl s w)
      | EvWebLogin d =>
          ui ← deref d "name";
          Ok (w, emit_to cid "login result" (PLogin (li_name ui)))
      end
    end
  end.

(** The transport's side: a connection id is fresh when it connects
    (socket.io ids are never reused); other events come from live sockets. *)
Definition deliverable (cid : string) (ev : Event) (w : World) : Prop :=
  match ev with
  | EvConnect => w_socks w !! cid = None /\ w_players w !! cid = None
  | _ => is_Some (w_socks w !! cid)
  end.

#[global] Instance deliverable_dec cid ev w : Decision (deliverable cid ev w).
Proof. destruct ev; simpl; apply _. Defined.

Inductive step : World -> World -> Prop :=
  | step_event now cid ev w w' ms :
      deliverable cid ev w ->
      dispatch now cid ev w = Ok (w', ms) ->
      step w w'.

Definition reachable (w : World) : Prop := rtc step init_world w.

(** A run of the event loop: each event's handler runs to completion before
    the next one is dispatched (spec §5); the messages are concatenated in
    emission order. *)
Fixpoint run (evs : list (Z * string * Event)) (w : World) : outcome (World * list msg) :=
  match evs with
  | [] => Ok (w, [])
  | (now, cid, ev) :: evs' =>
      '(w1, ms1) ← dispatch now cid ev w;
      '(w2, ms2) ← run evs' w1;
      Ok (w2, ms1 ++ ms2)
  end.

(** A run in which every event satisfies the delivery condition [D] and
    no handler crashes; [run_ok] uses the transport's [deliverable]. *)
Fixpoint run_ok_with (D : string -> Event -> World -> Prop) `{!forall c e w, Decision (D c e w)}
    (evs : list (Z * string * Event)) (w : World) : bool :=
  match evs with
  | [] => true
  | (now, cid, ev) :: evs' =>
      bool_decide (D cid ev w) &&
      match dispatch now cid ev w with Ok (w1, _) => run_ok_with D evs' w1 | Crash _ => false end
  end.

Definition run_ok : list (Z * string * Event) -> World -> bool := run_ok_with deliverable.

End Server.

(** A checked run is a sequence of steps of any relation that every
    accepted event implements. *)
Lemma run_steps_with `{RoomMethods} tmpl (D : string -> Event -> World -> Prop)
    `{!forall c e w, Decision (D c e w)} (R : World -> World -> Prop) evs w w' ms :
  (forall now cid ev w w' ms, D cid ev w -> dispatch tmpl now cid ev w = Ok (w', ms) -> R w w') ->
  run_ok_with tmpl D evs w = true -> run tmpl evs w = Ok (w', ms) -> rtc R w w'.
Proof.
  intros HR. induction evs as [|[[now cid] ev] evs IH] in w, w', ms |- *; simpl.
  - intros _ [= <- _]. constructor.
  - intros Hok. apply andb_prop in Hok as [Hdl Hok]. revert Hok.
    destruct (dispatch tmpl now cid ev w) as [[w1 ms1]|] eqn:Hd; simpl; [|done].
    intros Hok. destruct (run tmpl evs w1) as [[w2 ms2]|] eqn:Hr; simpl; [|discriminate].
    intros [= <- _]. eapply rtc_l; [|by eapply IH].
    eapply HR; [by apply bool_decide_eq_true in Hdl|exact Hd].
Qed.

Lemma run_steps `{RoomMethods} tmpl evs w w' ms :
  run_ok tmpl evs w = true -> run tmpl evs w = Ok (w', ms) -> rtc (step tmpl) w w'.
Proof. apply run_steps_with. intros. by eapply step_event. Qed.

(** Induction over reachable worlds: a property of the empty server that
    every delivered event preserves holds of every reachable world. *)
Lemma reachable_ind `{RoomMethods} tmpl (P : World -> Prop) :
  P init_world ->
  (forall now cid ev w w' ms, P w -> deliverable cid ev w -> dispatch tmpl now cid ev w = Ok (w', ms) -> P w') ->
  forall w, reachable tmpl w -> P w.
Proof.
  intros H0 Hstep w Hr. unfold reachable in Hr.
  assert (Hgen : forall x y, rtc (step tmpl) x y -> P x -> P y).
  { induction 1 as [|x y z [now cid ev ? ? ms Hdl Hd] _ IH]; [done|]. intros Hx. apply IH. by eapply Hstep. }
  by apply (Hgen init_world).
Qed.

(** ** Module evaluation of [index.js] and the status endpoint

    Arrays are named by their allocation order.  [SocketEventHandler.js]
    evaluates [var rooms = global.rooms || []; var players = global.players || [];]
    when it is required (index.js line 91); [index.js] then allocates its
    own [rooms] and [players] (lines 92-93) and stores them in [global]
    (lines 96-97). *)
Record Globals := mkGlobals { g_rooms : option nat; g_players : option nat }.

Record Boot := mkBoot {
  handler_rooms : nat;    (* the array the handler mutates *)
  handler_players : nat;
  status_rooms : nat;     (* the array the status endpoint reads *)
  status_players : nat
}.

(** Evaluating [SocketEventHandler.js] under [global], with [next] the next
    fresh array. *)
Definition require_handler (g : Globals) (next : nat) : nat * nat * nat :=
  let '(rl, n1) := match g_rooms g with Some l => (l, next) | None => (next, S next) end in
  let '(pl, n2) := match g_players g with Some l => (l, n1) | None => (n1, S n1) end in
  (rl, pl, n2).

Definition boot : Boot :=
  let g0 := {| g_rooms := None; g_players := None |} in
  let '(hr, hp, n) := require_handler g0 0 in          (* line 91 *)
  let ir := n in let ip := S n in                       (* lines 92-93 *)
  (* lines 96-97 store [ir] and [ip] in [global], after the handler module
     has read it; the endpoint closures (lines 42-69) read [ir] and [ip]. *)
  {| handler_rooms := hr; handler_players := hp; status_rooms := ir; status_players := ip |}.

(** [rooms.length] and [players.length] as the endpoint sees them: the
    handler's arrays hold the world's registries, every other array is
    still the empty literal it was created as (nothing else writes it). *)
Definition api_status (b : Boot) (w : World) : nat * nat :=
  (if Nat.eqb (status_rooms b) (handler_rooms b) then length (w_rlist w) else 0%nat,
   if Nat.eqb (status_players b) (handler_players b) then length (w_plist w) else 0%nat).

