(* ===== verification/Http.v ===== *)
(** * The HTTP surface and the process lifecycle of [index.js]

    Around the socket.io listeners, [index.js] sets up:
    - a CORS policy ([corsOptions], lines 6-32), shared by express
      (line 34) and socket.io (line 76): an allow-list of origins and an
      origin callback; [cors_origin] is that callback, returning the
      verdict it passes to [callback(null, v)] and whether it logs the
      origin as not allowed;
    - three GET routes (lines 36-69): [/health], [/api/status] and the
      welcome page [/]; [route] answers a request, [None] standing for
      express's fall-through (its default 404), which the code does not
      write;
    - the port ([process.env.PORT || 3000], line 51) and the socket.io
      options (lines 75-80);
    - the process lifecycle: the [listen] callback's banner (lines 82-88)
      and the SIGTERM handler (lines 180-186), which closes the HTTP
      server and exits with 0 from the close callback.  [pstep] is one
      event of the process; [server.close(cb)] registers [cb] for the
      server's ['close'] event, emitted once the server has stopped and
      every connection has ended, and [process.exit(0)] ends the process
      in the first callback that runs;
    - the process running the server: [sys_step] delivers socket events
      to [Server.dispatch] while the server serves (listening, or closing
      with connections still open), and a listener that throws is an
      uncaught exception: [index.js] installs no handler for it, so Node
      prints the error and exits with code 1.

    The counts the status routes show are those of [Server.api_status]:
    the arrays [index.js] declares, which the handler never writes. *)

From S2P Require Import Prelude JsArray Player MapState Room Wire Registry Lifecycle Gameplay Server.

(** ** CORS *)

(** [allowedOrigins] (lines 8-16). *)
Definition allowedOrigins : list string :=
  ["http://localhost:3000"; "http://localhost:8080"; "http://localhost:8000";
   "https://darkthronegame.com"; "https://www.darkthronegame.com";
   "https://bomberworld-backend.onrender.com"].

(** The [origin] callback (lines 7-27): an absent or empty origin
    ([!origin]) is allowed; a listed one is allowed; any other is logged
    and allowed too.  The result is [(verdict, logged)]. *)
Definition cors_origin (origin : option string) : bool * bool :=
  match origin with
  | None => (true, false)
  | Some o =>
      if String.eqb o EmptyString then (true, false)
      else if existsb (String.eqb o) allowedOrigins then (true, false)
      else (true, true)
  end.

Record CorsOptions := mkCorsOptions {
  co_origin : option string -> bool * bool;
  co_credentials : bool;
  co_methods : list string;
  co_allowedHeaders : list string;
  co_optionsSuccessStatus : Z
}.

(** [corsOptions] (lines 6-32). *)
Definition corsOptions : CorsOptions :=
  {| co_origin := cors_origin; co_credentials := true; co_methods := ["GET"; "POST"];
     co_allowedHeaders := ["Content-Type"; "Authorization"]; co_optionsSuccessStatus := 200 |}.

Record IoOptions := mkIoOptions {
  io_cors : CorsOptions;
  io_transports : list string;
  io_pingTimeout : Z;
  io_pingInterval : Z
}.

(** The options of [require('socket.io')(server, ...)] (lines 75-80): the
    same [corsOptions] object as express's. *)
Definition ioOptions : IoOptions :=
  {| io_cors := corsOptions; io_transports := ["websocket"; "polling"];
     io_pingTimeout := 60000; io_pingInterval := 25000 |}.

(** ** Port *)

(** [process.env.PORT || 3000] (line 51): the environment's string when it
    is set and non-empty (an empty string is falsy), else the number 3000. *)
Inductive Port := PortEnv (s : string) | PortNum (n : Z).

Definition port_of (env_port : option string) : Port :=
  match env_port with
  | Some s => if String.eqb s EmptyString then PortNum 3000 else PortEnv s
  | None => PortNum 3000
  end.

(** ['Port: ' + port]: a string is concatenated, a number printed. *)
Definition port_text (p : Port) : string :=
  match p with PortEnv s => s | PortNum n => pretty n end.

(** ** Routes *)

Inductive Body :=
  | Text (s : string)
  | Json (status : string) (rooms players : nat) (timestamp : Z)
  | Html (s : string).

Record Response := mkResponse { res_status : Z; res_body : Body }.

Definition nl : string := String (Ascii.ascii_of_nat 10) EmptyString.
Definition dq : string := String (Ascii.ascii_of_nat 34) EmptyString.

(** The welcome page's template literal (lines 55-68), with
    [${rooms.length}] and [${players.length}] filled in. *)
Definition welcome_page (nrooms nplayers : nat) : string :=
  nl +:+ "    <html>" +:+ nl +:+
  "      <head><title>Bomberworld Game Server</title></head>" +:+ nl +:+
  "      <body style=" +:+ dq +:+ "font-family: Arial; text-align: center; padding: 50px;" +:+ dq +:+ ">" +:+ nl +:+
  "        <h1>🎮 Bomberworld Game Server</h1>" +:+ nl +:+
  "        <p>This is the backend server for Bomberworld multiplayer game.</p>" +:+ nl +:+
  "        <p>Status: <strong style=" +:+ dq +:+ "color: green;" +:+ dq +:+ ">Online</strong></p>" +:+ nl +:+
  "        <p>Rooms Active: <strong>" +:+ pretty nrooms +:+ "</strong></p>" +:+ nl +:+
  "        <p>Players Connected: <strong>" +:+ pretty nplayers +:+ "</strong></p>" +:+ nl +:+
  "        <hr>" +:+ nl +:+
  "        <p>To play the game, please visit the game client.</p>" +:+ nl +:+
  "      </body>" +:+ nl +:+
  "    </html>" +:+ nl +:+ "  ".

(** [/api/status] (lines 42-49): [res.json] answers 200. *)
Definition status_response (b : Boot) (w : World) (now : Z) : Response :=
  let '(nr, np) := api_status b w in mkResponse 200 (Json "online" nr np now).

(** The three [app.get] routes (lines 36-69); another request falls
    through to express. *)
Definition route (b : Boot) (w : World) (now : Z) (meth path : string) : option Response :=
  if negb (String.eqb meth "GET") then None
  else if String.eqb path "/health" then Some (mkResponse 200 (Text "OK"))
  else if String.eqb path "/api/status" then Some (status_response b w now)
  else if String.eqb path "/" then
    let '(nr, np) := api_status b w in Some (mkResponse 200 (Html (welcome_page nr np)))
  else None.

(** ** The process: listen and graceful shutdown *)

(** [Closing n]: [server.close] has been called, [n] close callbacks wait
    for the server's ['close'] event. *)
Inductive Proc := Booting | Listening | Closing (waiters : nat) | Exited (code : Z).

(** The server is bound; a SIGTERM arrives; the server emits ['close']; a
    listener throws and nothing catches it ([index.js] installs no
    ['uncaughtException'] handler). *)
Inductive PEvent := PListening | PSigterm | PServerClosed | PUncaught (e : string).

(** The process's standard output ([console.log]) and standard error. *)
Record PState := mkPState { p_proc : Proc; p_log : list string; p_err : list string }.

Definition pinit : PState := mkPState Booting [] [].

Definition banner_rule : string := "=================================".
Definition sigterm_line : string := "SIGTERM signal received: closing HTTP server".
Definition closed_line : string := "HTTP server closed".

(** [process.env.NODE_ENV || 'development']. *)
Definition node_env_text (e : option string) : string :=
  match e with Some s => if String.eqb s EmptyString then "development" else s | None => "development" end.

(** The [server.listen] callback (lines 82-88). *)
Definition listen_banner (port : Port) (node_env : option string) : list string :=
  [banner_rule; "Bomberworld Server Started"; "Port: " +:+ port_text port;
   "Environment: " +:+ node_env_text node_env; banner_rule].

Definition waiters (pr : Proc) : nat := match pr with Closing n => n | _ => 0 end.

(** One event of the process.  A SIGTERM (lines 180-186) logs and calls
    [server.close(cb)], registering one more callback; the ['close'] event
    runs the first callback, which logs and calls [process.exit(0)], so the
    others never run.  An uncaught exception prints its error and ends the
    process with Node's exit code 1.  A dead process ignores everything. *)
Definition pstep (port : Port) (node_env : option string) (ev : PEvent) (s : PState) : PState :=
  match p_proc s, ev with
  | Exited _, _ => s
  | _, PUncaught e => mkPState (Exited 1) (p_log s) (p_err s ++ [e])
  | Booting, PListening => mkPState Listening (p_log s ++ listen_banner port node_env) (p_err s)
  | _, PListening => s
  | pr, PSigterm => mkPState (Closing (S (waiters pr))) (p_log s ++ [sigterm_line]) (p_err s)
  | Closing (S _), PServerClosed => mkPState (Exited 0) (p_log s ++ [closed_line]) (p_err s)
  | _, PServerClosed => s
  end.

(** The socket.io listeners run while the server is up: listening, or
    closing ([server.close] stops new connections, not the open ones). *)
Definition serving (pr : Proc) : bool :=
  match pr with Listening | Closing _ => true | _ => false end.

(** ** The process running the server

    What reaches the process: its own events, and socket events, which
    [index.js] routes to the handler ([Server.dispatch]) while it serves.
    A handler's throw is an uncaught exception of the process. *)
Inductive SysEvent :=
  | SListening | SSigterm | SServerClosed
  | SSock (now : Z) (cid : string) (ev : Event).

Section Process.
Context `{RM : RoomMethods}.
Variables (tmpl : MapState) (port : Port) (node_env : option string).

Definition sys_step (se : SysEvent) (st : PState * World) : PState * World :=
  let '(ps, w) := st in
  match se with
  | SListening => (pstep port node_env PListening ps, w)
  | SSigterm => (pstep port node_env PSigterm ps, w)
  | SServerClosed => (pstep port node_env PServerClosed ps, w)
  | SSock now cid ev =>
      if serving (p_proc ps) && bool_decide (deliverable cid ev w) then
        match dispatch tmpl now cid ev w with
        | Ok (w', _) => (ps, w')
        | Crash e => (pstep port node_env (PUncaught e) ps, w)
        end
      else (ps, w)
  end.

Definition srun (evs : list SysEvent) (st : PState * World) : PState * World :=
  fold_left (fun st se => sys_step se st) evs st.

Definition sinit : PState * World := (pinit, init_world).

(** ** Lemmas *)

Definition exited (pr : Proc) : bool := match pr with Exited _ => true | _ => false end.

(** A live process has written nothing to standard error, and a closing
    one has logged the SIGTERM. *)
Definition pinv (s : PState) : Prop :=
  exited (p_proc s) = false -> p_err s = [] /\ (forall n, p_proc s = Closing n -> sigterm_line ∈ p_log s).

Lemma srun_snoc evs se st : srun (evs ++ [se]) st = sys_step se (srun evs st).
Proof. unfold srun. by rewrite fold_left_app. Qed.

Lemma sys_step_exited se ps w : exited (p_proc ps) = true -> sys_step se (ps, w) = (ps, w).
Proof.
  intros He. destruct (p_proc ps) eqn:Hp; try done.
  destruct se; simpl; unfold pstep; by rewrite ?Hp.
Qed.

Lemma pstep_inv e ps : pinv ps -> pinv (pstep port node_env e ps).
Proof.
  unfold pinv, pstep. intros H. destruct (p_proc ps) as [| |[|n]|c] eqn:Hp;
    [..|by rewrite Hp]; destruct (H eq_refl) as [Herr Hcl]; destruct e; simpl; rewrite ?Hp; try done;
    intros _; split; try done; intros ? [=]; rewrite ?elem_of_app, ?list_elem_of_singleton; eauto.
Qed.

Lemma sys_step_inv se ps w : pinv ps -> pinv (sys_step se (ps, w)).1.
Proof.
  intros H. destruct se; simpl; try by apply pstep_inv.
  case_match; [|done]. destruct (dispatch _ _ _ _ _) as [[]|]; simpl; [done|by apply pstep_inv].
Qed.

Lemma srun_inv evs : pinv (srun evs sinit).1.
Proof.
  induction evs as [|se evs IH] using rev_ind; [by intros _|].
  rewrite srun_snoc. destruct (srun evs sinit). by apply sys_step_inv.
Qed.

(** The step that ends a live process: the server's ['close'] with a
    callback waiting (code 0), or a socket event whose handler throws
    (code 1). *)
Lemma sys_step_exit se ps w c :
  exited (p_proc ps) = false -> p_proc (sys_step se (ps, w)).1 = Exited c ->
  (se = SServerClosed /\ c = 0%Z /\ (exists n, p_proc ps = Closing (S n)) /\
   p_log (sys_step se (ps, w)).1 = p_log ps ++ [closed_line] /\ p_err (sys_step se (ps, w)).1 = p_err ps) \/
  (exists now cid ev e, se = SSock now cid ev /\ c = 1%Z /\ deliverable cid ev w /\
   dispatch tmpl now cid ev w = Crash e /\ p_err (sys_step se (ps, w)).1 = p_err ps ++ [e]).
Proof.
  intros He. destruct se as [| | |now cid ev]; simpl.
  1-3: unfold pstep; destruct (p_proc ps) as [| |[|n]|c'] eqn:Hp; simpl; rewrite ?Hp;
    try discriminate; intros [= <-]; left; eauto 10.
  destruct (serving (p_proc ps) && bool_decide (deliverable cid ev w)) eqn:Hs; simpl.
  2:{ intros Hp. by rewrite Hp in He. }
  apply andb_prop in Hs as [_ Hd%bool_decide_eq_true_1].
  destruct (dispatch tmpl now cid ev w) as [[w' ms]|e] eqn:Hd'; simpl.
  - intros Hp. by rewrite Hp in He.
  - unfold pstep. destruct (p_proc ps) as [| |[|n]|] eqn:Hp; simpl; try (simpl in He; discriminate);
    intros Hc; simplify_eq; right; do 4 eexists; split_and!; first [reflexivity|eassumption].
Qed.

End Process.

Lemma existsb_eqb_elem (x : string) (l : list string) : existsb (String.eqb x) l = true <-> x ∈ l.
Proof.
  rewrite existsb_exists. split.
  - intros (y & Hy & Heq). apply String.eqb_eq in Heq as ->. by apply list_elem_of_In.
  - intros Hx. exists x. split; [by apply list_elem_of_In|apply String.eqb_refl].
Qed.

(** ** Theorems *)

(** C32: the CORS origin callback allows every origin: the allow-list only
    decides whether the origin is logged, which happens exactly for a
    non-empty origin that is not listed. *)
Theorem cors_allows_every_origin o :
  (cors_origin o).1 = true /\
  ((cors_origin o).2 = true <-> exists s, o = Some s /\ s <> EmptyString /\ s ∉ allowedOrigins).
Proof.
  unfold cors_origin. destruct o as [s|]; [|split; [done|]; split; [done|intros (? & ? & _); done]].
  destruct (String.eqb_spec s EmptyString) as [->|Hne].
  - split; [done|]. split; [done|]. intros (? & [= <-] & Hne & _). done.
  - destruct (existsb (String.eqb s) allowedOrigins) eqn:E; cbn [fst snd]; split; try done.
    + split; [done|]. intros (? & [= <-] & _ & Hn). exfalso. by apply Hn, existsb_eqb_elem.
    + split; [|done]. intros _. exists s. split_and!; [done|done|]. intros Hin.
      apply existsb_eqb_elem in Hin. congruence.
Qed.

(** C33: the process ends in one of two ways only.  In every run of the
    server process from boot, an exit with code 0 comes right after the
    log line of the [server.close] callback, after a SIGTERM was logged,
    with nothing written to standard error; an exit with code 1 comes from
    a socket event whose handler threw ([Server.dispatch] returned a
    crash), whose error is the one line of standard error.  From any
    serving state, a SIGTERM followed by the server's ['close'] event ends
    the process with 0, and a delivered event whose handler throws ends it
    with 1. *)
Theorem graceful_shutdown `{RoomMethods} tmpl port env :
  (forall evs c, p_proc (srun tmpl port env evs sinit).1 = Exited c ->
     (c = 0%Z /\ p_err (srun tmpl port env evs sinit).1 = [] /\
      exists pre, p_log (srun tmpl port env evs sinit).1 = pre ++ [closed_line] /\ sigterm_line ∈ pre) \/
     (c = 1%Z /\ exists evs1 now cid ev evs2 e, evs = evs1 ++ SSock now cid ev :: evs2 /\
        dispatch tmpl now cid ev (srun tmpl port env evs1 sinit).2 = Crash e /\
        p_err (srun tmpl port env evs sinit).1 = [e])) /\
  (forall ps w, serving (p_proc ps) = true ->
     p_proc (srun tmpl port env [SSigterm; SServerClosed] (ps, w)).1 = Exited 0%Z /\
     forall now cid ev e, deliverable cid ev w -> dispatch tmpl now cid ev w = Crash e ->
       p_proc (sys_step tmpl port env (SSock now cid ev) (ps, w)).1 = Exited 1%Z).
Proof.
  split.
  - induction evs as [|se evs IH] using rev_ind; [done|]. intros c. rewrite srun_snoc.
    pose proof (srun_inv tmpl port env evs) as Hinv. destruct (srun tmpl port env evs sinit) as [ps w] eqn:Hr.
    simpl in IH, Hinv. destruct (exited (p_proc ps)) eqn:He.
    + rewrite sys_step_exited by done. intros Hc.
      destruct (IH c Hc) as [H0|(-> & evs1 & now & cid & ev & evs2 & e & -> & Hd & Herr)]; [by left|right].
      split; [done|]. exists evs1, now, cid, ev, (evs2 ++ [se]), e. by rewrite <- app_assoc.
    + destruct (Hinv He) as [Herr Hcl]. intros Hc.
      destruct (sys_step_exit tmpl port env se ps w c He Hc)
        as [(-> & -> & [n Hn] & Hlog & Herr') | (now & cid & ev & e & -> & -> & _ & Hd & Herr')].
      * left. rewrite Hlog, Herr', Herr. split_and!; [done|done|]. eexists. split; [done|]. by eapply Hcl.
      * right. split; [done|]. exists evs, now, cid, ev, [], e. rewrite Hr, Herr', Herr. done.
  - intros ps w Hs. split.
    + unfold srun. simpl. unfold pstep.
      destruct (p_proc ps) as [| |[|n]|c] eqn:Hp; simpl in *; rewrite ?Hp in Hs; simpl in Hs; congruence.
    + intros t cid ev e Hd Hc. simpl. rewrite Hs, bool_decide_eq_true_2 by done. simpl. rewrite Hc.
      unfold pstep. destruct (p_proc ps) as [| |[|n]|] eqn:Hp; simpl in *; rewrite ?Hp in Hs; simpl in Hs; congruence.
Qed.
