(* ===== verification/Isolation.v ===== *)
(** * Room scoping: an in-game event stays inside its room

    The in-game events (chat, spawn, move, death, powerups, bombs, map
    reset) are room-scoped (spec §4.4): each handler resolves [this.room]
    and works on that room only.  [confined rid r me w w' ms] is the
    footprint of such a run in room [rid] (as [r] was when the event
    arrived), sent by the player [me]:
    - no other room object changes;
    - no player object changes except the sender's and those of [r]'s
      members (a death or lost-invincibility report names a member by its
      roster slot);
    - the rooms and players arrays, the socket table and the room-id
      counter stay as they are;
    - every message goes to a member of [r].
    [room_scoping] proves it of every in-game event, and that without a
    room such an event does nothing at all. *)

From S2P Require Import Prelude JsArray Player MapState Room Wire Registry Lifecycle Gameplay Server.

(** The in-game events. *)
Definition room_event (ev : Event) : bool :=
  match ev with
  | EvChat _ | EvSpawn _ | EvMove _ | EvDeath _ | EvCollect _ | EvLostInv _ | EvPlant _
  | EvExplode _ | EvBlink _ | EvDisappear _ | EvMapReset => true
  | _ => false
  end.

Section Confined.
Variables (rid : nat) (r : Room) (me : option string).

Definition to_member (m : msg) : Prop := m_to m ∈ members (r_players r).

Definition confined (w w' : World) (ms : list msg) : Prop :=
  (forall x, x <> rid -> w_rooms w' !! x = w_rooms w !! x) /\
  (forall q, q ∉ members (r_players r) -> me <> Some q -> w_players w' !! q = w_players w !! q) /\
  w_rlist w' = w_rlist w /\ w_plist w' = w_plist w /\ w_socks w' = w_socks w /\
  w_next_room w' = w_next_room w /\ Forall to_member ms.

Lemma confined_refl w : confined w w [].
Proof. by split_and!. Qed.

Lemma confined_put w w1 r' : confined w w1 [] -> confined w (put_room w1 rid r') [].
Proof.
  intros (Hr & Hp & Hl & Hpl & Hs & Hn & _). split_and!; try done.
  intros x Hx. simpl. by rewrite lookup_insert_ne, Hr by congruence.
Qed.

Lemma confined_pstore w w1 ps :
  confined w w1 [] ->
  (forall q, q ∉ members (r_players r) -> me <> Some q -> ps !! q = w_players w1 !! q) ->
  confined w (set_pstore w1 ps) [].
Proof.
  intros (Hr & Hp & Hl & Hpl & Hs & Hn & _) Hps. split_and!; try done.
  intros q Hq Hme. simpl. rewrite Hps by done. by apply Hp.
Qed.

(** A write to the sender's player object or to a member's. *)
Lemma alter_outside (f : Player -> Player) (ps : pstore) x :
  (x ∈ members (r_players r) \/ me = Some x) ->
  forall q, q ∉ members (r_players r) -> me <> Some q -> alter f x ps !! q = ps !! q.
Proof. intros Hx q Hq Hme. rewrite lookup_alter_ne; [done|]. intros ->. destruct Hx; auto. Qed.

Lemma confined_alter w w1 f x :
  confined w w1 [] -> (x ∈ members (r_players r) \/ me = Some x) -> confined w (alter_player f x w1) [].
Proof. intros H Hx. apply confined_pstore; [done|]. by apply alter_outside. Qed.

Lemma confined_msgs w w1 ms : confined w w1 [] -> Forall to_member ms -> confined w w1 ms.
Proof. intros (Hr & Hp & Hl & Hpl & Hs & Hn & _) Hms. by split_and!. Qed.

Lemma emitAll_to_member r' ev d : r_players r' = r_players r -> Forall to_member (emitAll r' ev d).
Proof. intros Hp. apply Forall_fmap, Forall_forall. intros c Hc. unfold to_member. simpl. by rewrite <- Hp. Qed.

Lemma emitBroadcast_to_member r' ev d ex : r_players r' = r_players r -> Forall to_member (emitBroadcast r' ev d ex).
Proof.
  intros Hp. apply Forall_fmap, Forall_forall. intros c Hc. apply list_elem_of_filter in Hc as [_ Hc].
  unfold to_member. simpl. by rewrite <- Hp.
Qed.

(** The player a roster slot names is a member. *)
Lemma roster_at_member s q : roster_at r s = Some q -> q ∈ members (r_players r).
Proof.
  unfold roster_at. destruct (zlookup (r_players r) s) as [o|] eqn:E; simpl; [|done].
  intros ->. apply zlookup_Some in E as [_ E]. apply elem_of_members. eauto.
Qed.

(** The player a death report resolves from a slot is a member. *)
Lemma roster_bind_member (ps : pstore) s x p :
  (roster_at r s ≫= fun v => pair v <$> ps !! v) = Some (x, p) -> x ∈ members (r_players r).
Proof.
  destruct (roster_at r s) as [v|] eqn:E; simpl; [|done].
  destruct (ps !! v); simpl; [|done]. intros [= <- _]. by eapply roster_at_member.
Qed.

End Confined.

#[export] Hint Resolve confined_refl confined_put confined_alter roster_at_member : bw.

Ltac member_or_me :=
  first [ right; match goal with H : player_of _ _ = Some (?x, _) |- _ = Some ?x =>
                   exact (proj1 (player_of_Some _ _ _ _ H)) end
        | left; eapply roster_at_member; eassumption ].

Ltac confine :=
  repeat first
    [ apply confined_refl
    | (apply confined_msgs; [|first [apply emitAll_to_member | apply emitBroadcast_to_member];
                              try reflexivity; try (rewrite resetMap_spec; reflexivity);
                              try (simplify_eq/=; reflexivity)])
    | (apply confined_pstore; [apply confined_refl|]; intros ?q ?Hq ?Hme;
       repeat (rewrite lookup_alter_ne; [|intros ->; apply Hq; eapply roster_bind_member; eassumption]);
       reflexivity)
    | apply confined_put
    | (apply confined_alter; [|member_or_me]) ].

Section Scoping.
Context {RM : RoomMethods} {RC : RoomContract}.
Variable tmpl : MapState.

Lemma room_event_confined now cid ev w s rid r w' ms :
  room_event ev = true -> w_socks w !! cid = Some s -> room_of w s = Some (rid, r) ->
  dispatch tmpl now cid ev w = Ok (w', ms) -> confined rid r (s_player s) w w' ms.
Proof.
  intros Hev Hs Hr. destruct ev; try discriminate; simpl; rewrite Hs;
    unfold onChatMessage, onPlayerSpawn, onPlayerMove, onPlayerDeath, onPlayerCollectPowerup,
      onPlayerLostInvicibility, onPlayerPlantBomb, onBombExplode, onPowerupBlink, onPowerupDisappear,
      onMapReset, mbind, outcome_bind, deref; rewrite Hr;
    repeat (simpl; case_match); intros [= <- <-]; confine.
Qed.

(** Without a room, an in-game event changes nothing and says nothing. *)
Lemma room_event_no_room now cid ev w s :
  room_event ev = true -> w_socks w !! cid = Some s -> s_room s = None ->
  dispatch tmpl now cid ev w = Ok (w, []).
Proof.
  intros Hev Hs Hsr. assert (Hr : room_of w s = None) by (unfold room_of; by rewrite Hsr).
  destruct ev; try discriminate; simpl; rewrite Hs;
    unfold onChatMessage, onPlayerSpawn, onPlayerMove, onPlayerDeath, onPlayerCollectPowerup,
      onPlayerLostInvicibility, onPlayerPlantBomb, onBombExplode, onPowerupBlink, onPowerupDisappear,
      onMapReset; rewrite Hr; by destruct (player_of w s) as [[]|].
Qed.

(** C12: in-game events are room-scoped.  From a live socket bound to no
    room, such an event is a silent no-op: no state change, no message, no
    crash, whatever the payload.  From a socket in room [rid], a successful
    run changes no other room, no player object but the sender's and those
    of the room's members, neither array, the socket table nor the room-id
    counter, and sends messages to members of the room only. *)
Theorem room_scoping now cid ev w s :
  room_event ev = true -> w_socks w !! cid = Some s ->
  (s_room s = None -> dispatch tmpl now cid ev w = Ok (w, [])) /\
  (forall rid r w' ms, room_of w s = Some (rid, r) -> dispatch tmpl now cid ev w = Ok (w', ms) ->
     confined rid r (s_player s) w w' ms).
Proof.
  intros Hev Hs. split; [by apply room_event_no_room|]. intros rid r w' ms. by apply room_event_confined.
Qed.

End Scoping.
