(* ===== verification/Invariants.v ===== *)
(** * Invariants of every reachable world

    [wf] collects what holds of every world a run of the server reaches:
    - the rooms array has no duplicates and names existing room objects;
    - room ids are allocated fresh ([w_next_room] is above every id);
    - every room has one roster slot per spawn point of the template, so
      no room ever holds more players than its capacity;
    - a room's host is a member of its roster (an empty room has no host);
    - a live socket is bound to its own player object and, when it is in a
      room, to an existing room object.
    [plist_ok] adds that the players array lists each connected client
    exactly once; it needs the transport's guarantee that connection ids
    are fresh ([deliverable]).
    [wf] holds of the empty world and every [step] preserves it; the proof
    goes handler by handler, the gameplay handlers only through
    [wf_put_room] and [wf_set_pstore] since they never touch a roster or a
    host pointer. *)

From S2P Require Import Prelude JsArray Player MapState Room Wire Registry Lifecycle Gameplay Server.

Section Invariants.
Context {RM : RoomMethods} {RC : RoomContract}.
Variable tmpl : MapState.

(** A room's capacity: one roster slot per spawn point of the template. *)
Definition capacity : nat := length (m_spawn_order tmpl).

(** The host, if any, is one of the room's members. *)
Definition host_seated (r : Room) : Prop := forall h, r_host r = Some h -> h ∈ members (r_players r).

(** A room object is well formed: capacity-wide roster, host among members. *)
Definition room_ok (r : Room) : Prop := length (r_players r) = capacity /\ host_seated r.

Record wf (w : World) : Prop := {
  wf_rlist_nodup : NoDup (w_rlist w);
  wf_rlist_rooms : forall rid, rid ∈ w_rlist w -> is_Some (w_rooms w !! rid);
  wf_fresh : forall rid, is_Some (w_rooms w !! rid) -> (rid < w_next_room w)%nat;
  wf_rooms : forall rid r, w_rooms w !! rid = Some r -> room_ok r;
  wf_socks : forall cid s, w_socks w !! cid = Some s ->
    s_player s = Some cid /\ is_Some (w_players w !! cid) /\
    forall rid, s_room s = Some rid -> is_Some (w_rooms w !! rid)
}.

(** ** Building blocks *)

Lemma wf_init : wf init_world.
Proof.
  split; simpl.
  - constructor.
  - intros rid Hin. by apply elem_of_nil in Hin.
  - intros rid [? H]. by rewrite lookup_empty in H.
  - intros rid r H. by rewrite lookup_empty in H.
  - intros cid s H. by rewrite lookup_empty in H.
Qed.

Lemma room_ok_same_roster r r' :
  r_players r' = r_players r -> r_host r' = r_host r -> room_ok r -> room_ok r'.
Proof. intros Hp Hh [Hl Hm]. split; [by rewrite Hp|]. intros h. rewrite Hp, Hh. apply Hm. Qed.

Lemma wf_put_room w rid r :
  wf w -> is_Some (w_rooms w !! rid) -> room_ok r -> wf (put_room w rid r).
Proof.
  intros [Hnd Hin Hfr Hrm Hsk] Hex Hok. split; simpl; [done| | | |].
  - intros x Hx. destruct (decide (x = rid)) as [->|]; [by rewrite lookup_insert_eq|].
    rewrite lookup_insert_ne by done. by apply Hin.
  - intros x Hx. destruct (decide (x = rid)) as [->|]; [by apply Hfr|].
    rewrite lookup_insert_ne in Hx by done. by apply Hfr.
  - intros x r' Hx. destruct (decide (x = rid)) as [->|].
    + rewrite lookup_insert_eq in Hx. by injection Hx as <-.
    + rewrite lookup_insert_ne in Hx by done. by eapply Hrm.
  - intros cid s Hs. destruct (Hsk cid s Hs) as (Hp & Hpl & Hr). split_and!; [done..|].
    intros x Hx. destruct (decide (x = rid)) as [->|]; [by rewrite lookup_insert_eq|].
    rewrite lookup_insert_ne by done. by apply Hr.
Qed.

Lemma wf_set_pstore w ps :
  wf w -> (forall cid, is_Some (w_players w !! cid) -> is_Some (ps !! cid)) -> wf (set_pstore w ps).
Proof.
  intros [Hnd Hin Hfr Hrm Hsk] Hps. split; simpl; try done.
  intros cid s Hs. destruct (Hsk cid s Hs) as (Hp & Hpl & Hr). split_and!; auto.
Qed.

Lemma alter_keeps_players (f : Player -> Player) (ps : pstore) pid cid :
  is_Some (ps !! cid) -> is_Some (alter f pid ps !! cid).
Proof.
  intros [p Hp]. destruct (decide (pid = cid)) as [->|].
  - rewrite lookup_alter_eq, Hp. by eexists.
  - rewrite lookup_alter_ne by done. by eexists.
Qed.

Lemma wf_alter_player w f pid : wf w -> wf (alter_player f pid w).
Proof. intros Hw. apply wf_set_pstore; [done|]. intros cid. apply alter_keeps_players. Qed.

Lemma room_of_ok w s rid r : wf w -> room_of w s = Some (rid, r) -> is_Some (w_rooms w !! rid) /\ room_ok r.
Proof.
  intros Hw Hr. apply room_of_Some in Hr as [_ Hr]. split; [by eexists|].
  by eapply wf_rooms.
Qed.

(** ** The gameplay handlers keep the world well formed *)

Ltac room_same := eapply room_ok_same_roster; [reflexivity | reflexivity | eassumption].

Lemma onChatMessage_wf cid s text w : wf w -> wf (onChatMessage cid s text w).1.
Proof.
  unfold onChatMessage. intros Hw.
  destruct (player_of w s) as [[pid p]|], (room_of w s) as [[rid r]|]; simpl; auto using wf_alter_player.
Qed.

Lemma onPlayerSpawn_wf now s d w w' ms : wf w -> onPlayerSpawn now s d w = Ok (w', ms) -> wf w'.
Proof.
  unfold onPlayerSpawn. intros Hw.
  destruct (player_of w s) as [[pid p]|], (room_of w s) as [[rid r]|] eqn:Hr;
    try (intros [= <- _]; done).
  destruct (room_of_ok w s rid r Hw Hr) as [Hex Hok].
  destruct d; simpl; [|discriminate].
  destruct (m_spawn_order (r_map r) !! next_spawn_index r); simpl; [|discriminate].
  intros [= <- _]. apply wf_put_room; [by apply wf_alter_player|done|room_same].
Qed.

Lemma onPlayerMove_wf cid s d w w' ms : wf w -> onPlayerMove cid s d w = Ok (w', ms) -> wf w'.
Proof.
  unfold onPlayerMove. intros Hw.
  destruct (player_of w s) as [[pid p]|], (room_of w s) as [[rid r]|]; try (intros [= <- _]; done).
  destruct (p_is_dead p); [intros [= <- _]; done|].
  destruct d; simpl; [|discriminate]. intros [= <- _]. by apply wf_alter_player.
Qed.

Lemma onPlayerDeath_wf s d w w' ms : wf w -> onPlayerDeath s d w = Ok (w', ms) -> wf w'.
Proof.
  unfold onPlayerDeath. intros Hw.
  destruct (room_of w s) as [[rid r]|]; [|intros [= <- _]; done].
  destruct d as [data|]; simpl; [|discriminate].
  repeat case_match; intros [= <- _]; try done.
  all: apply wf_set_pstore; [done|]; intros cid Hc; by repeat apply alter_keeps_players.
Qed.

Lemma onPlayerCollectPowerup_wf now s d w w' ms :
  wf w -> onPlayerCollectPowerup now s d w = Ok (w', ms) -> wf w'.
Proof.
  unfold onPlayerCollectPowerup. intros Hw.
  destruct (player_of w s) as [[pid p]|], (room_of w s) as [[rid r]|] eqn:Hr;
    try (intros [= <- _]; done).
  destruct (room_of_ok w s rid r Hw Hr) as [Hex Hok].
  destruct d; simpl; [|discriminate]. intros [= <- _].
  assert (Hw1 : wf (put_room w rid (room_layers r (update_first "powerups"
             (fun a => js_set a (cell_index (r_map r) (c_col c) (c_row c)) 0) (m_layers (r_map r))))))
    by (apply wf_put_room; [done|done|room_same]).
  destruct (String.eqb _ _); [by apply wf_alter_player|done].
Qed.

Lemma onPlayerLostInvicibility_wf s d w w' ms :
  wf w -> onPlayerLostInvicibility s d w = Ok (w', ms) -> wf w'.
Proof.
  unfold onPlayerLostInvicibility. intros Hw.
  destruct (room_of w s) as [[rid r]|]; [|intros [= <- _]; done].
  destruct d; simpl; [|discriminate]. intros [= <- _].
  destruct (roster_at r _); [by apply wf_alter_player|done].
Qed.

Lemma onPlayerPlantBomb_wf now s d w w' ms :
  wf w -> onPlayerPlantBomb now s d w = Ok (w', ms) -> wf w'.
Proof.
  unfold onPlayerPlantBomb. intros Hw.
  destruct (room_of w s) as [[rid r]|] eqn:Hr; [|intros [= <- _]; done].
  destruct (room_of_ok w s rid r Hw Hr) as [Hex Hok].
  destruct d; simpl; [|discriminate].
  destruct (roster_at r _); [|intros [= <- _]; done].
  destruct (plant_layers _ _ _); [|intros [= <- _]; done].
  intros [= <- _]. apply wf_put_room; [done|done|room_same].
Qed.

Lemma onBombExplode_wf now s d w w' ms : wf w -> onBombExplode now s d w = Ok (w', ms) -> wf w'.
Proof.
  unfold onBombExplode. intros Hw.
  destruct (room_of w s) as [[rid r]|] eqn:Hr; [|intros [= <- _]; done].
  destruct (room_of_ok w s rid r Hw Hr) as [Hex Hok].
  destruct d; simpl; [|discriminate]. intros [= <- _].
  apply wf_put_room; [done|done|].
  repeat case_match; first [room_same | done].
Qed.

Lemma onPowerupDisappear_wf s d w w' ms : wf w -> onPowerupDisappear s d w = Ok (w', ms) -> wf w'.
Proof.
  unfold onPowerupDisappear. intros Hw.
  destruct (room_of w s) as [[rid r]|] eqn:Hr; [|intros [= <- _]; done].
  destruct (room_of_ok w s rid r Hw Hr) as [Hex Hok].
  destruct (existsb _ _); simpl.
  - destruct d; simpl; [|discriminate]. intros [= <- _]. apply wf_put_room; [done|done|room_same].
  - intros [= <- _]. by apply wf_put_room.
Qed.

Lemma onMapReset_wf s w : wf w -> wf (onMapReset tmpl s w).1.
Proof.
  unfold onMapReset. intros Hw.
  destruct (room_of w s) as [[rid r]|] eqn:Hr; simpl; [|done].
  destruct (room_of_ok w s rid r Hw Hr) as [Hex Hok].
  apply wf_put_room; [done|done|]. rewrite resetMap_spec. room_same.
Qed.

(** ** Rooms stay well formed under the Room methods the engine calls *)

Lemma room_ok_select r ps : room_ok r -> room_ok (select_host r ps).1.
Proof.
  intros [Hl Hm]. destruct (select_host_spec r ps) as [-> Hc]. split; [done|].
  unfold host_seated. simpl. intros h Hh. rewrite Hh in Hc. by destruct Hc.
Qed.

Lemma room_ok_rc r t : room_ok r -> room_ok (with_rc_timestamp r t).
Proof. intros. room_same. Qed.

Lemma members_insert_grow (l : list (option string)) sr o x :
  l !! sr = Some None -> x ∈ members l -> x ∈ members (<[sr:=o]> l).
Proof.
  intros Hsr Hx. apply elem_of_members in Hx as [j Hj]. apply elem_of_members. exists j.
  rewrite list_lookup_insert_ne; [done|]. intros ->. congruence.
Qed.

Lemma insert_keeps r ps pid r1 ps2 c :
  insertPlayer r ps pid = (r1, ps2) -> is_Some (ps !! c) -> is_Some (ps2 !! c).
Proof.
  rewrite insertPlayer_spec. destruct (first_free r); intros [= <- <-]; [|done].
  apply alter_keeps_players.
Qed.

Lemma room_ok_insert r ps pid r1 ps2 :
  room_ok r -> insertPlayer r ps pid = (r1, ps2) ->
  room_ok r1 /\ forall c, is_Some (ps !! c) -> is_Some (ps2 !! c).
Proof.
  intros [Hl Hm]. rewrite insertPlayer_spec.
  destruct (first_free r) as [sr|] eqn:Hff; intros [= <- <-]; [|done].
  apply first_free_Some in Hff. split; [split|].
  - simpl. by rewrite length_insert.
  - intros h Hh. by apply members_insert_grow, Hm.
  - intros c. apply alter_keeps_players.
Qed.

Lemma room_ok_exclude r ps pid :
  room_ok r -> (forall h, r_host r = Some h -> h <> pid) -> room_ok (excludePlayer r ps pid).
Proof.
  intros [Hl Hm] Hne. rewrite excludePlayer_spec.
  destruct (ps !! pid ≫= p_serial) as [sr|]; [|done].
  case_bool_decide as Hslot; [|done]. split.
  - simpl. by rewrite length_insert.
  - unfold host_seated. simpl. intros h Hh. pose proof (Hm h Hh) as Hx.
    apply elem_of_members in Hx as [j Hj]. apply elem_of_members. exists j.
    rewrite list_lookup_insert_ne; [done|]. intros ->. rewrite Hslot in Hj.
    injection Hj as ->. by apply (Hne h).
Qed.

Lemma room_ok_scrub t r : room_ok r -> room_ok (scrub_bombs t r).
Proof. intros. room_same. Qed.

(** After the host reset of a disconnect the room is well formed and its
    host, if any, is not the leaver. *)
Lemma host_leave_ok now pid r ps ps1 r1 hm :
  room_ok r -> host_leave now pid r ps = (ps1, r1, hm) ->
  room_ok r1 /\ (forall h, r_host r1 = Some h -> h <> pid) /\
  forall c, is_Some (ps !! c) -> is_Some (ps1 !! c).
Proof.
  intros Hok Hh. unfold host_leave in Hh. destruct (isHost r pid) eqn:Hih.
  - destruct (select_host _ _) as [r' hm'] eqn:E. injection Hh as <- <- <-.
    pose proof (room_ok_select (with_rc_timestamp r now) (alter (set_active false) pid ps)
                  (room_ok_rc r now Hok)) as Hok'.
    rewrite E in Hok'. simpl in Hok'.
    destruct (select_host_spec (with_rc_timestamp r now) (alter (set_active false) pid ps)) as [Hr Hc].
    rewrite E in Hr. simpl in Hr. subst r'. split_and!; [done| |intros c; apply alter_keeps_players].
    simpl. intros h Hh ->. rewrite Hh in Hc. destruct Hc as [_ Ha].
    unfold active_in in Ha. rewrite lookup_alter_eq in Ha. by destruct (ps !! pid).
  - injection Hh as <- <- <-. split_and!; [done| |done].
    intros h Hh ->. rewrite isHost_spec, bool_decide_eq_false in Hih. done.
Qed.

(** ** The lifecycle handlers keep the world well formed *)

Lemma onClientConnect_wf cid w : wf w -> wf (onClientConnect cid w).1.
Proof.
  intros [Hnd Hin Hfr Hrm Hsk]. split; simpl; try done.
  intros c s Hs. destruct (decide (c = cid)) as [->|Hne].
  - rewrite lookup_insert_eq in Hs. injection Hs as <-. simpl.
    split_and!; [done|by rewrite lookup_insert_eq|done].
  - rewrite lookup_insert_ne in Hs by done. destruct (Hsk c s Hs) as (Hp & Hpl & Hr).
    split_and!; [done| |done]. by rewrite lookup_insert_ne.
Qed.

Lemma wf_rlist_Forall w : wf w -> Forall (fun rid => is_Some (w_rooms w !! rid)) (w_rlist w).
Proof. intros Hw. apply Forall_forall. intros x Hx. by apply (wf_rlist_rooms _ Hw). Qed.

Lemma find_or_create_wf w rid r w1 :
  wf w -> find_or_create tmpl w = Ok (rid, r, w1) ->
  wf w1 /\ w_rooms w1 !! rid = Some r /\ w_players w1 = w_players w /\ w_socks w1 = w_socks w.
Proof.
  intros Hw Hf. pose proof Hw as [Hnd Hin Hfr Hrm Hsk].
  destruct (find_or_create_spec tmpl w (wf_rlist_Forall w Hw)) as [(rid' & r' & _ & Hr' & _ & Hfc) | (_ & Hfc)];
    rewrite Hfc in Hf; injection Hf as <- <- <-; [done|].
  assert (Hnew : w_rooms w !! w_next_room w = None).
  { destruct (w_rooms w !! w_next_room w) eqn:E; [|done]. exfalso.
    assert (Hlt : (w_next_room w < w_next_room w)%nat) by (apply Hfr; by eexists). lia. }
  split_and!; [split| |done|done]; simpl.
  - apply NoDup_app. split_and!; [done| |by apply NoDup_singleton].
    intros x Hx ->%list_elem_of_singleton. apply Hin in Hx. by rewrite Hnew in Hx.
  - intros x Hx. apply elem_of_app in Hx as [Hx| ->%list_elem_of_singleton].
    + destruct (decide (x = w_next_room w)) as [->|]; [by rewrite lookup_insert_eq|].
      rewrite lookup_insert_ne by done. by apply Hin.
    + by rewrite lookup_insert_eq.
  - intros x Hx. destruct (decide (x = w_next_room w)) as [->|]; [lia|].
    rewrite lookup_insert_ne in Hx by done. apply Hfr in Hx. lia.
  - intros x r' Hx. destruct (decide (x = w_next_room w)) as [->|].
    + rewrite lookup_insert_eq in Hx. injection Hx as <-. rewrite new_Room_spec.
      split; simpl; [by rewrite length_replicate|done].
    + rewrite lookup_insert_ne in Hx by done. by eapply Hrm.
  - intros c s Hs. destruct (Hsk c s Hs) as (Hp & Hpl & Hr). split_and!; [done..|].
    intros x Hx. destruct (decide (x = w_next_room w)) as [->|]; [by rewrite lookup_insert_eq|].
    rewrite lookup_insert_ne by done. by apply Hr.
  - by rewrite lookup_insert_eq.
Qed.

Lemma wf_bind_sock w cid s rid :
  wf w -> w_socks w !! cid = Some s -> is_Some (w_rooms w !! rid) ->
  wf (set_socks w (<[cid:={| s_player := s_player s; s_room := Some rid |}]> (w_socks w))).
Proof.
  intros [Hnd Hin Hfr Hrm Hsk] Hs Hex. split; simpl; try done.
  intros c s' Hs'. destruct (decide (c = cid)) as [->|Hne].
  - rewrite lookup_insert_eq in Hs'. injection Hs' as <-. simpl.
    destruct (Hsk cid s Hs) as (Hp & Hpl & _). split_and!; [done|done|by intros ? [= <-]].
  - rewrite lookup_insert_ne in Hs' by done. by apply Hsk.
Qed.

Lemma wf_delete_sock w cid : wf w -> wf (set_socks w (delete cid (w_socks w))).
Proof.
  intros [Hnd Hin Hfr Hrm Hsk]. split; simpl; try done.
  intros c s Hs. apply lookup_delete_Some in Hs as [_ Hs]. by apply Hsk.
Qed.

Lemma wf_set_plist w l : wf w -> wf (set_plist w l).
Proof. intros [Hnd Hin Hfr Hrm Hsk]. by split. Qed.

Lemma wf_set_rlist w l :
  wf w -> NoDup l -> (forall x, x ∈ l -> x ∈ w_rlist w) -> wf (set_rlist w l).
Proof. intros [Hnd Hin Hfr Hrm Hsk] Hl Hsub. split; simpl; auto. Qed.

Lemma join_room_wf rnd cid s pid cd rid r w1 w' ms :
  wf w1 -> w_rooms w1 !! rid = Some r -> w_socks w1 !! cid = Some s ->
  join_room rnd cid s pid cd rid r w1 = Ok (w', ms) -> wf w'.
Proof.
  unfold join_room. intros Hw Hr Hs.
  destruct (insertPlayer r _ pid) as [r1 ps2] eqn:Hins.
  destruct (room_ok_insert r _ pid r1 ps2 (wf_rooms _ Hw _ _ Hr) Hins) as [Hok1 Hkeep].
  assert (Hjoin : forall r2, room_ok r2 ->
    wf (set_socks (put_room (set_pstore w1 ps2) rid r2)
          (<[cid:={| s_player := s_player s; s_room := Some rid |}]> (w_socks w1)))).
  { intros r2 Hok2. apply (wf_bind_sock (put_room (set_pstore w1 ps2) rid r2)); [|done|].
    - apply wf_put_room; [|by eexists|done]. apply wf_set_pstore; [done|].
      intros c Hc. apply Hkeep. by apply alter_keeps_players.
    - simpl. by rewrite lookup_insert_eq. }
  destruct (hasHost r1 ps2); simpl.
  - destruct (ps2 !! pid); simpl; [|discriminate]. intros [= <- _]. by apply Hjoin.
  - pose proof (room_ok_select r1 ps2 Hok1) as Hok2.
    destruct (select_host r1 ps2) as [r2 hm]. simpl in Hok2.
    destruct (ps2 !! pid); simpl; [|discriminate]. intros [= <- _]. by apply Hjoin.
Qed.

Lemma onRoomRequest_wf rnd cid s d w w' ms :
  wf w -> w_socks w !! cid = Some s -> onRoomRequest tmpl rnd cid s d w = Ok (w', ms) -> wf w'.
Proof.
  unfold onRoomRequest. intros Hw Hs.
  destruct (s_player s) as [pid|]; simpl; [|discriminate].
  destruct (find_or_create tmpl w) as [[[rid r] w1]|] eqn:Hf; simpl; [|discriminate].
  destruct d as [cd|]; simpl; [|discriminate].
  apply find_or_create_wf in Hf as (Hw1 & Hr & _ & Hs1); [|done].
  apply join_room_wf; [done|done|]. by rewrite Hs1.
Qed.

Lemma onClientDisconnect_wf now cid s w w' ms :
  wf w -> onClientDisconnect now cid s w = Ok (w', ms) -> wf w'.
Proof.
  unfold onClientDisconnect. intros Hw.
  pose proof (wf_set_plist w (remove_player cid (w_plist w)) Hw) as Hw1.
  destruct (room_of w s) as [[rid r]|] eqn:Hr; simpl; [|by intros [= <- _]].
  destruct (room_of_ok w s rid r Hw Hr) as [Hex Hok].
  destruct (s_player s) as [pid|]; simpl; [|discriminate].
  destruct (host_leave now pid r _) as [[ps1 r1] hm] eqn:Hh.
  destruct (host_leave_ok _ _ _ _ _ _ _ Hok Hh) as (Hok1 & Hne & Hkeep).
  destruct (ps1 !! pid) as [p|]; simpl; [|discriminate]. intros [= <- _].
  set (w2 := put_room _ rid _).
  assert (Hw2 : wf w2).
  { apply wf_put_room; [by apply wf_set_pstore|exact Hex|].
    apply room_ok_exclude; [by apply room_ok_scrub|exact Hne]. }
  destruct (isEmpty _); [|done].
  destruct (swap_remove_sub (w_rlist w2) (index_of rid (w_rlist w2)) (wf_rlist_nodup _ Hw2)).
  by apply wf_set_rlist.
Qed.

Lemma onPlayerUnavailable_wf now s w : wf w -> wf (onPlayerUnavailable now s w).1.
Proof.
  unfold onPlayerUnavailable. intros Hw. destruct (s_player s) as [pid|]; [|done].
  pose proof (wf_alter_player w (set_active false) pid Hw) as Hw1.
  destruct (room_of _ s) as [[rid r]|] eqn:Hr; [|done].
  destruct (room_of_ok _ s rid r Hw1 Hr) as [Hex Hok].
  destruct (isHost r pid); [|done].
  pose proof (room_ok_select _ (w_players (alter_player (set_active false) pid w))
                (room_ok_rc r now Hok)) as Hok'.
  destruct (select_host _ _) as [r1 hm]. by apply wf_put_room.
Qed.

Lemma onPlayerAvailable_wf s w : wf w -> wf (onPlayerAvailable s w).1.
Proof.
  unfold onPlayerAvailable. intros Hw. destruct (s_player s) as [pid|]; [|done].
  pose proof (wf_alter_player w (set_active true) pid Hw) as Hw1.
  destruct (room_of _ s) as [[rid r]|] eqn:Hr; [|done].
  destruct (room_of_ok _ s rid r Hw1 Hr) as [Hex Hok].
  destruct (hasHost r _); [done|].
  pose proof (room_ok_select r (w_players (alter_player (set_active true) pid w)) Hok) as Hok'.
  destruct (select_host _ _) as [r1 hm]. by apply wf_put_room.
Qed.

(** ** Every event preserves the invariant *)

Lemma dispatch_wf now cid ev w w' ms : wf w -> dispatch tmpl now cid ev w = Ok (w', ms) -> wf w'.
Proof.
  intros Hw. destruct ev; simpl.
  { intros [= HX]. change w' with (w', ms).1. rewrite <- HX. by apply onClientConnect_wf. }
  all: destruct (w_socks w !! cid) as [s|] eqn:Hs; [|by intros [= <- _]].
  all: try (intros Hd; first [
      (eapply onRoomRequest_wf; eassumption) |
      (eapply onPlayerSpawn_wf; eassumption) |
      (eapply onPlayerMove_wf; eassumption) |
      (eapply onPlayerDeath_wf; eassumption) |
      (eapply onPlayerCollectPowerup_wf; eassumption) |
      (eapply onPlayerLostInvicibility_wf; eassumption) |
      (eapply onPlayerPlantBomb_wf; eassumption) |
      (eapply onBombExplode_wf; eassumption) |
      (eapply onPowerupDisappear_wf; eassumption)]).
  all: try (intros [= HX]; change w' with (w', ms).1; rewrite <- HX;
    first [(apply onChatMessage_wf; assumption) | (apply onPlayerAvailable_wf; assumption) | (apply onPlayerUnavailable_wf; assumption) | (apply onMapReset_wf; assumption)]).
  - destruct (onClientDisconnect now cid s w) as [[w1 ms1]|] eqn:Hd; simpl; [|discriminate].
    intros [= <- _]. apply wf_delete_sock. by eapply onClientDisconnect_wf.
  - unfold onPowerupBlink. destruct (room_of w s) as [[]|]; by intros [= <- _].
  - destruct d; simpl; [|discriminate]. by intros [= <- _].
Qed.

(** Only connect, disconnect and room requests touch the players array or
    the socket table. *)
Lemma dispatch_frame now cid ev w w' ms :
  match ev with EvConnect | EvDisconnect | EvRoomRequest _ _ => False | _ => True end ->
  dispatch tmpl now cid ev w = Ok (w', ms) -> w_plist w' = w_plist w /\ w_socks w' = w_socks w.
Proof.
  intros Hev. destruct ev; try done; simpl; (destruct (w_socks w !! cid) as [s|]; [|by intros [= <- _]]);
    unfold onChatMessage, onPlayerAvailable, onPlayerUnavailable, onPlayerSpawn, onPlayerMove,
      onPlayerDeath, onPlayerCollectPowerup, onPlayerLostInvicibility, onPlayerPlantBomb,
      onBombExplode, onPowerupBlink, onPowerupDisappear, onMapReset;
    unfold mbind, outcome_bind, deref; repeat (simpl; case_match); by intros [= <- _].
Qed.

(** ** The players array lists the connected clients *)

Definition plist_ok (w : World) : Prop :=
  NoDup (w_plist w) /\ forall c, c ∈ w_plist w <-> is_Some (w_socks w !! c).

Lemma onClientDisconnect_frame now cid s w w' ms :
  onClientDisconnect now cid s w = Ok (w', ms) ->
  w_plist w' = remove_player cid (w_plist w) /\ w_socks w' = w_socks w.
Proof.
  unfold onClientDisconnect. destruct (room_of w s) as [[rid r]|]; simpl; [|by intros [= <- _]].
  destruct (s_player s) as [pid|]; simpl; [|discriminate].
  destruct (host_leave now pid r _) as [[ps1 r1] hm].
  destruct (ps1 !! pid); simpl; [|discriminate]. intros [= <- _]. by destruct (isEmpty _).
Qed.

Lemma onRoomRequest_frame rnd cid s d w w' ms :
  onRoomRequest tmpl rnd cid s d w = Ok (w', ms) ->
  w_plist w' = w_plist w /\ forall c, is_Some (w_socks w' !! c) <-> c = cid \/ is_Some (w_socks w !! c).
Proof.
  unfold onRoomRequest. destruct (s_player s) as [pid|]; simpl; [|discriminate].
  destruct (find_or_create tmpl w) as [[[rid r] w1]|] eqn:Hf; simpl; [|discriminate].
  assert (Hw1 : w_plist w1 = w_plist w /\ w_socks w1 = w_socks w).
  { unfold find_or_create in Hf.
    destruct (scan_rooms (w_rooms w) (w_rlist w)) as [[x|]|]; simpl in Hf; [|by injection Hf as <- <- <-|done].
    destruct (w_rooms w !! x); [by injection Hf as <- <- <-|done]. }
  destruct d as [cd|]; simpl; [|discriminate]. unfold join_room.
  destruct (insertPlayer r _ pid) as [r1 ps2].
  destruct (if hasHost r1 ps2 then (r1, []) else select_host r1 ps2) as [r2 hm].
  destruct (ps2 !! pid); simpl; [|discriminate]. intros [= <- _]. simpl.
  destruct Hw1 as [-> ->]. split; [done|]. intros c. rewrite lookup_insert_is_Some.
  destruct (decide (cid = c)); naive_solver.
Qed.

Lemma dispatch_plist now cid ev w w' ms :
  plist_ok w -> deliverable cid ev w -> dispatch tmpl now cid ev w = Ok (w', ms) -> plist_ok w'.
Proof.
  intros [Hnd Hiff] Hdl. destruct ev.
  4-17: intros Hd; apply dispatch_frame in Hd as [Hp Hs]; [unfold plist_ok; rewrite Hp, Hs; by split|exact I].
  - destruct Hdl as [Hs _]. simpl. intros [= HX]. change w' with (w', ms).1. rewrite <- HX.
    unfold plist_ok. simpl.
    assert (Hc : cid ∉ w_plist w) by (rewrite Hiff, Hs; apply is_Some_None).
    split.
    + apply NoDup_app. split_and!; [done| |apply NoDup_singleton].
      by intros x Hx ->%list_elem_of_singleton.
    + intros c. rewrite elem_of_app, list_elem_of_singleton, lookup_insert_is_Some, Hiff.
      destruct (decide (cid = c)); naive_solver.
  - simpl. destruct (w_socks w !! cid) as [s|] eqn:Hs; [|by intros [= <- _]].
    destruct (onClientDisconnect now cid s w) as [[w1 ms1]|] eqn:Hd; simpl; [|discriminate].
    intros [= <- _]. apply onClientDisconnect_frame in Hd as [Hpl Hsk]. unfold plist_ok. simpl. rewrite Hpl, Hsk.
    destruct (remove_player_spec cid (w_plist w) Hnd) as [Hnd' Hin]. split; [done|].
    intros c. rewrite Hin, lookup_delete_is_Some, Hiff. naive_solver.
  - simpl. destruct (w_socks w !! cid) as [s|] eqn:Hs; [|by intros [= <- _]].
    intros Hd. apply onRoomRequest_frame in Hd as [Hpl Hsk]. unfold plist_ok. rewrite Hpl. split; [done|].
    intros c. rewrite Hsk, Hiff. split; [by right|]. intros [->|?]; [by rewrite Hs|done].
Qed.

Lemma reachable_wf w : reachable tmpl w -> wf w.
Proof. apply reachable_ind; [apply wf_init|]. intros. by eapply dispatch_wf. Qed.


Lemma join_room_total rnd cid s pid cd rid r w1 :
  is_Some (w_players w1 !! pid) -> exists w' ms, join_room rnd cid s pid cd rid r w1 = Ok (w', ms).
Proof.
  unfold join_room. intros Hp. destruct (insertPlayer r _ pid) as [r1 ps2] eqn:Hins.
  destruct (insert_keeps _ _ _ _ _ pid Hins (alter_keeps_players _ _ _ _ Hp)) as [p Hp2].
  destruct (hasHost r1 ps2); [|destruct (select_host r1 ps2)]; simpl; rewrite Hp2; simpl; eauto.
Qed.

(** ** What the invariant gives *)

(** C17: every reachable world is well formed ([wf]): the rooms array has
    no duplicate and every entry is a room object, room ids are fresh,
    every room object is [room_ok], and every live socket is bound to its
    own player object and, when in a room, to an existing room object. *)
Theorem reachable_registry w : reachable tmpl w -> wf w.
Proof. apply reachable_ind; [apply wf_init|]. intros. by eapply dispatch_wf. Qed.

(** A room request with its payload from a live socket of a reachable
    world succeeds and leaves a well-formed world. *)
Lemma reachable_room_request_succeeds w rnd cid s cd :
  reachable tmpl w -> w_socks w !! cid = Some s ->
  exists w' ms, onRoomRequest tmpl rnd cid s (Some cd) w = Ok (w', ms) /\ wf w'.
Proof.
  intros Hr Hs. pose proof (reachable_wf w Hr) as Hw.
  destruct (wf_socks _ Hw _ _ Hs) as (Hp & Hpl & _).
  assert (Hok : exists w' ms, onRoomRequest tmpl rnd cid s (Some cd) w = Ok (w', ms)).
  { unfold onRoomRequest. rewrite Hp. simpl.
    destruct (find_or_create_spec tmpl w (wf_rlist_Forall w Hw)) as [(? & ? & _ & _ & _ & Hfc) | (_ & Hfc)];
      rewrite Hfc; simpl; by apply join_room_total. }
  destruct Hok as (w' & ms & Hreq). exists w', ms. split; [done|]. by eapply onRoomRequest_wf.
Qed.

(** A disconnect of a live socket of a reachable world succeeds, forgets
    the socket and leaves a well-formed world. *)
Lemma reachable_disconnect_succeeds now cid s w :
  reachable tmpl w -> w_socks w !! cid = Some s ->
  exists w' ms, dispatch tmpl now cid EvDisconnect w = Ok (w', ms) /\ w_socks w' !! cid = None /\ wf w'.
Proof.
  intros Hr Hs. pose proof (reachable_wf w Hr) as Hw.
  destruct (wf_socks _ Hw _ _ Hs) as (Hp & Hpl & _).
  assert (Hok : exists w' ms, dispatch tmpl now cid EvDisconnect w = Ok (w', ms) /\ w_socks w' !! cid = None).
  { simpl. rewrite Hs. unfold onClientDisconnect.
    destruct (room_of w s) as [[rid r]|] eqn:Hro; simpl.
    2: { eexists _, _. split; [reflexivity|]. apply lookup_delete_eq. }
    rewrite Hp. simpl. destruct (host_leave now cid r _) as [[ps1 r1] hm] eqn:Hh.
    destruct (host_leave_ok _ _ _ _ _ _ _ (proj2 (room_of_ok w s rid r Hw Hro)) Hh) as (_ & _ & Hkeep).
    destruct (Hkeep cid Hpl) as [p Hp1]. rewrite Hp1. simpl.
    eexists _, _. split; [reflexivity|]. apply lookup_delete_eq. }
  destruct Hok as (w' & ms & Hd & Hgone). exists w', ms. split_and!; [done|done|]. by eapply dispatch_wf.
Qed.

(** C18: in every reachable world the lifecycle handlers of a live socket
    never crash: a room request that carries its payload succeeds
    (matchmaking only meets existing rooms and the requester's player
    object exists), and a disconnect succeeds and forgets the socket; both
    leave a well-formed world. *)
Theorem reachable_lifecycle_total w rnd now cid s cd :
  reachable tmpl w -> w_socks w !! cid = Some s ->
  (exists w' ms, onRoomRequest tmpl rnd cid s (Some cd) w = Ok (w', ms) /\ wf w') /\
  (exists w' ms, dispatch tmpl now cid EvDisconnect w = Ok (w', ms) /\ w_socks w' !! cid = None /\ wf w').
Proof.
  intros Hr Hs. split; [by apply (reachable_room_request_succeeds w rnd cid s cd)|by apply (reachable_disconnect_succeeds now cid s w)].
Qed.

(** C28: in every reachable world the handler's players array lists every
    connected client exactly once and nothing else ([plist_ok]: connect
    appends, the disconnect's findIndex/splice removes, socket ids are
    never reused). *)
Theorem reachable_players_array w : reachable tmpl w -> plist_ok w.
Proof.
  apply reachable_ind; [|intros; by eapply dispatch_plist].
  split; [constructor|]. intros c. simpl. rewrite lookup_empty. split; [by intros ?%elem_of_nil|by intros []].
Qed.

End Invariants.
