(* ===== verification/Bombs.v ===== *)
(** * The bombs layer encodes occupied roster slots

    The map's "bombs" layer stores, per cell, 0 for no bomb or
    [owner_serial + 1] ([onPlayerPlantBomb], lines 263-270); the disconnect
    handler clears the leaver's [serial + 1] cells before its slot is
    freed (lines 44-52).  This file proves that every reachable world
    keeps the invariant of the specification (§8) on the cells the code's
    loops can see: every array-index cell of the first "bombs" layer that
    is non-zero names, minus one, an occupied roster slot of its room.
    Keys that are not array indices are excluded: a bomb planted there
    survives its owner ([Scenarios.negative_key_bomb_survives_disconnect]).

    The template every room loads must start with such a layer, all
    array cells 0; [template_clear] checks it by computation. *)

From S2P Require Import Prelude JsArray Player MapState Room Wire Registry Lifecycle Gameplay Server.

(** ** The invariant on one array, one list of layers, one room *)

(** Slot [z] of the roster holds a player. *)
Definition occupied (r : Room) (z : Z) : Prop := is_Some (roster_at r z).

(** Every occupied slot of [r] is occupied in [r']. *)
Definition roster_grows (r r' : Room) : Prop := forall z, occupied r z -> occupied r' z.

Definition bomb_cells_ok (r : Room) (a : jsarray) : Prop :=
  js_wf a /\
  forall k v, is_array_index k = true -> js_get a k = Some v -> v <> 0%Z -> occupied r (v - 1).

Definition layers_ok (r : Room) (ls : list Layer) : Prop :=
  forall i l, first_index "bombs" ls = Some i -> ls !! i = Some l -> bomb_cells_ok r (l_data l).

Definition bombs_ok (r : Room) : Prop := layers_ok r (m_layers (r_map r)).

(** The template's first bombs layer: a well-formed array whose array
    cells are all 0. *)
Definition template_clear (m : MapState) : bool :=
  match first_index "bombs" (m_layers m) ≫= (m_layers m !!.) with
  | Some l =>
      bool_decide (0 <= js_length (l_data l))%Z &&
      forallb (fun kv => negb (is_array_index kv.1) || ((kv.1 <? js_length (l_data l)) && (kv.2 =? 0)))%Z
              (map_to_list (js_cells (l_data l)))
  | None => true
  end.

(** ** Layer lookups after the handlers' writes *)

Lemma first_index_names name ls ls' :
  l_name <$> ls = l_name <$> ls' -> first_index name ls = first_index name ls'.
Proof.
  revert ls'. induction ls as [|l ls IH]; intros [|l' ls'] Hn; simpl in *; try done.
  injection Hn as Hl Hn. rewrite Hl, (IH ls' Hn). done.
Qed.

Lemma first_index_update_at name j f ls : first_index name (update_at j f ls) = first_index name ls.
Proof. apply first_index_names, update_at_names. Qed.

Lemma update_at_lookup i j f ls :
  update_at j f ls !! i = if decide (i = j) then update_data f <$> ls !! i else ls !! i.
Proof.
  unfold update_at. case_decide as Hij; [subst; rewrite list_lookup_alter; by case_decide|].
  by rewrite list_lookup_alter_ne.
Qed.

Lemma scrub_loop_None fuel b a : scrub_loop fuel b None a = a.
Proof.
  revert b. induction fuel as [|fuel IH]; intros b; simpl; [done|].
  destruct (b <? js_length a)%Z; [apply IH|done].
Qed.

(** ** Cell writes *)

Lemma bomb_cells_ok_set r a k v :
  bomb_cells_ok r a -> (v <> 0%Z -> occupied r (v - 1)) -> bomb_cells_ok r (js_set a k v).
Proof.
  intros [Hwf Hc] Hv. split; [by apply js_set_wf|].
  intros k' v' Hidx Hk' Hnz. destruct (decide (k = k')) as [<-|Hne].
  - rewrite js_get_set_eq in Hk'. injection Hk' as <-. by apply Hv.
  - rewrite js_get_set_ne in Hk' by done. by eapply Hc.
Qed.

Lemma bomb_cells_ok_set0 r a k : bomb_cells_ok r a -> bomb_cells_ok r (js_set a k 0).
Proof. intros Ha. by apply bomb_cells_ok_set. Qed.

Lemma bomb_cells_ok_grow r r' a : roster_grows r r' -> bomb_cells_ok r a -> bomb_cells_ok r' a.
Proof. intros Hg [Hwf Hc]. split; [done|]. intros k v Hi Hk Hv. by apply Hg, (Hc k). Qed.

(** The scrub of [s + 1] leaves only cells whose slot is not [s]: the
    room may lose slot [s] afterwards. *)
Lemma bomb_cells_ok_scrub r r' a s :
  bomb_cells_ok r a -> (forall z, z <> s ->  occupied r z -> occupied r' z) ->
  bomb_cells_ok r' (scrub (Some (s + 1)%Z) a).
Proof.
  intros [[Hlen Hwf] Hc] Hkeep.
  assert (Hsc : forall k, js_length (scrub (Some (s + 1)%Z) a) = js_length a /\
     js_get (scrub (Some (s + 1)%Z) a) k =
       (if (0 <=? k) && (k <? js_length a) && js_eq_num (js_get a k) (s + 1)
        then Some 0 else js_get a k)%Z) by (intros k; by apply scrub_spec).
  split; [split|].
  - by rewrite (proj1 (Hsc 0%Z)).
  - intros k v Hk Hidx. rewrite (proj1 (Hsc k)). unfold js_get in Hsc.
    rewrite (proj2 (Hsc k)) in Hk. destruct (_ && _ && _) eqn:E.
    + apply andb_prop in E as [[_ ?%Z.ltb_lt]%andb_prop _]. done.
    + by eapply Hwf.
  - intros k v Hidx Hk Hnz. rewrite (proj2 (Hsc k)) in Hk.
    destruct (_ && _ && _) eqn:E; [by injection Hk as <-|].
    apply Hkeep; [|by eapply Hc].
    intros Hs. assert (v = s + 1)%Z as -> by lia. assert (Hlt : (k < js_length a)%Z) by (by eapply Hwf).
    rewrite Hk in E. simpl in E. unfold is_array_index in Hidx.
    apply andb_prop in Hidx as [Hk0%Z.leb_le _].
    rewrite (proj2 (Z.leb_le 0 k) Hk0), (proj2 (Z.ltb_lt k _) Hlt), Z.eqb_refl in E. done.
Qed.

(** ** Layer-list writes *)

Lemma layers_ok_grow r r' ls : roster_grows r r' -> layers_ok r ls -> layers_ok r' ls.
Proof. intros Hg Hl i l Hi Hli. eapply bomb_cells_ok_grow; [done|]. by eapply Hl. Qed.

(** A write at any index that keeps the cells good. *)
Lemma layers_ok_update_at r r' j f ls :
  (forall a, bomb_cells_ok r a -> bomb_cells_ok r' (f a)) -> roster_grows r r' ->
  layers_ok r ls -> layers_ok r' (update_at j f ls).
Proof.
  intros Hf Hg Hl i l. rewrite first_index_update_at, update_at_lookup. intros Hi Hli.
  case_decide; [subst|].
  - destruct (ls !! j) as [l0|] eqn:E; [|done]. injection Hli as <-. apply Hf. by eapply Hl.
  - eapply bomb_cells_ok_grow; [done|]. by eapply Hl.
Qed.

(** The write of the disconnect scrub: only the first bombs layer. *)
Lemma layers_ok_update_first_bombs r r' f ls :
  (forall a, bomb_cells_ok r a -> bomb_cells_ok r' (f a)) ->
  layers_ok r ls -> layers_ok r' (update_first "bombs" f ls).
Proof.
  intros Hf Hl i l. rewrite update_first_at.
  destruct (first_index "bombs" ls) as [j|] eqn:Hj; [|by rewrite Hj].
  rewrite first_index_update_at, update_at_lookup, Hj. intros [= <-]. rewrite decide_True by done.
  destruct (ls !! j) as [l0|] eqn:E; [|done]. intros [= <-]. apply Hf. by eapply Hl.
Qed.

(** A write to the first layer of another name never touches the bombs
    layer. *)
Lemma layers_ok_update_first_other r name f ls :
  name <> "bombs" -> layers_ok r ls -> layers_ok r (update_first name f ls).
Proof.
  intros Hn Hl i l. rewrite update_first_at.
  destruct (first_index name ls) as [j|] eqn:Hj; [|apply Hl].
  rewrite first_index_update_at, update_at_lookup. intros Hi Hli. case_decide; [subst|by eapply Hl].
  apply first_index_Some in Hi as (l1 & H1 & Hn1 & _), Hj as (l2 & H2 & Hn2 & _).
  congruence.
Qed.

Lemma layers_ok_update_all_other r name f ls :
  name <> "bombs" -> layers_ok r ls -> layers_ok r (update_all name f ls).
Proof.
  intros Hn Hl i l. rewrite (first_index_names _ _ ls) by apply update_all_names. intros Hi.
  rewrite update_all_lookup. pose proof Hi as (l1 & H1 & Hn1 & _)%first_index_Some.
  rewrite H1. simpl. rewrite Hn1. destruct (String.eqb_spec "bombs" name); [done|]. intros [= <-]. by apply (Hl i l1).
Qed.

Lemma layers_ok_plant r k v ls ls' :
  plant_layers k v ls = Some ls' -> (v <> 0%Z -> occupied r (v - 1)) ->
  layers_ok r ls -> layers_ok r ls'.
Proof.
  intros Hp Hv Hl. rewrite plant_layers_spec in Hp.
  destruct (first_index "bombs" ls); [|by injection Hp as <-].
  destruct (ls !! n); [|by injection Hp as <-].
  destruct (js_truthy _); [done|]. injection Hp as <-.
  apply (layers_ok_update_at r r); [|by intros z|done]. intros a Ha. by apply bomb_cells_ok_set.
Qed.

Lemma layers_ok_explode r m bi oi cells ls :
  layers_ok r ls -> layers_ok r (explode_cells m bi oi cells ls).
Proof.
  unfold explode_cells. revert ls. induction cells as [|[c w] cells IH]; intros ls Hl; [done|].
  simpl. apply IH.
  apply (layers_ok_update_at r r); [intros ?; apply bomb_cells_ok_set0|by intros z|].
  apply (layers_ok_update_at r r); [intros ?; apply bomb_cells_ok_set0|by intros z|done].
Qed.

(** The template condition, checked by [template_clear], gives a good
    layer list for a room with any roster. *)
Lemma template_clear_ok m r : template_clear m = true -> layers_ok r (m_layers m).
Proof.
  unfold template_clear. intros Ht i l Hi Hl. rewrite Hi in Ht. simpl in Ht. rewrite Hl in Ht.
  apply andb_prop in Ht as [Hlen%bool_decide_eq_true Hall].
  rewrite forallb_forall in Hall.
  assert (Hcell : forall k v, js_cells (l_data l) !! k = Some v -> is_array_index k = true ->
            (k < js_length (l_data l))%Z /\ v = 0%Z).
  { intros k v Hk Hidx. apply elem_of_map_to_list, list_elem_of_In, Hall in Hk.
    simpl in Hk. rewrite Hidx in Hk. simpl in Hk.
    apply andb_prop in Hk as [?%Z.ltb_lt ?%Z.eqb_eq]. done. }
  split; [split; [done|]|].
  - intros k v Hk Hidx. by apply (Hcell k v).
  - intros k v Hidx Hk Hnz. by destruct (Hcell k v Hk Hidx).
Qed.

(** ** Rooms *)

Lemma roster_grows_refl r r' : r_players r' = r_players r -> roster_grows r r'.
Proof. intros Hp z. unfold occupied, roster_at. by rewrite Hp. Qed.

(** Filling a slot only adds occupants. *)
Lemma roster_grows_fill r s x :
  roster_grows r (with_players r (<[s:=Some x]> (r_players r))).
Proof.
  intros z. unfold occupied, roster_at, zlookup. simpl. destruct (0 <=? z)%Z; [|done].
  destruct (decide (Z.to_nat z = s)) as [<-|Hne]; [|by rewrite list_lookup_insert_ne].
  intros Hz. destruct (r_players r !! Z.to_nat z) eqn:E; [|by destruct Hz].
  rewrite list_lookup_insert_eq; [by eexists|]. by eapply lookup_lt_Some.
Qed.

(** Emptying slot [s] keeps every other occupant. *)
Lemma occupied_clear_ne r s z :
  z <> Z.of_nat s -> occupied r z -> occupied (with_players r (<[s:=None]> (r_players r))) z.
Proof.
  intros Hne. unfold occupied, roster_at, zlookup. simpl.
  destruct (Z.leb_spec 0 z); [|done]. rewrite list_lookup_insert_ne; [done|lia].
Qed.

Lemma bombs_ok_same r r' :
  r_map r' = r_map r -> r_players r' = r_players r -> bombs_ok r -> bombs_ok r'.
Proof. intros Hm Hp. unfold bombs_ok. rewrite Hm. by apply layers_ok_grow, roster_grows_refl. Qed.

(** A room whose map is the template, whatever its roster. *)
Lemma bombs_ok_template m r : template_clear m = true -> r_map r = m -> bombs_ok r.
Proof. intros Ht Hm. unfold bombs_ok. rewrite Hm. by apply template_clear_ok. Qed.

(** The disconnect's scrub followed by [excludePlayer] of the same
    player: the only slot freed is the one whose bombs were scrubbed. *)
Lemma bombs_ok_scrub_exclude `{RoomContract} r1 ps pid p :
  bombs_ok r1 -> ps !! pid = Some p ->
  bombs_ok (excludePlayer (scrub_bombs (p_serial p) r1) ps pid).
Proof.
  intros Hb Hp. set (r2 := scrub_bombs (p_serial p) r1).
  assert (Hcells : forall r3 : Room, r_map r3 = r_map r2 ->
    (forall z, (forall s, p_serial p = Some s -> z <> Z.of_nat s) -> occupied r1 z -> occupied r3 z) ->
    bombs_ok r3).
  { intros r3 Hm Hkeep. unfold bombs_ok. rewrite Hm. simpl.
    apply (layers_ok_update_first_bombs r1); [|done]. intros a Ha.
    destruct (p_serial p) as [s|]; simpl.
    - apply (bomb_cells_ok_scrub r1); [done|]. intros z Hz. apply Hkeep. by intros ? [= <-].
    - unfold scrub. rewrite scrub_loop_None. eapply bomb_cells_ok_grow; [|done].
      intros z. apply Hkeep. done. }
  rewrite excludePlayer_spec, Hp. simpl.
  destruct (p_serial p) as [s|] eqn:Hs; [case_bool_decide|]; apply Hcells; try done.
  intros z Hz Ho. apply (occupied_clear_ne r2); [by apply Hz|exact Ho].
Qed.

Section BombsInvariant.
Context {RM : RoomMethods} {RC : RoomContract}.
Variable tmpl : MapState.
Hypothesis tmpl_clear : template_clear tmpl = true.

Definition bombs_wf (w : World) : Prop := forall rid r, w_rooms w !! rid = Some r -> bombs_ok r.

Lemma bombs_wf_rooms w w' : w_rooms w' = w_rooms w -> bombs_wf w -> bombs_wf w'.
Proof. intros Hr Hb rid r. rewrite Hr. apply Hb. Qed.

Lemma bombs_wf_put w rid r : bombs_wf w -> bombs_ok r -> bombs_wf (put_room w rid r).
Proof.
  intros Hb Hr x r'. simpl. destruct (decide (x = rid)) as [->|Hne].
  - rewrite lookup_insert_eq. by intros [= <-].
  - rewrite lookup_insert_ne by done. apply Hb.
Qed.

Lemma bombs_of_room w s rid r : bombs_wf w -> room_of w s = Some (rid, r) -> bombs_ok r.
Proof. intros Hb (_ & Hr)%room_of_Some. by eapply Hb. Qed.

Lemma bombs_ok_select r ps : bombs_ok r -> bombs_ok (select_host r ps).1.
Proof. apply bombs_ok_same; [apply select_host_map|apply select_host_players]. Qed.

Lemma bombs_ok_insert r ps pid r1 ps2 :
  insertPlayer r ps pid = (r1, ps2) -> bombs_ok r -> bombs_ok r1.
Proof.
  rewrite insertPlayer_spec. destruct (first_free r); intros [= <- _]; [|done].
  apply layers_ok_grow, roster_grows_fill.
Qed.

(** ** The lifecycle handlers *)

Lemma find_or_create_bombs w rid r w1 :
  bombs_wf w -> find_or_create tmpl w = Ok (rid, r, w1) -> bombs_wf w1 /\ bombs_ok r.
Proof.
  intros Hb. unfold find_or_create.
  destruct (scan_rooms (w_rooms w) (w_rlist w)) as [[x|]|]; simpl; try discriminate.
  - destruct (w_rooms w !! x) eqn:E; [|discriminate]. intros [= <- <- <-]. split; [done|by eapply Hb].
  - intros [= <- <- <-].
    assert (Hnew : bombs_ok (new_Room tmpl (w_next_room w)))
      by (apply (bombs_ok_template tmpl); [done|by rewrite new_Room_spec]).
    split; [|done]. by apply (bombs_wf_put w).
Qed.

Lemma join_room_bombs rnd cid s pid cd rid r w1 w' ms :
  bombs_wf w1 -> bombs_ok r -> join_room rnd cid s pid cd rid r w1 = Ok (w', ms) -> bombs_wf w'.
Proof.
  unfold join_room. intros Hb Hr.
  destruct (insertPlayer r _ pid) as [r1 ps2] eqn:Hins.
  pose proof (bombs_ok_insert _ _ _ _ _ Hins Hr) as Hr1.
  assert (Hput : forall r2, bombs_ok r2 ->
    bombs_wf (set_socks (put_room (set_pstore w1 ps2) rid r2)
                (<[cid:={| s_player := s_player s; s_room := Some rid |}]> (w_socks w1))))
    by (intros r2 ?; by apply (bombs_wf_put (set_pstore w1 ps2))).
  destruct (hasHost r1 ps2); simpl.
  - destruct (ps2 !! pid); simpl; [|discriminate]. intros [= <- _]. by apply Hput.
  - pose proof (bombs_ok_select r1 ps2 Hr1) as Hr2. destruct (select_host r1 ps2) as [r2 hm].
    destruct (ps2 !! pid); simpl; [|discriminate]. intros [= <- _]. by apply Hput.
Qed.

Lemma onRoomRequest_bombs rnd cid s d w w' ms :
  bombs_wf w -> onRoomRequest tmpl rnd cid s d w = Ok (w', ms) -> bombs_wf w'.
Proof.
  unfold onRoomRequest. intros Hb.
  destruct (s_player s) as [pid|]; simpl; [|discriminate].
  destruct (find_or_create tmpl w) as [[[rid r] w1]|] eqn:Hf; simpl; [|discriminate].
  destruct d as [cd|]; simpl; [|discriminate].
  apply find_or_create_bombs in Hf as [Hw1 Hr]; [|done]. by apply join_room_bombs.
Qed.

Lemma onClientDisconnect_bombs now cid s w w' ms :
  bombs_wf w -> onClientDisconnect now cid s w = Ok (w', ms) -> bombs_wf w'.
Proof.
  unfold onClientDisconnect. intros Hb.
  destruct (room_of w s) as [[rid r]|] eqn:Hr; simpl; [|by intros [= <- _]].
  pose proof (bombs_of_room w s rid r Hb Hr) as Hbr.
  destruct (s_player s) as [pid|]; simpl; [|discriminate].
  destruct (host_leave now pid r _) as [[ps1 r1] hm] eqn:Hh.
  destruct (host_leave_spec _ _ _ _ _ _ _ Hh) as (Hpl & Hmap & _).
  destruct (ps1 !! pid) as [p|] eqn:Hp; simpl; [|discriminate]. intros [= <- _].
  assert (Hw2 : bombs_wf (put_room (set_pstore (set_plist w (remove_player cid (w_plist w))) ps1) rid
                  (excludePlayer (scrub_bombs (p_serial p) r1) ps1 pid))).
  { apply (bombs_wf_put (set_pstore (set_plist w _) ps1)); [done|].
    apply bombs_ok_scrub_exclude; [|done]. by apply (bombs_ok_same r). }
  by destruct (isEmpty _).
Qed.

Lemma onPlayerUnavailable_bombs now s w : bombs_wf w -> bombs_wf (onPlayerUnavailable now s w).1.
Proof.
  unfold onPlayerUnavailable. intros Hb. destruct (s_player s) as [pid|]; [|done].
  destruct (room_of _ s) as [[rid r]|] eqn:Hr; [|done].
  pose proof (bombs_of_room _ s rid r Hb Hr) as Hbr.
  destruct (isHost r pid); [|done].
  pose proof (bombs_ok_select (with_rc_timestamp r now) (alter (set_active false) pid (w_players w)) Hbr).
  destruct (select_host _ _) as [r1 hm]. by apply (bombs_wf_put (alter_player _ pid w)).
Qed.

Lemma onPlayerAvailable_bombs s w : bombs_wf w -> bombs_wf (onPlayerAvailable s w).1.
Proof.
  unfold onPlayerAvailable. intros Hb. destruct (s_player s) as [pid|]; [|done].
  destruct (room_of _ s) as [[rid r]|] eqn:Hr; [|done].
  pose proof (bombs_of_room _ s rid r Hb Hr) as Hbr.
  destruct (hasHost r _); [done|].
  pose proof (bombs_ok_select r (alter (set_active true) pid (w_players w)) Hbr).
  destruct (select_host _ _) as [r1 hm]. by apply (bombs_wf_put (alter_player _ pid w)).
Qed.

(** ** The gameplay handlers *)

Lemma bombs_ok_layers r ls : layers_ok r ls -> bombs_ok (room_layers r ls).
Proof. apply layers_ok_grow, roster_grows_refl. done. Qed.

Lemma onChatMessage_bombs cid s text w : bombs_wf w -> bombs_wf (onChatMessage cid s text w).1.
Proof. unfold onChatMessage. by destruct (player_of w s) as [[]|], (room_of w s) as [[]|]. Qed.

Lemma onPlayerSpawn_bombs now s d w w' ms :
  bombs_wf w -> onPlayerSpawn now s d w = Ok (w', ms) -> bombs_wf w'.
Proof.
  unfold onPlayerSpawn. intros Hb.
  destruct (player_of w s) as [[pid p]|], (room_of w s) as [[rid r]|] eqn:Hr;
    try (intros [= <- _]; done).
  destruct d; simpl; [|discriminate].
  destruct (m_spawn_order (r_map r) !! next_spawn_index r); simpl; [|discriminate].
  intros [= <- _]. apply (bombs_wf_put (alter_player _ pid w)); [done|].
  by apply (bombs_ok_same r), (bombs_of_room w s rid).
Qed.

Lemma onPlayerMove_bombs cid s d w w' ms :
  bombs_wf w -> onPlayerMove cid s d w = Ok (w', ms) -> bombs_wf w'.
Proof.
  unfold onPlayerMove. intros Hb.
  destruct (player_of w s) as [[pid p]|], (room_of w s) as [[rid r]|]; try (intros [= <- _]; done).
  destruct (p_is_dead p); [intros [= <- _]; done|].
  destruct d; simpl; [|discriminate]. by intros [= <- _].
Qed.

Lemma onPlayerDeath_bombs s d w w' ms : bombs_wf w -> onPlayerDeath s d w = Ok (w', ms) -> bombs_wf w'.
Proof.
  unfold onPlayerDeath. intros Hb.
  destruct (room_of w s) as [[rid r]|]; [|intros [= <- _]; done].
  destruct d as [data|]; simpl; [|discriminate].
  by repeat case_match; intros [= <- _].
Qed.

Lemma onPlayerCollectPowerup_bombs now s d w w' ms :
  bombs_wf w -> onPlayerCollectPowerup now s d w = Ok (w', ms) -> bombs_wf w'.
Proof.
  unfold onPlayerCollectPowerup. intros Hb.
  destruct (player_of w s) as [[pid p]|], (room_of w s) as [[rid r]|] eqn:Hr;
    try (intros [= <- _]; done).
  destruct d; simpl; [|discriminate]. intros [= <- _].
  assert (Hw1 : bombs_wf (put_room w rid (room_layers r (update_first "powerups"
             (fun a => js_set a (cell_index (r_map r) (c_col c) (c_row c)) 0) (m_layers (r_map r))))))
    by (apply bombs_wf_put, bombs_ok_layers, layers_ok_update_first_other, (bombs_of_room w s rid);
        done).
  by destruct (String.eqb _ _).
Qed.

Lemma onPlayerLostInvicibility_bombs s d w w' ms :
  bombs_wf w -> onPlayerLostInvicibility s d w = Ok (w', ms) -> bombs_wf w'.
Proof.
  unfold onPlayerLostInvicibility. intros Hb.
  destruct (room_of w s) as [[rid r]|]; [|intros [= <- _]; done].
  destruct d; simpl; [|discriminate]. intros [= <- _]. by destruct (roster_at r _).
Qed.

Lemma onPlayerPlantBomb_bombs now s d w w' ms :
  bombs_wf w -> onPlayerPlantBomb now s d w = Ok (w', ms) -> bombs_wf w'.
Proof.
  unfold onPlayerPlantBomb. intros Hb.
  destruct (room_of w s) as [[rid r]|] eqn:Hr; [|intros [= <- _]; done].
  destruct d as [data|]; simpl; [|discriminate].
  destruct (roster_at r (b_owner_serial data)) eqn:Ho; [|intros [= <- _]; done].
  destruct (plant_layers _ _ _) as [ls|] eqn:Hp; [|intros [= <- _]; done].
  intros [= <- _]. apply bombs_wf_put, bombs_ok_layers; [done|].
  apply (layers_ok_plant r _ _ _ _ Hp); [|by eapply bombs_of_room].
  intros _. unfold occupied. rewrite Z.add_simpl_r, Ho. by eexists.
Qed.

Lemma onBombExplode_bombs now s d w w' ms : bombs_wf w -> onBombExplode now s d w = Ok (w', ms) -> bombs_wf w'.
Proof.
  unfold onBombExplode. intros Hb.
  destruct (room_of w s) as [[rid r]|] eqn:Hr; [|intros [= <- _]; done].
  pose proof (bombs_of_room w s rid r Hb Hr) as Hbr.
  destruct d; simpl; [|discriminate]. intros [= <- _].
  apply bombs_wf_put; [done|].
  repeat case_match; [apply bombs_ok_layers, layers_ok_explode|..]; done.
Qed.

Lemma onPowerupDisappear_bombs s d w w' ms :
  bombs_wf w -> onPowerupDisappear s d w = Ok (w', ms) -> bombs_wf w'.
Proof.
  unfold onPowerupDisappear. intros Hb.
  destruct (room_of w s) as [[rid r]|] eqn:Hr; [|intros [= <- _]; done].
  pose proof (bombs_of_room w s rid r Hb Hr) as Hbr.
  destruct (existsb _ _); simpl.
  - destruct d; simpl; [|discriminate]. intros [= <- _].
    by apply bombs_wf_put, bombs_ok_layers, layers_ok_update_all_other.
  - intros [= <- _]. by apply bombs_wf_put.
Qed.

Lemma onMapReset_bombs s w : bombs_wf w -> bombs_wf (onMapReset tmpl s w).1.
Proof.
  unfold onMapReset. intros Hb. destruct (room_of w s) as [[rid r]|]; simpl; [|done].
  apply bombs_wf_put; [done|]. apply (bombs_ok_template tmpl); [done|]. by rewrite resetMap_spec.
Qed.

(** ** Every event preserves the bombs invariant *)

Lemma dispatch_bombs now cid ev w w' ms :
  bombs_wf w -> dispatch tmpl now cid ev w = Ok (w', ms) -> bombs_wf w'.
Proof.
  intros Hb. destruct ev; simpl.
  { intros [= HX]. change w' with (w', ms).1. by rewrite <- HX. }
  all: destruct (w_socks w !! cid) as [s|] eqn:Hs; [|by intros [= <- _]].
  all: try (intros Hd; first [
      (eapply onRoomRequest_bombs; eassumption) |
      (eapply onPlayerSpawn_bombs; eassumption) |
      (eapply onPlayerMove_bombs; eassumption) |
      (eapply onPlayerDeath_bombs; eassumption) |
      (eapply onPlayerCollectPowerup_bombs; eassumption) |
      (eapply onPlayerLostInvicibility_bombs; eassumption) |
      (eapply onPlayerPlantBomb_bombs; eassumption) |
      (eapply onBombExplode_bombs; eassumption) |
      (eapply onPowerupDisappear_bombs; eassumption)]).
  all: try (intros [= HX]; change w' with (w', ms).1; rewrite <- HX;
    first [(apply onChatMessage_bombs; assumption) | (apply onPlayerAvailable_bombs; assumption) | (apply onPlayerUnavailable_bombs; assumption) | (apply onMapReset_bombs; assumption)]).
  - destruct (onClientDisconnect now cid s w) as [[w1 ms1]|] eqn:Hd; simpl; [|discriminate].
    intros [= <- _]. apply (bombs_wf_rooms w1); [done|]. by eapply onClientDisconnect_bombs.
  - intros [= HX]. change w' with (w', ms).1. rewrite <- HX.
    unfold onPowerupBlink. by destruct (room_of w s) as [[]|].
  - destruct d; simpl; [|discriminate]. by intros [= <- _].
Qed.

Lemma reachable_bombs_wf w : reachable tmpl w -> bombs_wf w.
Proof.
  apply reachable_ind; [|intros; by eapply dispatch_bombs].
  intros rid r. simpl. by rewrite lookup_empty.
Qed.

(** C22: in every reachable world, on a template whose bombs layer starts
    empty, every non-zero array cell [v] of a room's first bombs layer
    names an occupied roster slot [v - 1]: plants write [serial + 1] only
    for an occupied slot, and a player's cells are scrubbed before its slot
    is freed. *)
Theorem reachable_bombs_encode_occupied w rid r i l k v :
  reachable tmpl w -> w_rooms w !! rid = Some r ->
  first_index "bombs" (m_layers (r_map r)) = Some i -> m_layers (r_map r) !! i = Some l ->
  is_array_index k = true -> js_get (l_data l) k = Some v -> v <> 0%Z ->
  occupied r (v - 1).
Proof.
  intros Hr Hrid Hi Hl Hk Hv Hnz.
  destruct (reachable_bombs_wf w Hr rid r Hrid i l Hi Hl) as [_ Hc]. exact (Hc k v Hk Hv Hnz).
Qed.

End BombsInvariant.
