(* ===== verification/Binding.v ===== *)
(** * Socket bindings stay seated

    [this.room] is set by [onRoomRequest] right after [insertPlayer] and
    read by every room-scoped handler; the disconnect handler finds the
    room with [rooms.indexOf(this.room)] and, when the room has emptied,
    runs [rooms[ri] = rooms.splice(rooms.length - 1, 1, rooms[ri])[0];
    rooms.pop();].  Had [indexOf] returned -1 there, that line would drop
    the last room of the array, whoever is in it.

    [bind_ok] says that every socket bound to a room is seated there: its
    player object's [serial] names a roster slot of that room holding the
    socket's id, and the room is still in the rooms array.  It holds in
    every reachable world of a template with at least one spawn point (a
    fresh room then has a free slot), so the disconnect always finds its
    room in the array.

    The gameplay handlers move no one: [keeps_seats] (a preorder on
    worlds) records that they keep the arrays, the socket table, every
    roster and every serial. *)

From S2P Require Import Prelude JsArray Player MapState Room Wire Registry Lifecycle Gameplay Server Invariants.

(** [cid]'s player sits in room [rid] at its serial. *)
Definition seated (w : World) (cid : string) (rid : nat) : Prop :=
  exists r p sr, w_rooms w !! rid = Some r /\ w_players w !! cid = Some p /\
    p_serial p = Some sr /\ r_players r !! sr = Some (Some cid).

Definition bind_ok (w : World) : Prop :=
  forall cid s rid, w_socks w !! cid = Some s -> s_room s = Some rid ->
    rid ∈ w_rlist w /\ seated w cid rid.

(** Every player object stays, with its serial. *)
Definition serials_kept (ps ps' : pstore) : Prop :=
  forall c p, ps !! c = Some p -> exists p', ps' !! c = Some p' /\ p_serial p' = p_serial p.

(** Nothing a gameplay handler does moves a player between slots. *)
Definition keeps_seats (w w' : World) : Prop :=
  w_rlist w' = w_rlist w /\ w_socks w' = w_socks w /\
  (forall rid r, w_rooms w !! rid = Some r -> exists r', w_rooms w' !! rid = Some r' /\ r_players r' = r_players r) /\
  serials_kept (w_players w) (w_players w').

Lemma serials_kept_refl ps : serials_kept ps ps.
Proof. intros c p Hp. by eexists. Qed.

#[export] Instance keeps_seats_preorder : PreOrder keeps_seats.
Proof.
  split.
  - intros w. split_and!; [done|done|by eauto|apply serials_kept_refl].
  - intros w1 w2 w3 (Hl1 & Hs1 & Hr1 & Hp1) (Hl2 & Hs2 & Hr2 & Hp2). split_and!; [congruence|congruence| |].
    + intros rid r Hr. destruct (Hr1 rid r Hr) as (r' & Hr' & Hp'). destruct (Hr2 rid r' Hr') as (r'' & ? & ?).
      exists r''. split; congruence.
    + intros c p Hp. destruct (Hp1 c p Hp) as (p' & Hp' & Hs'). destruct (Hp2 c p' Hp') as (p'' & ? & ?).
      exists p''. split; congruence.
Qed.

Lemma bind_ok_keeps w w' : bind_ok w -> keeps_seats w w' -> bind_ok w'.
Proof.
  intros Hb (Hl & Hs & Hr & Hp) cid s rid Hcs Hrid. rewrite Hs in Hcs.
  destruct (Hb cid s rid Hcs Hrid) as (Hin & r & p & sr & Hr0 & Hp0 & Hsr & Hslot).
  rewrite Hl. split; [done|].
  destruct (Hr rid r Hr0) as (r' & Hr' & Hpl), (Hp cid p Hp0) as (p' & Hp' & Hser).
  exists r', p', sr. rewrite Hpl, Hser. done.
Qed.

Lemma keeps_seats_put w rid r r' :
  w_rooms w !! rid = Some r -> r_players r' = r_players r -> keeps_seats w (put_room w rid r').
Proof.
  intros Hr Hpl. split_and!; [done|done| |apply serials_kept_refl].
  intros x rx Hx. simpl. destruct (decide (x = rid)) as [->|Hne].
  - rewrite lookup_insert_eq. rewrite Hr in Hx. injection Hx as <-. by eexists.
  - rewrite lookup_insert_ne by done. by eexists.
Qed.

Lemma keeps_seats_pstore w ps : serials_kept (w_players w) ps -> keeps_seats w (set_pstore w ps).
Proof. intros Hps. split_and!; [done|done|by eauto|done]. Qed.

(** A field write that leaves [serial] alone. *)
Lemma serials_kept_alter (f : Player -> Player) pid ps ps' :
  (forall q, p_serial (f q) = p_serial q) -> serials_kept ps ps' -> serials_kept ps (alter f pid ps').
Proof.
  intros Hf Hk c p Hp. destruct (Hk c p Hp) as (p' & Hp' & Hs). destruct (decide (pid = c)) as [->|Hne].
  - rewrite lookup_alter_eq, Hp'. eexists. split; [done|]. by rewrite Hf.
  - rewrite lookup_alter_ne by done. by eexists.
Qed.

Lemma keeps_seats_alter w f pid :
  (forall q, p_serial (f q) = p_serial q) -> keeps_seats w (alter_player f pid w).
Proof. intros Hf. apply keeps_seats_pstore, serials_kept_alter, serials_kept_refl. done. Qed.

(** A room write after other writes, the room being the one [this.room]
    resolved to in the original world. *)
Lemma keeps_seats_put_room w w1 s rid r r' :
  keeps_seats w w1 -> w_rooms w1 = w_rooms w -> room_of w s = Some (rid, r) ->
  r_players r' = r_players r -> keeps_seats w (put_room w1 rid r').
Proof.
  intros H1 Hr1 (_ & Hr)%room_of_Some Hpl. etrans; [exact H1|].
  apply (keeps_seats_put _ _ r); [by rewrite Hr1|done].
Qed.

Section Seats.
Context {RM : RoomMethods} {RC : RoomContract}.
Variable tmpl : MapState.

(** ** The gameplay handlers keep every seat *)

Lemma onChatMessage_seats cid s text w : keeps_seats w (onChatMessage cid s text w).1.
Proof.
  unfold onChatMessage. destruct (player_of w s) as [[pid p]|], (room_of w s) as [[rid r]|]; simpl;
    [by apply keeps_seats_alter|done..].
Qed.

Lemma onPlayerSpawn_seats now s d w w' ms : onPlayerSpawn now s d w = Ok (w', ms) -> keeps_seats w w'.
Proof.
  unfold onPlayerSpawn.
  destruct (player_of w s) as [[pid p]|], (room_of w s) as [[rid r]|] eqn:Hr; try (intros [= <- _]; done).
  destruct d; simpl; [|discriminate].
  destruct (m_spawn_order (r_map r) !! next_spawn_index r); simpl; [|discriminate].
  intros [= <- _]. eapply keeps_seats_put_room; [by apply keeps_seats_alter|done|exact Hr|done].
Qed.

Lemma onPlayerMove_seats cid s d w w' ms : onPlayerMove cid s d w = Ok (w', ms) -> keeps_seats w w'.
Proof.
  unfold onPlayerMove.
  destruct (player_of w s) as [[pid p]|], (room_of w s) as [[rid r]|]; try (intros [= <- _]; done).
  destruct (p_is_dead p); [intros [= <- _]; done|].
  destruct d; simpl; [|discriminate]. intros [= <- _]. by apply keeps_seats_alter.
Qed.

Lemma onPlayerDeath_seats s d w w' ms : onPlayerDeath s d w = Ok (w', ms) -> keeps_seats w w'.
Proof.
  unfold onPlayerDeath. destruct (room_of w s) as [[rid r]|]; [|intros [= <- _]; done].
  destruct d as [data|]; simpl; [|discriminate].
  repeat case_match; intros [= <- _]; try done.
  all: apply keeps_seats_pstore; repeat (apply serials_kept_alter; [done|]); apply serials_kept_refl.
Qed.

Lemma onPlayerCollectPowerup_seats now s d w w' ms :
  onPlayerCollectPowerup now s d w = Ok (w', ms) -> keeps_seats w w'.
Proof.
  unfold onPlayerCollectPowerup.
  destruct (player_of w s) as [[pid p]|], (room_of w s) as [[rid r]|] eqn:Hr; try (intros [= <- _]; done).
  destruct d; simpl; [|discriminate]. intros [= <- _].
  assert (H1 : keeps_seats w (put_room w rid (room_layers r (update_first "powerups"
             (fun a => js_set a (cell_index (r_map r) (c_col c) (c_row c)) 0) (m_layers (r_map r))))))
    by (eapply keeps_seats_put_room; [reflexivity|done|exact Hr|done]).
  destruct (String.eqb _ _); [|done]. etrans; [exact H1|]. by apply keeps_seats_alter.
Qed.

Lemma onPlayerLostInvicibility_seats s d w w' ms :
  onPlayerLostInvicibility s d w = Ok (w', ms) -> keeps_seats w w'.
Proof.
  unfold onPlayerLostInvicibility. destruct (room_of w s) as [[rid r]|]; [|intros [= <- _]; done].
  destruct d; simpl; [|discriminate]. intros [= <- _].
  destruct (roster_at r _); [by apply keeps_seats_alter|done].
Qed.

Lemma onPlayerPlantBomb_seats now s d w w' ms : onPlayerPlantBomb now s d w = Ok (w', ms) -> keeps_seats w w'.
Proof.
  unfold onPlayerPlantBomb. destruct (room_of w s) as [[rid r]|] eqn:Hr; [|intros [= <- _]; done].
  destruct d; simpl; [|discriminate].
  destruct (roster_at r _); [|intros [= <- _]; done].
  destruct (plant_layers _ _ _); [|intros [= <- _]; done].
  intros [= <- _]. by eapply keeps_seats_put_room.
Qed.

Lemma onBombExplode_seats now s d w w' ms : onBombExplode now s d w = Ok (w', ms) -> keeps_seats w w'.
Proof.
  unfold onBombExplode. destruct (room_of w s) as [[rid r]|] eqn:Hr; [|intros [= <- _]; done].
  destruct d; simpl; [|discriminate]. intros [= <- _].
  eapply keeps_seats_put_room; [reflexivity|done|exact Hr|]. by repeat case_match.
Qed.

Lemma onPowerupBlink_seats s d w : keeps_seats w (onPowerupBlink s d w).1.
Proof. unfold onPowerupBlink. by destruct (room_of w s) as [[]|]. Qed.

Lemma onPowerupDisappear_seats s d w w' ms : onPowerupDisappear s d w = Ok (w', ms) -> keeps_seats w w'.
Proof.
  unfold onPowerupDisappear. destruct (room_of w s) as [[rid r]|] eqn:Hr; [|intros [= <- _]; done].
  destruct (existsb _ _); simpl.
  - destruct d; simpl; [|discriminate]. intros [= <- _]. by eapply keeps_seats_put_room.
  - intros [= <- _]. by eapply keeps_seats_put_room.
Qed.

Lemma onMapReset_seats s w : keeps_seats w (onMapReset tmpl s w).1.
Proof.
  unfold onMapReset. destruct (room_of w s) as [[rid r]|] eqn:Hr; simpl; [|done].
  eapply keeps_seats_put_room; [reflexivity|done|exact Hr|]. by rewrite resetMap_spec.
Qed.

Lemma onPlayerUnavailable_seats now s w : keeps_seats w (onPlayerUnavailable now s w).1.
Proof.
  unfold onPlayerUnavailable. destruct (s_player s) as [pid|]; [|done].
  assert (H1 : keeps_seats w (alter_player (set_active false) pid w)) by by apply keeps_seats_alter.
  destruct (room_of _ s) as [[rid r]|] eqn:Hr; [|done].
  destruct (isHost r pid); [|done].
  pose proof (select_host_players (with_rc_timestamp r now) (w_players (alter_player (set_active false) pid w))).
  destruct (select_host _ _) as [r1 hm]. simpl in *.
  apply room_of_Some in Hr as [Hsr Hr]. etrans; [exact H1|]. by apply (keeps_seats_put _ _ r).
Qed.

Lemma onPlayerAvailable_seats s w : keeps_seats w (onPlayerAvailable s w).1.
Proof.
  unfold onPlayerAvailable. destruct (s_player s) as [pid|]; [|done].
  assert (H1 : keeps_seats w (alter_player (set_active true) pid w)) by by apply keeps_seats_alter.
  destruct (room_of _ s) as [[rid r]|] eqn:Hr; [|done].
  destruct (hasHost r _); [done|].
  pose proof (select_host_players r (w_players (alter_player (set_active true) pid w))).
  destruct (select_host _ _) as [r1 hm]. simpl in *.
  apply room_of_Some in Hr as [Hsr Hr]. etrans; [exact H1|]. by apply (keeps_seats_put _ _ r).
Qed.

End Seats.

(** ** Helpers on slots and arrays *)

Lemma elem_of_delete_ne (l : list nat) i x y :
  x ∈ l -> l !! i = Some y -> x <> y -> x ∈ delete i l.
Proof.
  intros (j & Hj)%list_elem_of_lookup Hi Hne. apply list_elem_of_lookup.
  destruct (decide (j < i)%nat) as [Hlt|Hge].
  - exists j. by rewrite list_lookup_delete_lt.
  - assert (j <> i) by congruence. exists (j - 1)%nat.
    rewrite list_lookup_delete_ge by lia. by replace (S (j - 1)) with j by lia.
Qed.

(** Writing slot [sr] keeps every other occupied slot. *)
Lemma slot_kept (l : list (option string)) sr o sc c :
  l !! sc = Some (Some c) -> l !! sr <> Some (Some c) -> <[sr:=o]> l !! sc = Some (Some c).
Proof. intros Hc Hne. rewrite list_lookup_insert_ne; [done|]. intros ->. congruence. Qed.

(** Seats of other sockets survive a write that keeps their room's other
    slots, their serial and the array. *)
Lemma bind_ok_other w w' cid :
  bind_ok w ->
  (forall c s, c <> cid -> w_socks w' !! c = Some s -> w_socks w !! c = Some s) ->
  (forall c rid, c <> cid -> rid ∈ w_rlist w -> seated w c rid -> rid ∈ w_rlist w' /\ seated w' c rid) ->
  forall c s rid, c <> cid -> w_socks w' !! c = Some s -> s_room s = Some rid ->
    rid ∈ w_rlist w' /\ seated w' c rid.
Proof. intros Hb Hs Hseat c s rid Hne Hcs Hr. destruct (Hb c s rid (Hs c s Hne Hcs) Hr). by apply Hseat. Qed.

(** Swap-removing [rid] keeps every other room of a duplicate-free array. *)
Lemma swap_remove_keeps (l : list nat) rid x :
  NoDup l -> rid ∈ l -> x ∈ l -> x <> rid -> x ∈ swap_remove (index_of rid l) l.
Proof.
  intros Hnd (i & Hi)%list_elem_of_lookup Hx Hne.
  unfold index_of. rewrite (find_index_bool_decide_NoDup l i rid Hnd Hi).
  rewrite (swap_remove_perm l i rid Hi). by eapply elem_of_delete_ne.
Qed.

(** The host reset writes only the leaver's player object. *)
Lemma host_leave_players_ne `{RoomMethods} now pid r ps ps1 r1 hm c :
  host_leave now pid r ps = (ps1, r1, hm) -> c <> pid -> ps1 !! c = ps !! c.
Proof.
  unfold host_leave. destruct (isHost r pid).
  - destruct (select_host _ _). intros [= <- _ _] Hne. by rewrite lookup_alter_ne.
  - by intros [= <- _ _].
Qed.

Section Binding.
Context {RM : RoomMethods} {RC : RoomContract}.
Variable tmpl : MapState.

(** ** Connect, room request and disconnect keep every socket seated *)

Lemma onClientConnect_bind cid w :
  bind_ok w -> w_players w !! cid = None -> bind_ok (onClientConnect cid w).1.
Proof.
  intros Hb Hp c s x. simpl. destruct (decide (c = cid)) as [->|Hne].
  - rewrite lookup_insert_eq. by intros [= <-].
  - rewrite lookup_insert_ne by congruence. intros Hc Hx.
    destruct (Hb c s x Hc Hx) as (Hin & r & p & sr & Hr & Hp' & Hsr & Hslot).
    split; [done|]. exists r, p, sr. simpl. by rewrite lookup_insert_ne by congruence.
Qed.

Lemma open_room_bind w : wf tmpl w -> bind_ok w -> bind_ok (open_room tmpl w).
Proof.
  intros Hw Hb c s x Hc Hx. destruct (Hb c s x Hc Hx) as (Hin & r & p & sr & Hr & Hrest).
  split; [simpl; apply elem_of_app; by left|]. exists r, p, sr. simpl.
  rewrite lookup_insert_ne; [done|]. intros Heq. subst x.
  assert (Hlt : (w_next_room w < w_next_room w)%nat) by (apply (wf_fresh _ _ Hw); by eexists). lia.
Qed.

(** Joining a room that is not full seats the requester in the first free
    slot, with its serial, and leaves every other seat. *)
Lemma join_room_bind rnd cid s cd rid r w1 w' ms :
  bind_ok w1 -> rid ∈ w_rlist w1 -> w_rooms w1 !! rid = Some r -> isFull r = false ->
  join_room rnd cid s cid cd rid r w1 = Ok (w', ms) -> bind_ok w'.
Proof.
  intros Hb Hin Hr Hnf. unfold join_room. rewrite insertPlayer_spec.
  destruct (first_free r) as [sr|] eqn:Hff.
  2:{ apply first_free_not_full in Hff. rewrite isFull_spec, Hff, Nat.eqb_refl in Hnf. done. }
  apply first_free_Some in Hff.
  set (ps1 := alter (set_name _) cid (w_players w1)).
  set (r1 := with_players r (<[sr:=Some cid]> (r_players r))).
  set (ps2 := alter (set_serial sr) cid ps1).
  assert (Hjoin : forall r2, r_players r2 = r_players r1 -> is_Some (ps2 !! cid) ->
     bind_ok (set_socks (put_room (set_pstore w1 ps2) rid r2)
                (<[cid:={| s_player := s_player s; s_room := Some rid |}]> (w_socks w1)))).
  { intros r2 Hp2 [p Hp] c s' x Hc Hx. simpl in Hc. destruct (decide (c = cid)) as [->|Hne].
    - rewrite lookup_insert_eq in Hc. injection Hc as <-. simpl in Hx. injection Hx as <-.
      split; [done|]. exists r2, p, sr. simpl. rewrite lookup_insert_eq. split_and!; [done|done| |].
      + unfold ps2 in Hp. rewrite lookup_alter_eq in Hp. destruct (ps1 !! cid); [|done]. by injection Hp as <-.
      + rewrite Hp2. simpl. rewrite list_lookup_insert_eq; [done|]. by eapply lookup_lt_Some.
    - rewrite lookup_insert_ne in Hc by congruence.
      destruct (Hb c s' x Hc Hx) as (Hin' & r' & q & sc & Hr' & Hq & Hsc & Hslot).
      assert (Hq2 : ps2 !! c = Some q) by (unfold ps2, ps1; by rewrite !lookup_alter_ne by congruence).
      split; [done|]. simpl. destruct (decide (x = rid)) as [->|Hxr].
      + rewrite Hr in Hr'. injection Hr' as <-. exists r2, q, sc. simpl. rewrite lookup_insert_eq.
        split_and!; [done|done|done|]. rewrite Hp2. apply slot_kept; [done|]. rewrite Hff. congruence.
      + exists r', q, sc. simpl. by rewrite lookup_insert_ne by done. }
  destruct (hasHost r1 ps2); simpl.
  - destruct (ps2 !! cid) eqn:Hp; simpl; [|discriminate]. intros [= <- _]. apply Hjoin; [done|by eexists].
  - pose proof (select_host_players r1 ps2) as Hsp. destruct (select_host r1 ps2) as [r2 hm]. simpl in Hsp.
    destruct (ps2 !! cid) eqn:Hp; simpl; [|discriminate]. intros [= <- _]. apply Hjoin; [done|by eexists].
Qed.

Lemma onRoomRequest_bind rnd cid s d w w' ms :
  (0 < length (m_spawn_order tmpl))%nat -> wf tmpl w -> bind_ok w -> w_socks w !! cid = Some s ->
  onRoomRequest tmpl rnd cid s d w = Ok (w', ms) -> bind_ok w'.
Proof.
  intros Hsp Hw Hb Hs. destruct (wf_socks _ _ Hw _ _ Hs) as (Hp & _). unfold onRoomRequest. rewrite Hp. simpl.
  destruct (find_or_create_spec tmpl w (wf_rlist_Forall _ w Hw)) as [(rid & r & Hf & Hr & Hnf & ->) | (Hf & ->)];
    simpl; (destruct d as [cd|]; simpl; [|discriminate]).
  - apply join_room_bind; [done| |done|done]. apply find_some in Hf as [Hin _]. by apply list_elem_of_In.
  - apply join_room_bind; [by apply open_room_bind| | |by apply new_Room_not_full]; simpl.
    + apply elem_of_app. right. by apply list_elem_of_singleton.
    + by rewrite lookup_insert_eq.
Qed.

(** The disconnect frees only the leaver's own slot; an emptied room has
    no seated socket left, so every remaining seat is still in the array. *)
Lemma onClientDisconnect_bind now cid s w w1 ms :
  wf tmpl w -> bind_ok w -> w_socks w !! cid = Some s -> onClientDisconnect now cid s w = Ok (w1, ms) ->
  bind_ok (set_socks w1 (delete cid (w_socks w1))).
Proof.
  intros Hw Hb Hs Hd c s' x Hc Hx. simpl in Hc. apply lookup_delete_Some in Hc as [Hne Hc].
  destruct (onClientDisconnect_frame now cid s w w1 ms Hd) as [_ Hsk]. rewrite Hsk in Hc.
  destruct (Hb c s' x Hc Hx) as (Hin & r' & q & sc & Hr' & Hq & Hsc & Hslot).
  destruct (wf_socks _ _ Hw _ _ Hs) as (Hp & _).
  destruct (room_of w s) as [[rid r]|] eqn:Hro.
  2:{ unfold onClientDisconnect in Hd. rewrite Hro in Hd. injection Hd as <- _.
      split; [done|]. by exists r', q, sc. }
  destruct (host_leave now cid r (w_players w)) as [[ps1 r1] hm] eqn:Hh.
  pose proof Hro as [Hsr Hr]%room_of_Some.
  destruct (Hb cid s rid Hs Hsr) as (Hrid & r0 & p0 & sr & Hr0 & Hp0 & Hs0 & Hslot0).
  rewrite Hr in Hr0. injection Hr0 as <-.
  destruct (host_leave_serial _ _ _ _ _ _ _ _ Hh Hp0) as (p & Hp1 & Hser).
  destruct (host_leave_spec _ _ _ _ _ _ _ Hh) as (Hpl & _).
  rewrite (onClientDisconnect_in_room now cid s w cid rid r ps1 r1 hm p) in Hd by done.
  injection Hd as <- _.
  rewrite (excludePlayer_slot _ _ _ p sr); [|done|by rewrite Hser|by rewrite scrub_bombs_players, Hpl].
  set (r3 := with_players _ _).
  assert (Hseat : seated (put_room (set_pstore (set_plist w (remove_player cid (w_plist w))) ps1) rid r3) c x).
  { exists (if decide (x = rid) then r3 else r'), q, sc. simpl. split_and!.
    - case_decide as Hxr; [subst x; by rewrite lookup_insert_eq|by rewrite lookup_insert_ne].
    - rewrite (host_leave_players_ne _ _ _ _ _ _ _ _ Hh); [done|congruence].
    - done.
    - case_decide as Hxr; [|done]. subst x. rewrite Hr in Hr'. injection Hr' as <-.
      simpl. rewrite ?scrub_bombs_players, Hpl. apply slot_kept; [done|]. rewrite Hslot0. congruence. }
  destruct (isEmpty r3) eqn:Hempty; [|done]. split; [|done]. simpl.
  apply swap_remove_keeps; [apply (wf_rlist_nodup _ _ Hw)|done|done|].
  intros ->. rewrite isEmpty_spec in Hempty. apply Nat.eqb_eq, nil_length_inv in Hempty.
  destruct Hseat as (r4 & q4 & sc4 & Hr4 & _ & _ & Hslot4). simpl in Hr4. rewrite lookup_insert_eq in Hr4.
  injection Hr4 as <-. assert (Hm : c ∈ members (r_players r3)) by (apply elem_of_members; eauto).
  rewrite Hempty in Hm. by apply elem_of_nil in Hm.
Qed.

(** ** Every event keeps every socket seated *)

(** What an event does to the rooms: a connect, a disconnect, a room
    request, or nothing that moves a player between slots. *)
Lemma dispatch_shape now cid ev w w' ms :
  dispatch tmpl now cid ev w = Ok (w', ms) ->
  (ev = EvConnect /\ w' = (onClientConnect cid w).1) \/
  (exists s w1 ms1, w_socks w !! cid = Some s /\ ev = EvDisconnect /\
     onClientDisconnect now cid s w = Ok (w1, ms1) /\ w' = set_socks w1 (delete cid (w_socks w1))) \/
  (exists s d rnd, w_socks w !! cid = Some s /\ ev = EvRoomRequest d rnd /\
     onRoomRequest tmpl rnd cid s d w = Ok (w', ms)) \/
  (keeps_seats w w' /\ ((ev = EvDisconnect \/ exists d rnd, ev = EvRoomRequest d rnd) -> w_socks w !! cid = None)).
Proof.
  destruct ev; simpl.
  { intros [= HX]. left. split; [done|]. by rewrite <- HX. }
  all: destruct (w_socks w !! cid) as [s|] eqn:Hs; [|intros [= <- _]; do 3 right; split; [reflexivity|done]].
  all: try (intros Hd; do 3 right; split; [|intros [HX|(? & ? & HX)]; discriminate HX]; first [
      (eapply onPlayerSpawn_seats; exact Hd) | (eapply onPlayerMove_seats; exact Hd) |
      (eapply onPlayerDeath_seats; exact Hd) | (eapply onPlayerCollectPowerup_seats; exact Hd) |
      (eapply onPlayerLostInvicibility_seats; exact Hd) | (eapply onPlayerPlantBomb_seats; exact Hd) |
      (eapply onBombExplode_seats; exact Hd) | (eapply onPowerupDisappear_seats; exact Hd)]).
  all: try (intros [= HX]; change w' with (w', ms).1; rewrite <- HX; do 3 right;
    split; [|intros [HY|(? & ? & HY)]; discriminate HY];
    first [apply onChatMessage_seats | apply onPlayerAvailable_seats | apply onPlayerUnavailable_seats |
           apply onPowerupBlink_seats | apply onMapReset_seats]).
  - destruct (onClientDisconnect now cid s w) as [[w1 ms1]|] eqn:Hd; simpl; [|discriminate].
    intros [= <- _]. right; left. by exists s, w1, ms1.
  - intros Hd. do 2 right; left. by exists s, d, rnd.
  - destruct d; simpl; [|discriminate]. intros [= <- _]. do 3 right.
    split; [reflexivity|]. intros [HY|(? & ? & HY)]; discriminate HY.
Qed.

Lemma dispatch_bind now cid ev w w' ms :
  (0 < length (m_spawn_order tmpl))%nat -> wf tmpl w -> bind_ok w -> deliverable cid ev w ->
  dispatch tmpl now cid ev w = Ok (w', ms) -> bind_ok w'.
Proof.
  intros Hsp Hw Hb Hdl Hd.
  destruct (dispatch_shape now cid ev w w' ms Hd) as
    [[-> ->] | [(s & w1 & ms1 & Hs & -> & Hd1 & ->) | [(s & d & rnd & Hs & -> & Hd1) | [Hk _]]]].
  - apply onClientConnect_bind; [done|apply Hdl].
  - by eapply onClientDisconnect_bind.
  - by eapply onRoomRequest_bind.
  - by apply (bind_ok_keeps w).
Qed.

Lemma reachable_wf_bind w :
  (0 < length (m_spawn_order tmpl))%nat -> reachable tmpl w -> wf tmpl w /\ bind_ok w.
Proof.
  intros Hsp. apply (reachable_ind tmpl (fun w => wf tmpl w /\ bind_ok w)).
  - split; [apply wf_init|]. intros c s rid. simpl. by rewrite lookup_empty.
  - intros now cid ev w0 w' ms [Hw Hb] Hdl Hd. split; [by eapply dispatch_wf|by eapply dispatch_bind].
Qed.

(** On a template with a spawn point, the disconnect's
    [rooms.indexOf(this.room)] finds the room of every bound socket. *)
Lemma disconnect_finds_room w cid s rid :
  (0 < length (m_spawn_order tmpl))%nat -> reachable tmpl w ->
  w_socks w !! cid = Some s -> s_room s = Some rid ->
  exists i, index_of rid (w_rlist w) = Z.of_nat i /\ w_rlist w !! i = Some rid /\ seated w cid rid.
Proof.
  intros Hsp Hr Hs Hsr. destruct (reachable_wf_bind w Hsp Hr) as [Hw Hb].
  destruct (Hb cid s rid Hs Hsr) as [(i & Hi)%list_elem_of_lookup Hseat].
  exists i. split_and!; [|done|done]. apply find_index_bool_decide_NoDup; [apply (wf_rlist_nodup _ _ Hw)|done].
Qed.

(** C29: on a template with at least one spawn point, in every reachable
    world every socket bound to a room is seated there: its player's
    serial names a slot of that room holding the socket's id, and the room
    is still in the rooms array ([bind_ok]).  So the disconnect's
    [rooms.indexOf(this.room)] returns the room's position, never -1, and
    the swap-remove never drops another room; and [excludePlayer] frees
    the leaver's slot. *)
Theorem reachable_seated w : (0 < length (m_spawn_order tmpl))%nat -> reachable tmpl w ->
  bind_ok w /\
  forall cid s rid, w_socks w !! cid = Some s -> s_room s = Some rid ->
    exists i, index_of rid (w_rlist w) = Z.of_nat i /\ w_rlist w !! i = Some rid /\ seated w cid rid.
Proof.
  intros Hsp Hr. split; [apply (reachable_wf_bind w Hsp Hr)|]. intros. by eapply disconnect_finds_room.
Qed.

End Binding.
