(* ===== verification/Lobby.v ===== *)
(** * The rooms registry refines an abstract lobby

    The specification (§4.2) describes the registry abstractly: an ordered
    list of rooms, each with its members; [findOrCreateRoom] joins the
    first room that is not full, in registry order, or appends a new room;
    a leaving player is removed from its room, and an emptied room is
    removed from the registry.  [Lobby] states that contract as a step
    relation on [lobby] values (the order of the remaining rooms after a
    removal is left open, as the specification leaves it; members are
    compared up to order, since [insertPlayer] fills the first free slot
    rather than appending).

    [lobby_of] reads the abstract lobby off a world: the rooms array, each
    room with the members of its roster; [lobby_op] is the lobby operation
    an event asks for.  The refinement theorem says that every event
    delivered to a reachable world performs that operation on the lobby
    ([Lobby.lstep]), up to [Lobby.equiv]. *)

From S2P Require Import Prelude JsArray Player MapState Room Wire Registry Lifecycle Gameplay Server Invariants Binding.

Module Lobby.

(** Room ids with their members, in registry order. *)
Abbreviation t := (list (nat * list string)).

(** Same rooms, same order, members up to order. *)
Definition equiv (L L' : t) : Prop := Forall2 (fun a b => a.1 = b.1 /\ a.2 ≡ₚ b.2) L L'.

Section Spec.
Variable cap : nat.

(** [findOrCreateRoom] and the join: the first room with room to spare gets
    the player, or a new room [fresh] with only the player is appended. *)
Fixpoint join (fresh : nat) (pid : string) (L : t) : t :=
  match L with
  | [] => [(fresh, [pid])]
  | (rid, ms) :: L' =>
      if Nat.ltb (length ms) cap then (rid, ms ++ [pid]) :: L' else (rid, ms) :: join fresh pid L'
  end.

(** A player leaves room [rid] (entry [i]): one occurrence of it goes; an
    emptied room leaves the registry, the other rooms in some order. *)
Definition leave (pid : string) (rid : nat) (L L' : t) : Prop :=
  exists i ms ms', L !! i = Some (rid, ms) /\ ms ≡ₚ pid :: ms' /\
    (ms' = [] -> L' ≡ₚ delete i L) /\ (ms' <> [] -> L' = <[i:=(rid, ms')]> L).

(** What an event asks of the lobby. *)
Inductive op := Idle | Join (pid : string) | Leave (pid : string) (rid : nat).

Inductive lstep : op -> t -> t -> Prop :=
  | step_idle L : lstep Idle L L
  | step_join L fresh pid : fresh ∉ L.*1 -> lstep (Join pid) L (join fresh pid L)
  | step_leave L L' pid rid : leave pid rid L L' -> lstep (Leave pid rid) L L'.

End Spec.

End Lobby.

(** ** The abstraction of a world *)

(** A room id with the members of its roster. *)
Definition entry (rooms : gmap nat Room) (rid : nat) : nat * list string :=
  (rid, default [] ((fun r => members (r_players r)) <$> rooms !! rid)).

Definition lobby_of (w : World) : Lobby.t := entry (w_rooms w) <$> w_rlist w.

(** The lobby operation of an event: a room request joins the requester,
    a disconnect leaves the socket's room, if any; nothing else touches
    the registry. *)
Definition lobby_op (cid : string) (ev : Event) (w : World) : Lobby.op :=
  match ev with
  | EvRoomRequest _ _ => Lobby.Join cid
  | EvDisconnect => match w_socks w !! cid ≫= s_room with Some rid => Lobby.Leave cid rid | None => Lobby.Idle end
  | _ => Lobby.Idle
  end.

#[export] Instance lobby_equiv_equivalence : Equivalence Lobby.equiv.
Proof.
  unfold Lobby.equiv. split.
  - intros L. apply Forall2_same_length_lookup. split; [done|]. intros i x y -> [= ->]. done.
  - intros L L' H. apply Forall2_flip. eapply Forall2_impl; [exact H|]. intros a b [? ?]. done.
  - intros L1 L2 L3 H1 H2. eapply (Forall2_trans _ _ _ _ _ _ _ H1 H2).
    Unshelve. intros a b c [-> Hab] [-> Hbc]. split; [done|]. by rewrite Hab.
Qed.

(** ** Rosters under the Room methods *)

Lemma members_fill (l : list (option string)) sr x :
  l !! sr = Some None -> members (<[sr:=Some x]> l) ≡ₚ members l ++ [x].
Proof.
  revert sr. induction l as [|o l IH]; intros [|sr] Hs; simpl in *; try done.
  - injection Hs as ->. simpl. by rewrite Permutation_cons_append.
  - destruct o; simpl; [|by apply IH]. by rewrite IH.
Qed.

Lemma members_clear (l : list (option string)) sr x :
  l !! sr = Some (Some x) -> members l ≡ₚ x :: members (<[sr:=None]> l).
Proof.
  revert sr. induction l as [|o l IH]; intros [|sr] Hs; simpl in *; try done.
  - by injection Hs as ->.
  - destruct o; simpl; [|by apply IH]. rewrite (IH sr Hs). by rewrite Permutation_swap.
Qed.

(** ** Entries of the abstraction *)

Lemma lobby_fst rooms (l : list nat) : (entry rooms <$> l).*1 = l.
Proof. induction l; f_equal/=; auto. Qed.

Lemma entry_Some rooms x rx : rooms !! x = Some rx -> entry rooms x = (x, members (r_players rx)).
Proof. intros Hx. unfold entry. by rewrite Hx. Qed.

Lemma entry_ne rooms rid r x : x <> rid -> entry (<[rid:=r]> rooms) x = entry rooms x.
Proof. intros Hne. unfold entry. by rewrite lookup_insert_ne by congruence. Qed.

Lemma entries_ne rooms rid r (l : list nat) : rid ∉ l -> entry (<[rid:=r]> rooms) <$> l = entry rooms <$> l.
Proof. intros Hn. apply list_fmap_ext. intros i x Hx. apply entry_ne. intros ->. by eapply Hn, list_elem_of_lookup_2. Qed.

(** Writing the room at position [i] of a duplicate-free array updates
    entry [i] only. *)
Lemma entries_put rooms rid r (l : list nat) i :
  NoDup l -> l !! i = Some rid ->
  entry (<[rid:=r]> rooms) <$> l = <[i:=(rid, members (r_players r))]> (entry rooms <$> l).
Proof.
  intros Hnd Hi. apply list_eq. intros j. rewrite list_lookup_fmap.
  destruct (decide (i = j)) as [<-|Hne].
  - rewrite Hi, list_lookup_insert_eq; [|by rewrite length_fmap; eapply lookup_lt_Some].
    simpl. unfold entry. by rewrite lookup_insert_eq.
  - rewrite list_lookup_insert_ne by done. rewrite list_lookup_fmap.
    destruct (l !! j) as [x|] eqn:Hj; [|done]. simpl. f_equal. apply entry_ne.
    intros ->. apply Hne. by eapply NoDup_lookup.
Qed.

(** ** Matchmaking refines [Lobby.join] *)

Section Refinement.
Context {RM : RoomMethods} {RC : RoomContract}.
Variable tmpl : MapState.

(** The scan's test on a capacity-wide roster is the abstract test. *)
Lemma not_full_ltb r :
  length (r_players r) = capacity tmpl ->
  negb (isFull r) = Nat.ltb (length (members (r_players r))) (capacity tmpl).
Proof.
  intros Hl. rewrite isFull_spec, Hl. pose proof (length_members_le (r_players r)).
  destruct (Nat.eqb_spec (length (members (r_players r))) (capacity tmpl)),
           (Nat.ltb_spec (length (members (r_players r))) (capacity tmpl)); simpl; lia.
Qed.

(** Every room of the list is in the store with a capacity-wide roster. *)
Definition rooms_ok (rooms : gmap nat Room) (l : list nat) : Prop :=
  forall x, x ∈ l -> exists rx, rooms !! x = Some rx /\ length (r_players rx) = capacity tmpl.

Lemma rooms_ok_cons rooms x l :
  rooms_ok rooms (x :: l) ->
  (exists rx, rooms !! x = Some rx /\ length (r_players rx) = capacity tmpl) /\ rooms_ok rooms l.
Proof. intros H. split; [apply H; by left|]. intros y Hy. apply H. by right. Qed.

Lemma wf_rooms_ok w : wf tmpl w -> rooms_ok (w_rooms w) (w_rlist w).
Proof.
  intros Hw x Hx. destruct (wf_rlist_rooms _ _ Hw x Hx) as [rx Hrx].
  exists rx. split; [done|]. apply (wf_rooms _ _ Hw x rx Hrx).
Qed.

(** The first room that is not full takes the player; nothing else moves. *)
Lemma entries_join_found w l rid r r2 fresh pid :
  NoDup l -> rooms_ok (w_rooms w) l -> List.find (not_full_in w) l = Some rid ->
  w_rooms w !! rid = Some r -> members (r_players r2) ≡ₚ members (r_players r) ++ [pid] ->
  Lobby.equiv (entry (<[rid:=r2]> (w_rooms w)) <$> l)
              (Lobby.join (capacity tmpl) fresh pid (entry (w_rooms w) <$> l)).
Proof.
  intros Hnd Hok Hf Hr Hm. induction l as [|x l IH]; [done|]. rewrite !fmap_cons. simpl in Hf.
  apply NoDup_cons in Hnd as [Hx Hnd]. apply rooms_ok_cons in Hok as [(rx & Hrx & Hl) Hok].
  unfold not_full_in in Hf at 1. rewrite Hrx, (not_full_ltb rx Hl) in Hf.
  rewrite (entry_Some _ _ _ Hrx). simpl.
  destruct (Nat.ltb (length (members (r_players rx))) (capacity tmpl)).
  - injection Hf as <-. rewrite Hr in Hrx. injection Hrx as <-.
    rewrite (entry_Some _ x r2) by apply lookup_insert_eq. rewrite entries_ne by done.
    constructor; [done|reflexivity].
  - assert (Hne : x <> rid) by (intros ->; by apply Hx, list_elem_of_In, (find_some _ _ Hf)).
    rewrite entry_ne, (entry_Some _ _ _ Hrx) by done. constructor; [done|by apply IH].
Qed.

(** With every room full, the join appends a new room. *)
Lemma join_all_full w l fresh pid :
  rooms_ok (w_rooms w) l -> List.find (not_full_in w) l = None ->
  Lobby.join (capacity tmpl) fresh pid (entry (w_rooms w) <$> l) = (entry (w_rooms w) <$> l) ++ [(fresh, [pid])].
Proof.
  intros Hok Hf. induction l as [|x l IH]; [done|]. rewrite !fmap_cons. simpl in Hf.
  apply rooms_ok_cons in Hok as [(rx & Hrx & Hl) Hok].
  unfold not_full_in in Hf at 1. rewrite Hrx, (not_full_ltb rx Hl) in Hf.
  rewrite (entry_Some _ _ _ Hrx). simpl.
  destruct (Nat.ltb _ _); [done|]. by rewrite IH.
Qed.

Lemma host_fill_players (b : bool) r1 ps : r_players (if b then (r1, []) else select_host r1 ps).1 = r_players r1.
Proof. destruct b; [done|apply select_host_players]. Qed.

(** The join writes one room: the player in a free slot of its roster. *)
Lemma join_room_rooms rnd cid s pid cd rid r w1 w' ms :
  isFull r = false -> join_room rnd cid s pid cd rid r w1 = Ok (w', ms) ->
  exists sr r2, r_players r !! sr = Some None /\ r_players r2 = <[sr:=Some pid]> (r_players r) /\
    w_rooms w' = <[rid:=r2]> (w_rooms w1) /\ w_rlist w' = w_rlist w1 /\
    w_socks w' = <[cid:={| s_player := s_player s; s_room := Some rid |}]> (w_socks w1) /\
    (forall q, q <> pid -> w_players w' !! q = w_players w1 !! q) /\
    exists p, w_players w' !! pid = Some p /\ p_serial p = Some sr.
Proof.
  intros Hnf. unfold join_room. rewrite insertPlayer_spec.
  destruct (first_free r) as [sr|] eqn:Hff.
  2:{ apply first_free_not_full in Hff. rewrite isFull_spec, Hff, Nat.eqb_refl in Hnf. done. }
  apply first_free_Some in Hff. set (r1 := with_players r _).
  match goal with |- context [if hasHost ?a ?b then _ else _] =>
    pose proof (host_fill_players (hasHost a b) a b) as Hr2; destruct (if hasHost a b then _ else _) as [r2 hm] end.
  destruct (_ !! pid) as [p|] eqn:Ep; simpl; [|discriminate]. intros [= <- _].
  simpl in Hr2. exists sr, r2. split_and!; [done|by rewrite Hr2|done|done|done| |].
  - intros q Hq. simpl. by rewrite !lookup_alter_ne by congruence.
  - exists p. split; [done|]. rewrite lookup_alter_eq in Ep.
    destruct (alter _ pid _ !! pid); simpl in Ep; [|done]. by injection Ep as <-.
Qed.

(** A room request refines [Lobby.join] with a fresh room id. *)
Lemma onRoomRequest_lobby rnd cid s d w w' ms :
  (0 < capacity tmpl)%nat -> wf tmpl w -> w_socks w !! cid = Some s ->
  onRoomRequest tmpl rnd cid s d w = Ok (w', ms) ->
  exists fresh, fresh ∉ w_rlist w /\ Lobby.equiv (lobby_of w') (Lobby.join (capacity tmpl) fresh cid (lobby_of w)).
Proof.
  intros Hsp Hw Hs. destruct (wf_socks _ _ Hw _ _ Hs) as (Hp & _). unfold onRoomRequest. rewrite Hp. simpl.
  assert (Hfresh : w_next_room w ∉ w_rlist w).
  { intros Hin. destruct (wf_rlist_rooms _ _ Hw _ Hin) as [rx Hrx].
    assert (Hlt : (w_next_room w < w_next_room w)%nat) by (apply (wf_fresh _ _ Hw); by eexists). lia. }
  destruct (find_or_create_spec tmpl w (wf_rlist_Forall _ w Hw)) as [(rid & r & Hf & Hr & Hnf & ->) | (Hf & ->)];
    simpl; (destruct d as [cd|]; simpl; [|discriminate]); intros Hj.
  - destruct (join_room_rooms _ _ _ _ _ _ _ _ _ _ Hnf Hj) as (sr & r2 & Hsr & Hp2 & Hrooms & Hl & _).
    exists (w_next_room w). split; [done|]. unfold lobby_of. rewrite Hrooms, Hl.
    apply (entries_join_found w _ rid r); [apply (wf_rlist_nodup _ _ Hw)|by apply wf_rooms_ok|done|done|].
    rewrite Hp2. by apply members_fill.
  - assert (Hnf : isFull (new_Room tmpl (w_next_room w)) = false) by by apply new_Room_not_full.
    destruct (join_room_rooms _ _ _ _ _ _ _ _ _ _ Hnf Hj) as (sr & r2 & Hsr & Hp2 & Hrooms & Hl & _).
    exists (w_next_room w). split; [done|]. unfold lobby_of. rewrite Hrooms, Hl.
    unfold lobby_of. simpl. rewrite insert_insert_eq, join_all_full, fmap_app by (done || by apply wf_rooms_ok).
    rewrite entries_ne by done. apply Forall2_app; [reflexivity|]. constructor; [|constructor].
    rewrite (entry_Some _ _ r2) by apply lookup_insert_eq. split; [done|]. simpl.
    rewrite Hp2, members_fill by done. rewrite new_Room_spec. simpl. by rewrite members_replicate_None.
Qed.

Lemma isEmpty_nil r : isEmpty r = true <-> members (r_players r) = [].
Proof. rewrite isEmpty_spec, Nat.eqb_eq. apply length_zero_iff_nil. Qed.

(** The element at [i] of a duplicate-free list is not in the rest. *)
Lemma NoDup_delete_not_in (l : list nat) i x : NoDup l -> l !! i = Some x -> x ∉ delete i l.
Proof. intros Hnd Hi. rewrite (delete_Permutation l i x Hi) in Hnd. by apply NoDup_cons in Hnd as []. Qed.

(** Removing room [i] of the abstraction: the swap-remove of the array,
    the room written back first. *)
Lemma entries_swap_remove rooms rid r (l : list nat) i :
  NoDup l -> l !! i = Some rid ->
  entry (<[rid:=r]> rooms) <$> swap_remove (index_of rid l) l ≡ₚ delete i (entry rooms <$> l).
Proof.
  intros Hnd Hi. unfold index_of. rewrite (find_index_bool_decide_NoDup l i rid Hnd Hi).
  rewrite (swap_remove_perm l i rid Hi), entries_ne by (by apply NoDup_delete_not_in).
  by rewrite list_fmap_delete.
Qed.

(** A disconnect refines [Lobby.leave] of the socket's room, and leaves
    the lobby as it is when the socket is in no room. *)
Lemma onClientDisconnect_lobby now cid s w w1 ms :
  wf tmpl w -> bind_ok w -> w_socks w !! cid = Some s -> onClientDisconnect now cid s w = Ok (w1, ms) ->
  match s_room s with
  | Some rid => Lobby.leave cid rid (lobby_of w) (lobby_of w1)
  | None => lobby_of w1 = lobby_of w
  end.
Proof.
  intros Hw Hb Hs Hd. destruct (wf_socks _ _ Hw _ _ Hs) as (Hp & _).
  destruct (s_room s) as [rid|] eqn:Hsr.
  2:{ unfold onClientDisconnect, room_of in Hd. rewrite Hsr in Hd. injection Hd as <- _. done. }
  destruct (Hb cid s rid Hs Hsr) as (_ & r & _ & _ & Hr & _).
  assert (Hro : room_of w s = Some (rid, r)) by (by apply room_of_Some).
  destruct (Hb cid s rid Hs Hsr) as ([i Hi]%list_elem_of_lookup & r0 & p0 & sr & Hr0 & Hp0 & Hs0 & Hslot0).
  rewrite Hr in Hr0. injection Hr0 as <-.
  destruct (host_leave now cid r (w_players w)) as [[ps1 r1] hm] eqn:Hh.
  destruct (host_leave_serial _ _ _ _ _ _ _ _ Hh Hp0) as (p & Hp1 & Hser).
  destruct (host_leave_spec _ _ _ _ _ _ _ Hh) as (Hpl & _).
  rewrite (onClientDisconnect_in_room now cid s w cid rid r ps1 r1 hm p) in Hd by done.
  injection Hd as <- _.
  rewrite (excludePlayer_slot _ _ _ p sr); [|done|by rewrite Hser|by rewrite scrub_bombs_players, Hpl].
  set (r3 := with_players _ _).
  assert (Hr3 : r_players r3 = <[sr:=None]> (r_players r)) by (simpl; by rewrite Hpl).
  exists i, (members (r_players r)), (members (r_players r3)). split_and!.
  - unfold lobby_of. rewrite list_lookup_fmap, Hi. simpl. by rewrite (entry_Some _ _ _ Hr).
  - rewrite Hr3. by apply members_clear.
  - intros Hnil. apply isEmpty_nil in Hnil. rewrite Hnil. unfold lobby_of. simpl.
    by apply entries_swap_remove; [apply (wf_rlist_nodup _ _ Hw)|].
  - intros Hne. destruct (isEmpty r3) eqn:He; [by apply isEmpty_nil in He|]. unfold lobby_of. simpl.
    by apply entries_put; [apply (wf_rlist_nodup _ _ Hw)|].
Qed.

(** A step that moves nobody between slots leaves the lobby as it is. *)
Lemma lobby_keeps w w' : wf tmpl w -> keeps_seats w w' -> lobby_of w' = lobby_of w.
Proof.
  intros Hw (Hl & _ & Hr & _). unfold lobby_of. rewrite Hl. apply list_fmap_ext. intros i x Hx.
  destruct (wf_rlist_rooms _ _ Hw x) as [rx Hrx]; [by eapply list_elem_of_lookup_2|].
  destruct (Hr x rx Hrx) as (r' & Hr' & Hpl). by rewrite (entry_Some _ _ _ Hrx), (entry_Some _ _ _ Hr'), Hpl.
Qed.

(** C31: the rooms registry refines the abstract lobby.  On a template
    with a spawn point, an event delivered to a reachable world performs
    the lobby operation it asks for: a room request joins the requester to
    the first room that is not full (else to a new room with a fresh id at
    the end), a disconnect removes the leaver from its socket's room and
    drops the room once it is empty, the rest of the registry kept, and
    every other event leaves the lobby as it is; members are compared up
    to order. *)
Theorem lobby_refinement now cid ev w w' ms :
  (0 < capacity tmpl)%nat -> reachable tmpl w -> deliverable cid ev w ->
  dispatch tmpl now cid ev w = Ok (w', ms) ->
  exists L, Lobby.lstep (capacity tmpl) (lobby_op cid ev w) (lobby_of w) L /\ Lobby.equiv (lobby_of w') L.
Proof.
  intros Hsp Hr Hdl Hd. destruct (reachable_wf_bind tmpl w Hsp Hr) as [Hw Hb].
  destruct (dispatch_shape tmpl now cid ev w w' ms Hd) as
    [[-> ->] | [(s & w1 & ms1 & Hs & -> & Hd1 & ->) | [(s & d & rnd & Hs & -> & Hd1) | [Hk Hno]]]].
  - exists (lobby_of w). split; [constructor|reflexivity].
  - pose proof (onClientDisconnect_lobby now cid s w w1 ms1 Hw Hb Hs Hd1) as Hl.
    simpl. rewrite Hs. simpl. destruct (s_room s) as [rid|].
    + exists (lobby_of w1). split; [by constructor|reflexivity].
    + exists (lobby_of w). split; [constructor|]. rewrite <- Hl. reflexivity.
  - destruct (onRoomRequest_lobby rnd cid s d w w' ms Hsp Hw Hs Hd1) as (fresh & Hf & Heq).
    exists (Lobby.join (capacity tmpl) fresh cid (lobby_of w)). split; [|done].
    constructor. unfold lobby_of. by rewrite lobby_fst.
  - exists (lobby_of w). rewrite (lobby_keeps w w') by done. split; [|reflexivity].
    destruct ev; try constructor; exfalso; destruct Hdl as [s0 Hs0];
      (assert (w_socks w !! cid = None) by (apply Hno; eauto)); congruence.
Qed.

End Refinement.
