(* ===== verification/Drain.v ===== *)
(** * When every client has left, the registry is empty

    The specification (§3, §4.2) expects a player to be in at most one
    room and a room to leave the registry once its last member has left.
    The code frees a roster slot only on disconnect, and only the slot of
    the room the socket is bound to, at the player's current serial.  A
    client that asks for a room twice therefore leaves a ghost slot behind
    (see [Lifecycle.second_request_double_membership] and the run
    [Scenarios.rooms_leak]).

    This file shows that this is the only way rooms leak.  [good_step] is
    a [Server.step] whose room requests come from sockets in no room
    ([once_deliverable]), as the specification's clients behave.  In every
    world such steps reach, every occupied slot of a room in the array
    holds a live client, bound to that room, whose serial is that slot
    ([slot_live]), and every room in the array has a member ([drain_ok]).
    Hence with no client connected the rooms array is empty
    ([registry_drains]). *)

From S2P Require Import Prelude JsArray Player MapState Room Wire Registry Lifecycle Gameplay Server Invariants Binding Lobby.

(** A delivered event whose room request, if it is one, comes from a
    socket bound to no room. *)
Definition once_deliverable (cid : string) (ev : Event) (w : World) : Prop :=
  deliverable cid ev w /\
  match ev with EvRoomRequest _ _ => (w_socks w !! cid ≫= s_room) = None | _ => True end.

#[global] Instance once_deliverable_dec cid ev w : Decision (once_deliverable cid ev w).
Proof. destruct ev; unfold once_deliverable; apply _. Defined.

(** Slot [i] of room [rid] holds [q]: a live client bound to [rid] with
    serial [i]. *)
Definition slot_live (w : World) (rid i : nat) (q : string) : Prop :=
  exists s p, w_socks w !! q = Some s /\ s_room s = Some rid /\ w_players w !! q = Some p /\ p_serial p = Some i.

Record drain_ok (w : World) : Prop := {
  drain_slots : forall rid r i q, rid ∈ w_rlist w -> w_rooms w !! rid = Some r ->
    r_players r !! i = Some (Some q) -> slot_live w rid i q;
  drain_nonempty : forall rid r, rid ∈ w_rlist w -> w_rooms w !! rid = Some r -> members (r_players r) <> []
}.

(** ** Helpers *)

Lemma slot_live_transfer w w' rid i q :
  slot_live w rid i q -> w_socks w' !! q = w_socks w !! q -> w_players w' !! q = w_players w !! q ->
  slot_live w' rid i q.
Proof. intros (s & p & Hs & Hr & Hp & Hser) Hs' Hp'. exists s, p. by rewrite Hs', Hp'. Qed.

(** A client in slot [i] of [rid] is not a socket bound elsewhere. *)
Lemma slot_live_ne w rid i q cid s :
  slot_live w rid i q -> w_socks w !! cid = Some s -> s_room s <> Some rid -> q <> cid.
Proof. intros (s' & p & Hs' & Hr & _) Hs Hne ->. rewrite Hs in Hs'. injection Hs' as <-. done. Qed.

Lemma swap_remove_gone (l : list nat) rid :
  NoDup l -> rid ∈ l -> rid ∉ swap_remove (index_of rid l) l.
Proof.
  intros Hnd (i & Hi)%list_elem_of_lookup. unfold index_of.
  rewrite (find_index_bool_decide_NoDup l i rid Hnd Hi), (swap_remove_perm l i rid Hi).
  by apply NoDup_delete_not_in.
Qed.

Lemma drain_init : drain_ok init_world.
Proof. split; simpl; intros rid r; [intros ? ? Hin|intros Hin]; by apply elem_of_nil in Hin. Qed.

Section Drain.
Context {RM : RoomMethods} {RC : RoomContract}.
Variable tmpl : MapState.

Inductive good_step : World -> World -> Prop :=
  | good_event now cid ev w w' ms :
      once_deliverable cid ev w -> dispatch tmpl now cid ev w = Ok (w', ms) -> good_step w w'.

Definition good_reachable (w : World) : Prop := rtc good_step init_world w.

Lemma good_reachable_reachable w : good_reachable w -> reachable tmpl w.
Proof.
  apply rtc_subrel. intros x y [now cid ev ? ? ms [Hdl _] Hd]. by eapply step_event.
Qed.

(** A run checked with [once_deliverable] is made of good steps. *)
Lemma good_run evs w0 w1 ms :
  good_reachable w0 -> run_ok_with tmpl once_deliverable evs w0 = true -> run tmpl evs w0 = Ok (w1, ms) ->
  good_reachable w1.
Proof.
  intros H0 Hok Hrun. unfold good_reachable. etrans; [exact H0|].
  eapply run_steps_with; [|exact Hok|exact Hrun]. intros. by eapply good_event.
Qed.

(** ** The steps keep [drain_ok] *)

Lemma drain_keeps w w' : wf tmpl w -> drain_ok w -> keeps_seats w w' -> drain_ok w'.
Proof.
  intros Hw [Hsl Hne] (Hl & Hs & Hr & Hp). split; rewrite Hl.
  - intros rid r' i q Hin Hr' Hi. destruct (wf_rlist_rooms _ _ Hw rid Hin) as [r Hr0].
    destruct (Hr rid r Hr0) as (r'' & Hr'' & Hpl). rewrite Hr' in Hr''. injection Hr'' as <-.
    rewrite Hpl in Hi. destruct (Hsl rid r i q Hin Hr0 Hi) as (s & p & Hsq & Hsr & Hpq & Hser).
    destruct (Hp q p Hpq) as (p' & Hp' & Hser'). exists s, p'. rewrite Hs. split_and!; congruence.
  - intros rid r' Hin Hr'. destruct (wf_rlist_rooms _ _ Hw rid Hin) as [r Hr0].
    destruct (Hr rid r Hr0) as (r'' & Hr'' & Hpl). rewrite Hr' in Hr''. injection Hr'' as <-.
    rewrite Hpl. by apply (Hne rid r).
Qed.

Lemma drain_connect cid w :
  drain_ok w -> w_socks w !! cid = None -> drain_ok (onClientConnect cid w).1.
Proof.
  intros [Hsl Hne] Hc. split; [|done]. intros rid r i q Hin Hr Hi. simpl in *.
  pose proof (Hsl rid r i q Hin Hr Hi) as Hq. apply (slot_live_transfer w); [done| |].
  all: simpl; rewrite lookup_insert_ne; [done|]; intros ->; destruct Hq as (s & _ & Hs & _); congruence.
Qed.

(** A join from a socket in no room: the requester takes a free slot with
    its serial; every other slot keeps its client, who is not the
    requester.  Room [rid] may be a new room that had no member yet. *)
Lemma drain_join rnd cid s cd rid r w1 w' ms :
  (forall x rx i q, x ∈ w_rlist w1 -> w_rooms w1 !! x = Some rx ->
     r_players rx !! i = Some (Some q) -> slot_live w1 x i q) ->
  (forall x rx, x ∈ w_rlist w1 -> x <> rid -> w_rooms w1 !! x = Some rx -> members (r_players rx) <> []) ->
  w_socks w1 !! cid = Some s -> s_room s = None -> rid ∈ w_rlist w1 ->
  w_rooms w1 !! rid = Some r -> isFull r = false ->
  join_room rnd cid s cid cd rid r w1 = Ok (w', ms) -> drain_ok w'.
Proof.
  intros Hsl Hne Hs Hsr Hin Hr Hnf Hj.
  destruct (join_room_rooms _ _ _ _ _ _ _ _ _ _ Hnf Hj)
    as (sr & r2 & Hfree & Hp2 & Hrooms & Hl & Hsk & Hpl & p & Hp & Hser).
  (* a client seated before the join is not the requester *)
  assert (Hother : forall x rx i q, x ∈ w_rlist w1 -> w_rooms w1 !! x = Some rx ->
            r_players rx !! i = Some (Some q) -> slot_live w' x i q).
  { intros x rx i q Hx Hrx Hi. pose proof (Hsl x rx i q Hx Hrx Hi) as Hq.
    assert (Hqc : q <> cid) by (eapply slot_live_ne; [exact Hq|exact Hs|by rewrite Hsr]).
    apply (slot_live_transfer w1); [done| |by apply Hpl]. rewrite Hsk. by apply lookup_insert_ne. }
  split; rewrite Hl, Hrooms.
  - intros x rx i q Hx Hrx Hi. destruct (decide (x = rid)) as [->|Hxr].
    + rewrite lookup_insert_eq in Hrx. injection Hrx as <-. rewrite Hp2 in Hi.
      destruct (decide (i = sr)) as [->|Hisr].
      * rewrite list_lookup_insert_eq in Hi by (by eapply lookup_lt_Some). injection Hi as <-.
        exists {| s_player := s_player s; s_room := Some rid |}, p. rewrite Hsk, lookup_insert_eq. done.
      * rewrite list_lookup_insert_ne in Hi by done. by eapply Hother.
    + rewrite lookup_insert_ne in Hrx by done. by eapply Hother.
  - intros x rx Hx Hrx. destruct (decide (x = rid)) as [->|Hxr].
    + rewrite lookup_insert_eq in Hrx. injection Hrx as <-. rewrite Hp2.
      assert (Hm : cid ∈ members (<[sr:=Some cid]> (r_players r))).
      { apply elem_of_members. exists sr. apply list_lookup_insert_eq. by eapply lookup_lt_Some. }
      intros Hnil. rewrite Hnil in Hm. by apply elem_of_nil in Hm.
    + rewrite lookup_insert_ne in Hrx by done. by apply (Hne x rx).
Qed.

Lemma drain_request rnd cid s d w w' ms :
  (0 < capacity tmpl)%nat -> wf tmpl w -> drain_ok w -> w_socks w !! cid = Some s -> s_room s = None ->
  onRoomRequest tmpl rnd cid s d w = Ok (w', ms) -> drain_ok w'.
Proof.
  intros Hsp Hw [Hsl Hne] Hs Hsr. destruct (wf_socks _ _ Hw _ _ Hs) as (Hp & _).
  unfold onRoomRequest. rewrite Hp. simpl.
  destruct (find_or_create_spec tmpl w (wf_rlist_Forall _ w Hw)) as [(rid & r & Hf & Hr & Hnf & ->) | (Hf & ->)];
    simpl; (destruct d as [cd|]; simpl; [|discriminate]); intros Hj.
  - eapply (drain_join rnd cid s cd rid r w); try done.
    + intros x rx Hx _ Hrx. by apply (Hne x rx).
    + apply find_some in Hf as [Hin _]. by apply list_elem_of_In.
  - assert (Hnew : w_rooms w !! w_next_room w = None).
    { destruct (w_rooms w !! w_next_room w) eqn:E; [|done]. exfalso.
      assert (Hlt : (w_next_room w < w_next_room w)%nat) by (apply (wf_fresh _ _ Hw); by eexists). lia. }
    eapply (drain_join rnd cid s cd (w_next_room w) _ (open_room tmpl w)); try done; simpl.
    + intros x rx i q Hx Hrx Hi. destruct (decide (x = w_next_room w)) as [->|Hxn].
      * rewrite lookup_insert_eq in Hrx. injection Hrx as <-. rewrite new_Room_spec in Hi. simpl in Hi.
        by apply lookup_replicate in Hi as [? _].
      * rewrite lookup_insert_ne in Hrx by done. apply elem_of_app in Hx as [Hx|Hx%list_elem_of_singleton]; [|done].
        exact (Hsl x rx i q Hx Hrx Hi).
    + intros x rx Hx Hxn Hrx. rewrite lookup_insert_ne in Hrx by done.
      apply elem_of_app in Hx as [Hx|Hx%list_elem_of_singleton]; [|done]. by apply (Hne x rx).
    + apply elem_of_app. right. by apply list_elem_of_singleton.
    + by rewrite lookup_insert_eq.
    + by apply new_Room_not_full.
Qed.

(** A disconnect frees the leaver's slot, the only one it holds; a room
    it leaves empty leaves the array. *)
Lemma drain_disconnect now cid s w w1 ms :
  wf tmpl w -> bind_ok w -> drain_ok w -> w_socks w !! cid = Some s ->
  onClientDisconnect now cid s w = Ok (w1, ms) -> drain_ok (set_socks w1 (delete cid (w_socks w1))).
Proof.
  intros Hw Hb [Hsl Hne] Hs Hd. destruct (wf_socks _ _ Hw _ _ Hs) as (Hp & _).
  destruct (onClientDisconnect_frame now cid s w w1 ms Hd) as [_ Hsk].
  destruct (s_room s) as [rid|] eqn:Hsr.
  2:{ unfold onClientDisconnect, room_of in Hd. rewrite Hsr in Hd. injection Hd as <- _.
      split; simpl; [|done]. intros x rx i q Hx Hrx Hi. pose proof (Hsl x rx i q Hx Hrx Hi) as Hq.
      apply (slot_live_transfer w); [done| |done]. simpl.
      apply lookup_delete_ne. symmetry. eapply slot_live_ne; [exact Hq|exact Hs|by rewrite Hsr]. }
  destruct (Hb cid s rid Hs Hsr) as (Hin & r & p0 & sr & Hr & Hp0 & Hs0 & Hslot0).
  assert (Hro : room_of w s = Some (rid, r)) by (by apply room_of_Some).
  destruct (host_leave now cid r (w_players w)) as [[ps1 r1] hm] eqn:Hh.
  destruct (host_leave_serial _ _ _ _ _ _ _ _ Hh Hp0) as (p & Hp1 & Hser).
  destruct (host_leave_spec _ _ _ _ _ _ _ Hh) as (Hpl & _).
  rewrite (onClientDisconnect_in_room now cid s w cid rid r ps1 r1 hm p) in Hd by done.
  injection Hd as Hw1 _.
  rewrite (excludePlayer_slot _ _ _ p sr) in Hw1; [|done|by rewrite Hser|by rewrite scrub_bombs_players, Hpl].
  set (r3 := with_players _ _) in Hw1.
  assert (Hr3 : r_players r3 = <[sr:=None]> (r_players r)) by (simpl; by rewrite Hpl).
  (* every slot left after the disconnect held someone else before it *)
  assert (Hkeep : forall x rx i q, x ∈ w_rlist w -> <[rid:=r3]> (w_rooms w) !! x = Some rx ->
            r_players rx !! i = Some (Some q) -> q <> cid /\ slot_live w x i q).
  { intros x rx i q Hx Hrx Hi. destruct (decide (x = rid)) as [->|Hxr].
    - rewrite lookup_insert_eq in Hrx. injection Hrx as <-. rewrite Hr3 in Hi.
      destruct (decide (i = sr)) as [->|Hisr].
      { rewrite list_lookup_insert_eq in Hi by (by eapply lookup_lt_Some). discriminate. }
      rewrite list_lookup_insert_ne in Hi by done. pose proof (Hsl rid r i q Hin Hr Hi) as Hq.
      split; [|done]. intros ->. destruct Hq as (s' & p' & _ & _ & Hp' & Hser').
      rewrite Hp0 in Hp'. injection Hp' as <-. congruence.
    - rewrite lookup_insert_ne in Hrx by done. pose proof (Hsl x rx i q Hx Hrx Hi) as Hq.
      split; [|done]. eapply slot_live_ne; [exact Hq|exact Hs|congruence]. }
  assert (Hsub : forall x, x ∈ w_rlist w1 -> x ∈ w_rlist w).
  { rewrite <- Hw1. destruct (isEmpty r3); simpl; [|done].
    apply swap_remove_sub, (wf_rlist_nodup _ _ Hw). }
  assert (Hrooms : w_rooms w1 = <[rid:=r3]> (w_rooms w)) by (rewrite <- Hw1; by destruct (isEmpty r3)).
  split; simpl; rewrite Hrooms.
  - intros x rx i q Hx Hrx Hi. destruct (Hkeep x rx i q (Hsub x Hx) Hrx Hi) as [Hqc Hq].
    apply (slot_live_transfer w); [done| |].
    + simpl. rewrite lookup_delete_ne by congruence. by rewrite Hsk.
    + rewrite <- Hw1. destruct (isEmpty r3); simpl; by apply (host_leave_players_ne _ _ _ _ _ _ _ _ Hh).
  - intros x rx Hx Hrx. destruct (decide (x = rid)) as [->|Hxr].
    + rewrite lookup_insert_eq in Hrx. injection Hrx as <-.
      destruct (isEmpty r3) eqn:He.
      * exfalso. rewrite <- Hw1 in Hx. simpl in Hx.
        by apply (swap_remove_gone (w_rlist w) rid (wf_rlist_nodup _ _ Hw) Hin).
      * intros Hnil. apply isEmpty_nil in Hnil. congruence.
    + rewrite lookup_insert_ne in Hrx by done. by apply (Hne x rx (Hsub x Hx)).
Qed.

Lemma dispatch_drain now cid ev w w' ms :
  (0 < capacity tmpl)%nat -> wf tmpl w -> bind_ok w -> drain_ok w -> once_deliverable cid ev w ->
  dispatch tmpl now cid ev w = Ok (w', ms) -> drain_ok w'.
Proof.
  intros Hsp Hw Hb Hdr [Hdl Hon] Hd.
  destruct (dispatch_shape tmpl now cid ev w w' ms Hd) as
    [[-> ->] | [(s & w1 & ms1 & Hs & -> & Hd1 & ->) | [(s & d & rnd & Hs & -> & Hd1) | [Hk _]]]].
  - apply drain_connect; [done|apply Hdl].
  - by eapply drain_disconnect.
  - rewrite Hs in Hon. by eapply drain_request.
  - by apply (drain_keeps w).
Qed.

Lemma good_reachable_drain w : (0 < capacity tmpl)%nat -> good_reachable w -> drain_ok w.
Proof.
  intros Hsp. apply (rtc_ind_r (fun w => drain_ok w)); [apply drain_init|].
  intros y z Hy Hst Hdy. destruct Hst as [now cid ev y' z' ms Hdl Hd].
  destruct (reachable_wf_bind tmpl y' Hsp (good_reachable_reachable y' Hy)) as [Hw Hb].
  exact (dispatch_drain now cid ev y' z' ms Hsp Hw Hb Hdy Hdl Hd).
Qed.

(** C16: with clients that ask for a room only while in none, the registry
    has no ghosts and drains: on a template with a spawn point, in every
    world such runs reach, every member of every room in the rooms array
    is a live client bound to that room, and once no client is connected
    the rooms array is empty. *)
Theorem registry_drains w :
  (0 < capacity tmpl)%nat -> good_reachable w ->
  (forall rid r q, rid ∈ w_rlist w -> w_rooms w !! rid = Some r -> q ∈ members (r_players r) ->
     exists s, w_socks w !! q = Some s /\ s_room s = Some rid) /\
  ((forall cid, w_socks w !! cid = None) -> w_rlist w = []).
Proof.
  intros Hsp Hr. destruct (good_reachable_drain w Hsp Hr) as [Hsl Hne].
  pose proof (reachable_wf tmpl w (good_reachable_reachable w Hr)) as Hw.
  assert (Hlive : forall rid r q, rid ∈ w_rlist w -> w_rooms w !! rid = Some r -> q ∈ members (r_players r) ->
            exists s, w_socks w !! q = Some s /\ s_room s = Some rid).
  { intros rid r q Hin Hrr (i & Hi)%elem_of_members.
    destruct (Hsl rid r i q Hin Hrr Hi) as (s & p & Hs & Hsr & _). eauto. }
  split; [done|]. intros Hnone. destruct (decide (w_rlist w = [])) as [|Hnil]; [done|]. exfalso.
  assert (exists rid, rid ∈ w_rlist w) as [rid Hin]
    by (destruct (w_rlist w) as [|x l]; [done|exists x; left]).
  destruct (wf_rlist_rooms _ _ Hw rid Hin) as [r Hrr].
  destruct (members (r_players r)) as [|q qs] eqn:Em; [exact (Hne rid r Hin Hrr Em)|].
  assert (Hq : q ∈ members (r_players r)) by (rewrite Em; left).
  destruct (Hlive rid r q Hin Hrr Hq) as (s & Hs & _). by rewrite Hnone in Hs.
Qed.

End Drain.
