(* ===== verification/Scenarios.v ===== *)
(** * Concrete runs of the server and the witnesses of the theorems

    A reference map shaped like the game's ([demo_map]: a 10-wide grid with
    "bombs", "objects" and "powerups" layers of 100 cells and eight spawn
    points), worlds obtained by running event sequences through [run] with
    the [js_room_methods] rooms, and one witness per theorem with
    hypotheses: each applies the theorem to a concrete world and discharges
    its hypotheses by computation. *)

From S2P Require Import Prelude JsArray Player MapState Room Wire Registry Lifecycle Gameplay Server Http Isolation Invariants Bombs Binding Lobby Drain.

Definition demo_map : MapState :=
  {| m_width := 10;
     m_layers := [mkLayer "bombs" (js_of_list (replicate 100 0%Z));
                  mkLayer "objects" (js_of_list (replicate 100 1%Z));
                  mkLayer "powerups" (js_of_list (replicate 100 0%Z))];
     m_spawn_order := [mkSpawnPoint 1 1; mkSpawnPoint 8 1; mkSpawnPoint 1 8; mkSpawnPoint 8 8;
                       mkSpawnPoint 4 1; mkSpawnPoint 4 8; mkSpawnPoint 1 4; mkSpawnPoint 8 4] |}.

Definition world_of (o : outcome (World * list msg)) : World :=
  match o with Ok (w, _) => w | Crash _ => init_world end.
Definition msgs_of (o : outcome (World * list msg)) : list msg :=
  match o with Ok (_, ms) => ms | Crash _ => [] end.

Definition sock_at (w : World) (cid : string) : Sock := default (mkSock None None) (w_socks w !! cid).
Definition room_at (w : World) (rid : nat) : Room := default (js_new_Room demo_map rid) (w_rooms w !! rid).
Definition player_at (w : World) (pid : string) : Player := default (new_player pid) (w_players w !! pid).

(** Cell [k] of layer [li] of room [rid]. *)
Definition layer_cell (w : World) (rid li : nat) (k : Z) : option Z :=
  m_layers (r_map (room_at w rid)) !! li ≫= fun l => js_get (l_data l) k.

Definition join (cid : string) : list (Z * string * Event) :=
  [(0%Z, cid, EvConnect); (0%Z, cid, EvRoomRequest (Some (mkRoomReq (Some cid))) 7)].

(** Players "a" and "b" in room 0, "a" its host. *)
Definition w_ab : World := world_of (run demo_map (join "a" ++ join "b") init_world).

(** Eight players fill room 0. *)
Definition eight : list string := ["a"; "b"; "c"; "d"; "e"; "f"; "g"; "h"].
Definition w_full : World := world_of (run demo_map (eight ≫= join) init_world).

Ltac witness_tac :=
  vm_compute; first [reflexivity | discriminate | lia | tauto | solve [eauto]
                    | (repeat constructor; set_solver)].

(** Worlds used by the witnesses. *)
Definition w_a : World := world_of (run demo_map (join "a") init_world).
Definition w_i : World := world_of (run demo_map [(0%Z, "i", EvConnect)] w_full).
Definition w_bomb : World :=
  world_of (run demo_map [(3%Z, "a", EvPlant (Some (mkBombIn 0 2 3)))] w_ab).
Definition w_spawned : World :=
  world_of (run demo_map [(1%Z, "b", EvSpawn (Some (mkSpawnIn 32 None)))] w_ab).
Definition w_away : World := world_of (run demo_map [(2%Z, "a", EvUnavailable)] w_a).
Definition w_lobby : World := world_of (run demo_map [(0%Z, "z", EvConnect)] init_world).

(** A checked run from a reachable world ends in a reachable world. *)
Lemma reach_run evs w0 w1 ms :
  reachable demo_map w0 -> run_ok demo_map evs w0 = true -> run demo_map evs w0 = Ok (w1, ms) ->
  reachable demo_map w1.
Proof. intros H0 Hok Hrun. unfold reachable in *. etrans; [exact H0|]. by eapply run_steps. Qed.

Ltac reach_tac w0 evs :=
  apply (reach_run evs w0 _ (msgs_of (run demo_map evs w0))); [|vm_compute; reflexivity..].

Lemma w_ab_reachable : reachable demo_map w_ab.
Proof. reach_tac init_world (join "a" ++ join "b"). apply rtc_refl. Qed.

Lemma w_full_reachable : reachable demo_map w_full.
Proof. reach_tac init_world (eight ≫= join). apply rtc_refl. Qed.

Lemma w_i_reachable : reachable demo_map w_i.
Proof. reach_tac w_full [(0%Z, "i", EvConnect)]. exact w_full_reachable. Qed.

(** ** Witnesses *)

(** Player "i" asks for a room while room 0 is full: a new room 1 opens. *)
Lemma onRoomRequest_first_fit_witness :
  exists w' ms rid r',
    onRoomRequest demo_map 7 "i" (sock_at w_i "i") (Some (mkRoomReq None)) w_i = Ok (w', ms) /\
    w_socks w' !! "i" = Some {| s_player := Some "i"; s_room := Some rid |} /\
    w_rooms w' !! rid = Some r' /\ "i" ∈ members (r_players r') /\
    ((List.find (not_full_in w_i) (w_rlist w_i) = Some rid /\ w_rlist w' = w_rlist w_i) \/
     (List.find (not_full_in w_i) (w_rlist w_i) = None /\ rid = w_next_room w_i /\
      w_rlist w' = w_rlist w_i ++ [rid])).
Proof. apply (onRoomRequest_first_fit demo_map 7 "i" (sock_at w_i "i") (mkRoomReq None) w_i "i");
  witness_tac. Defined.

(** The only member of room 0 leaves: room 0 leaves the array. *)
Lemma disconnect_removes_empty_room_witness :
  exists w' ms, onClientDisconnect 5 "a" (sock_at w_a "a") w_a = Ok (w', ms) /\
    (w_rlist w' ≡ₚ delete 0%nat (w_rlist w_a)) /\ (0%nat ∉ w_rlist w') /\
    forall rid', rid' <> 0%nat -> w_rooms w' !! rid' = w_rooms w_a !! rid'.
Proof.
  apply (disconnect_removes_empty_room 5 "a" (sock_at w_a "a") w_a "a" 0 (room_at w_a 0)
           (player_at w_a "a") 0 0); witness_tac.
Defined.

(** "a" (serial 0) planted at (col 2, row 3) and leaves: cell 32 is
    scrubbed, every other cell kept. *)
Definition bl_bomb : Layer := mkLayer "bombs" (js_set (js_of_list (replicate 100 0%Z)) 32 1).

Lemma disconnect_scrubs_bombs_witness :
  exists w' ms r' bl',
    onClientDisconnect 5 "a" (sock_at w_bomb "a") w_bomb = Ok (w', ms) /\
    w_rooms w' !! 0%nat = Some r' /\ m_layers (r_map r') !! 0%nat = Some bl' /\
    js_length (l_data bl') = js_length (l_data bl_bomb) /\
    (forall k, (0 <= k < js_length (l_data bl_bomb))%Z -> js_get (l_data bl_bomb) k = Some (Z.of_nat 0 + 1)%Z ->
       js_get (l_data bl') k = Some 0%Z) /\
    (forall k, js_get (l_data bl_bomb) k <> Some (Z.of_nat 0 + 1)%Z \/ ~ (0 <= k < js_length (l_data bl_bomb))%Z ->
       js_get (l_data bl') k = js_get (l_data bl_bomb) k).
Proof.
  apply (disconnect_scrubs_bombs 5 "a" (sock_at w_bomb "a") w_bomb "a" 0 (room_at w_bomb 0)
           (player_at w_bomb "a") 0 0 bl_bomb); witness_tac.
Defined.

(** Spec §8: in a full room the host "a" leaves while the seven others are
    active: "b" or another of them becomes host. *)
Lemma disconnect_host_migrates_witness :
  exists w' ms r' h,
    onClientDisconnect 9 "a" (sock_at w_full "a") w_full = Ok (w', ms) /\ w_rooms w' !! 0%nat = Some r' /\
    rc_timestamp r' = 9%Z /\ r_host r' = Some h /\ h <> "a" /\
    h ∈ members (r_players r') /\ active_in (w_players w') h = true /\
    receivers "player exit room" ms = filter (fun c => c <> "a") (members (r_players (room_at w_full 0))).
Proof.
  apply (disconnect_host_migrates 9 "a" (sock_at w_full "a") w_full "a" 0 (room_at w_full 0)
           (player_at w_full "a") "b"); witness_tac.
Defined.

(** "a" is alone and away (room 0 has no active host); it comes back. *)
Lemma available_recovers_host_witness :
  exists r', w_rooms (onPlayerAvailable (sock_at w_away "a") w_away).1 !! 0%nat = Some r' /\
    hasHost r' (w_players (onPlayerAvailable (sock_at w_away "a") w_away).1) = true.
Proof.
  apply (available_recovers_host (sock_at w_away "a") w_away "a" 0 (room_at w_away 0)); witness_tac.
Defined.

(** "a" (serial 0) reports "b" (serial 1) killed by "a": a kill, and the
    self-kill branch does not apply. *)
Lemma onPlayerDeath_frags_witness :
  (1%Z = 0%Z ->
   exists w', onPlayerDeath (sock_at w_ab "a") (Some (mkDeathIn 1 0)) w_ab =
      Ok (w', emitAll (room_at w_ab 0) "player death"
                (PDeath (mkDeathIn 1 0) "b" (p_frags (player_at w_ab "b") - 1)%Z "b"
                        (p_frags (player_at w_ab "b") - 1)%Z)) /\
    p_frags <$> w_players w' !! "b" = Some (p_frags (player_at w_ab "b") - 1)%Z /\
    p_is_dead <$> w_players w' !! "b" = Some true) /\
  (1%Z <> 0%Z -> "b" <> "a" ->
   exists w', onPlayerDeath (sock_at w_ab "a") (Some (mkDeathIn 1 0)) w_ab =
      Ok (w', emitAll (room_at w_ab 0) "player death"
                (PDeath (mkDeathIn 1 0) "b" (p_frags (player_at w_ab "b")) "a"
                        (p_frags (player_at w_ab "a") + 1)%Z)) /\
    p_frags <$> w_players w' !! "a" = Some (p_frags (player_at w_ab "a") + 1)%Z /\
    p_is_dead <$> w_players w' !! "b" = Some true /\
    p_frags <$> w_players w' !! "b" = Some (p_frags (player_at w_ab "b"))).
Proof.
  apply (onPlayerDeath_frags w_ab (sock_at w_ab "a") 0 (room_at w_ab 0) (mkDeathIn 1 0) "b" "a"
           (player_at w_ab "b") (player_at w_ab "a")); witness_tac.
Defined.

(** "b" has just spawned and is invincible: "a"'s kill report is dropped. *)
Lemma onPlayerDeath_protected_witness :
  onPlayerDeath (sock_at w_spawned "a") (Some (mkDeathIn 1 0)) w_spawned = Ok (w_spawned, []).
Proof.
  apply (onPlayerDeath_protected w_spawned (sock_at w_spawned "a") 0 (room_at w_spawned 0)
           (mkDeathIn 1 0) "b" "a" (player_at w_spawned "b") (player_at w_spawned "a")); witness_tac.
Defined.

(** Spec §8: "a" plants at (col 2, row 3) on a 10-wide map: cell 32. *)
Lemma onPlayerPlantBomb_writes_witness :
  onPlayerPlantBomb 3 (sock_at w_ab "a") (Some (mkBombIn 0 2 3)) w_ab =
    Ok (put_room w_ab 0 (room_layers (room_at w_ab 0)
          (update_at 0 (fun a => js_set a 32 1) (m_layers (r_map (room_at w_ab 0))))),
        emitAll (room_layers (room_at w_ab 0)
          (update_at 0 (fun a => js_set a 32 1) (m_layers (r_map (room_at w_ab 0)))))
          "player plant bomb" (PBomb (mkBombIn 0 2 3) 3)).
Proof.
  apply (onPlayerPlantBomb_writes 3 w_ab (sock_at w_ab "a") 0 (room_at w_ab 0) (mkBombIn 0 2 3) "a" 0
           (mkLayer "bombs" (js_of_list (replicate 100 0%Z)))); witness_tac.
Defined.

(** Spec §8: a second plant on cell 32 is rejected. *)
Lemma onPlayerPlantBomb_occupied_witness :
  onPlayerPlantBomb 4 (sock_at w_bomb "b") (Some (mkBombIn 1 2 3)) w_bomb = Ok (w_bomb, []).
Proof.
  apply (onPlayerPlantBomb_occupied 4 w_bomb (sock_at w_bomb "b") 0 (room_at w_bomb 0) (mkBombIn 1 2 3) "b" 0
           (mkLayer "bombs" (js_set (js_of_list (replicate 100 0%Z)) 32 1))); witness_tac.
Defined.

(** Spec §8: an explosion over [[2,3],[2,4]] zeroes cells 32 and 42. *)
Lemma onBombExplode_clears_witness :
  exists r1,
    onBombExplode 6 (sock_at w_bomb "a") (Some (mkExplodeIn [(2, 3); (2, 4)]%Z)) w_bomb =
      Ok (put_room w_bomb 0 r1, emitAll r1 "bomb explode" (PExplode (mkExplodeIn [(2, 3); (2, 4)]%Z) 6)) /\
    r_players r1 = r_players (room_at w_bomb 0) /\
    forall col row, (col, row) ∈ [(2, 3); (2, 4)]%Z ->
      cell_zero 0 (cell_index (r_map (room_at w_bomb 0)) col row) (m_layers (r_map r1)) /\
      cell_zero 1 (cell_index (r_map (room_at w_bomb 0)) col row) (m_layers (r_map r1)).
Proof.
  apply (onBombExplode_clears 6 w_bomb (sock_at w_bomb "a") 0 (room_at w_bomb 0)
           (mkExplodeIn [(2, 3); (2, 4)]%Z) 0 1); witness_tac.
Defined.

(** "a" spawns under cursor 0 (point (1,1)) with tile size 32. *)
Lemma onPlayerSpawn_spec_witness :
  exists w',
    onPlayerSpawn 1 (sock_at w_ab "a") (Some (mkSpawnIn 32 None)) w_ab =
      Ok (w', emitAll (with_next_spawn (room_at w_ab 0) 1) "player spawn"
                (PSpawn ((inject_Z 1 + (1#2)) * 32)%Q ((inject_Z 1 + (1#2)) * 32)%Q None 1)) /\
    w_rooms w' !! 0%nat = Some (with_next_spawn (room_at w_ab 0) 1) /\
    w_players w' !! "a" =
      Some (spawn_fields ((inject_Z 1 + (1#2)) * 32)%Q ((inject_Z 1 + (1#2)) * 32)%Q 1 None
              (player_at w_ab "a")).
Proof.
  apply (onPlayerSpawn_spec 1 w_ab (sock_at w_ab "a") "a" (player_at w_ab "a") 0 (room_at w_ab 0)
           (mkSpawnIn 32 None) (mkSpawnPoint 1 1)); witness_tac.
Defined.

(** "a" moves; the echo goes to "b" only. *)
Lemma onPlayerMove_spec_witness :
  onPlayerMove "a" (sock_at w_ab "a") (Some (mkMoveIn "0" 48 48 (Some "down"))) w_ab =
    (if p_is_dead (player_at w_ab "a") then Ok (w_ab, [])
     else Ok (alter_player (set_position 48 48 (Some "down")) "a" w_ab,
              emitBroadcast (room_at w_ab 0) "player move" (PMove (mkMoveIn "0" 48 48 (Some "down"))) "a")) /\
  "a" ∉ receivers "player move"
          (emitBroadcast (room_at w_ab 0) "player move" (PMove (mkMoveIn "0" 48 48 (Some "down"))) "a").
Proof.
  apply (onPlayerMove_spec "a" w_ab (sock_at w_ab "a") "a" (player_at w_ab "a") 0 (room_at w_ab 0)
           (mkMoveIn "0" 48 48 (Some "down"))); witness_tac.
Defined.

(** "a", already in the full room 0, asks again: it is inserted in room 1
    as well. *)
Lemma second_request_double_membership_witness :
  exists w' ms rid r',
    onRoomRequest demo_map 7 "a" (sock_at w_full "a") (Some (mkRoomReq None)) w_full = Ok (w', ms) /\
    rid <> 0%nat /\ w_rooms w' !! 0%nat = Some (room_at w_full 0) /\ w_rooms w' !! rid = Some r' /\
    "a" ∈ members (r_players (room_at w_full 0)) /\ "a" ∈ members (r_players r').
Proof.
  apply (second_request_double_membership demo_map 7 "a" (sock_at w_full "a") (mkRoomReq None) w_full
           "a" 0 (room_at w_full 0)); witness_tac.
Defined.

(** A bomb planted at a key outside the array survives its owner's
    disconnect.  "a" (serial 0) plants at (col -1, row 0), which is key -1
    of the bombs layer, and leaves; "b" stays, so room 0 lives on with the
    cell still encoding serial 0 while slot 0 is empty. *)
Lemma negative_key_bomb_survives_disconnect :
  let w := world_of (run demo_map
             [(3%Z, "a", EvPlant (Some (mkBombIn 0 (-1) 0))); (4%Z, "a", EvDisconnect)] w_ab) in
  layer_cell w 0 0 (-1) = Some 1%Z /\
  r_players (room_at w 0) !! 0%nat = Some None /\ w_rlist w = [0%nat].
Proof. vm_compute. auto. Qed.

(** The full world is well formed. *)
Lemma reachable_registry_witness : wf demo_map w_full.
Proof. apply (reachable_registry demo_map w_full). exact w_full_reachable. Defined.

(** "b" of [w_ab] asks for a room again, or leaves: both succeed, and the
    socket is gone after the disconnect. *)
Lemma reachable_lifecycle_total_witness :
  (exists w' ms, onRoomRequest demo_map 7 "b" (sock_at w_ab "b") (Some (mkRoomReq None)) w_ab = Ok (w', ms) /\
     wf demo_map w') /\
  (exists w' ms, dispatch demo_map 5 "b" EvDisconnect w_ab = Ok (w', ms) /\ w_socks w' !! "b" = None /\
     wf demo_map w').
Proof.
  apply (reachable_lifecycle_total demo_map w_ab 7 5 "b" (sock_at w_ab "b") (mkRoomReq None));
    [exact w_ab_reachable|witness_tac].
Defined.

(** The host "a" of room 0 of [w_ab] hides its tab: "b" becomes host. *)
Lemma unavailable_host_migrates_witness :
  exists r', w_rooms (onPlayerUnavailable 6 (sock_at w_ab "a") w_ab).1 !! 0%nat = Some r' /\
    w_players (onPlayerUnavailable 6 (sock_at w_ab "a") w_ab).1 =
      alter (set_active false) "a" (w_players w_ab) /\
    r_players r' = r_players (room_at w_ab 0) /\ rc_timestamp r' = 6%Z /\
    host_choice_ok (room_at w_ab 0) (w_players (onPlayerUnavailable 6 (sock_at w_ab "a") w_ab).1)
      (r_host r') /\ r_host r' <> Some "a".
Proof.
  apply (unavailable_host_migrates 6 (sock_at w_ab "a") w_ab "a" 0 (room_at w_ab 0)); witness_tac.
Defined.

(** "a" collects a protection powerup at (2, 3) of room 0 of [w_ab]. *)
Lemma onPlayerCollectPowerup_spec_witness :
  let data := mkCollectIn 2 3 "protection" in
  exists w' r1 ms,
    onPlayerCollectPowerup 4 (sock_at w_ab "a") (Some data) w_ab = Ok (w', ms) /\
    w_rooms w' !! 0%nat = Some r1 /\ r_players r1 = r_players (room_at w_ab 0) /\
    cell_zero 2 (cell_index (r_map (room_at w_ab 0)) (c_col data) (c_row data)) (m_layers (r_map r1)) /\
    (forall i, i <> 2%nat -> m_layers (r_map r1) !! i = m_layers (r_map (room_at w_ab 0)) !! i) /\
    (c_type data = "protection" ->
       exists p', w_players w' !! "a" = Some p' /\ p_is_invincible p' = true /\ p_i_timestamp p' = 4%Z) /\
    (c_type data <> "protection" -> w_players w' = w_players w_ab) /\
    receivers "player collect powerup" ms = members (r_players (room_at w_ab 0)).
Proof.
  apply (onPlayerCollectPowerup_spec 4 w_ab (sock_at w_ab "a") "a" (player_at w_ab "a") 0
           (room_at w_ab 0)); witness_tac.
Defined.

(** A map with four spawn points; "a" joins and spawns three times, so
    the cursor is at the last point. *)
Definition small_map : MapState :=
  {| m_width := m_width demo_map; m_layers := m_layers demo_map;
     m_spawn_order := take 4 (m_spawn_order demo_map) |}.
Definition spawn3 : list (Z * string * Event) :=
  replicate 3 (1%Z, "a", EvSpawn (Some (mkSpawnIn 32 None))).
Definition w_small3 : World := world_of (run small_map (join "a" ++ spawn3) init_world).

(** The fourth spawn succeeds and moves the cursor to 4; the fifth crashes. *)
Lemma onPlayerSpawn_past_spawn_points_witness :
  exists w' ms r', onPlayerSpawn 9 (sock_at w_small3 "a") (Some (mkSpawnIn 32 None)) w_small3 = Ok (w', ms) /\
    w_rooms w' !! 0%nat = Some r' /\
    next_spawn_index r' = length (m_spawn_order (r_map (room_at w_small3 0))) /\
    forall now' s' data', is_Some (player_of w' s') -> room_of w' s' = Some (0%nat, r') ->
      exists e, onPlayerSpawn now' s' (Some data') w' = Crash e.
Proof.
  apply (onPlayerSpawn_past_spawn_points 9 w_small3 (sock_at w_small3 "a") "a" (player_at w_small3 "a")
           0 (room_at w_small3 0)); witness_tac.
Defined.

(** The first layer of room 0 (the bombs layer of [demo_map]). *)
Definition bomb_layer (w : World) : Layer :=
  default (mkLayer "" (js_of_list [])) (m_layers (r_map (room_at w 0)) !! 0%nat).

Lemma w_bomb_reachable : reachable demo_map w_bomb.
Proof. reach_tac w_ab [(3%Z, "a", EvPlant (Some (mkBombIn 0 2 3)))]. exact w_ab_reachable. Qed.

(** The bomb "a" planted at (2, 3) holds 1 = serial 0 + 1, and slot 0 is "a". *)
Lemma reachable_bombs_encode_occupied_witness : occupied (room_at w_bomb 0) (1 - 1).
Proof.
  apply (reachable_bombs_encode_occupied demo_map eq_refl w_bomb 0 (room_at w_bomb 0) 0
           (bomb_layer w_bomb) 32 1); [exact w_bomb_reachable|witness_tac..].
Defined.

(** "a" is in room 0 and "b" has connected but not asked for a room. *)
Definition w_pre_b : World := world_of (run demo_map (join "a" ++ [(0%Z, "b", EvConnect)]) init_world).
Definition req_b : outcome (World * list msg) :=
  onRoomRequest demo_map 7 "b" (sock_at w_pre_b "b") (Some (mkRoomReq (Some "b"))) w_pre_b.

(** "b" joins room 0: it gets the room first, then "a" hears of the join. *)
Lemma onRoomRequest_announce_order_witness :
  exists rid r2 p hm,
    msgs_of req_b = hm ++ emit_to "b" "room found" (PRoom r2) ++
                    emitBroadcast r2 "player join room" (PPlayer p) "b" /\
    Forall (fun m => m_event m = host_event) hm /\
    w_rooms (world_of req_b) !! rid = Some r2 /\ s_room <$> w_socks (world_of req_b) !! "b" = Some (Some rid) /\
    receivers "player join room" (msgs_of req_b) = filter (fun c => c <> "b") (members (r_players r2)).
Proof.
  apply (onRoomRequest_announce_order demo_map 7 "b" (sock_at w_pre_b "b") (mkRoomReq (Some "b")) w_pre_b);
    witness_tac.
Defined.

(** "a", alive in room 0 of [w_ab], sends gameplay events without payload. *)
Lemma missing_payload_crashes_witness :
  let s := sock_at w_ab "a" in
  (exists e, onRoomRequest demo_map 7 "a" s None w_ab = Crash e) /\
  (exists e, onPlayerSpawn 1 s None w_ab = Crash e) /\
  (exists e, onPlayerMove "a" s None w_ab = Crash e) /\
  (exists e, onPlayerDeath s None w_ab = Crash e) /\
  (exists e, onPlayerCollectPowerup 1 s None w_ab = Crash e) /\
  (exists e, onPlayerLostInvicibility s None w_ab = Crash e) /\
  (exists e, onPlayerPlantBomb 1 s None w_ab = Crash e) /\
  (exists e, onBombExplode 1 s None w_ab = Crash e) /\
  ((exists e, onPowerupDisappear s None w_ab = Crash e) <->
     existsb (fun l => String.eqb (l_name l) "powerups") (m_layers (r_map (room_at w_ab 0))) = true) /\
  onPowerupBlink s None w_ab = (w_ab, emitAll (room_at w_ab 0) "powerup blink" (PPowerup None)).
Proof.
  apply (missing_payload_crashes demo_map 7 1 "a" w_ab (sock_at w_ab "a") "a" (player_at w_ab "a") 0 (room_at w_ab 0));
    witness_tac.
Defined.

(** Slot 1 of room 0 ("b") loses its invincibility, reported by "a". *)
Lemma onPlayerLostInvicibility_spec_witness :
  exists w' ms, onPlayerLostInvicibility (sock_at w_ab "a") (Some (mkSerialIn 1)) w_ab = Ok (w', ms) /\
    w_players w' !! "b" = Some (set_invincible false None (player_at w_ab "b")) /\
    p_is_invincible (set_invincible false None (player_at w_ab "b")) = false /\
    p_i_timestamp (set_invincible false None (player_at w_ab "b")) = p_i_timestamp (player_at w_ab "b") /\
    (forall q, q <> "b" -> w_players w' !! q = w_players w_ab !! q) /\ w_rooms w' = w_rooms w_ab /\
    receivers "player lost invincibility" ms = members (r_players (room_at w_ab 0)).
Proof.
  apply (onPlayerLostInvicibility_spec w_ab (sock_at w_ab "a") 0 (room_at w_ab 0) (mkSerialIn 1) "b"
           (player_at w_ab "b")); witness_tac.
Defined.

(** The powerup at (2, 3) of room 0 disappears. *)
Lemma onPowerupDisappear_clears_all_witness :
  let data := mkPowerupIn 2 3 in let r := room_at w_ab 0 in
  exists r1 ms, onPowerupDisappear (sock_at w_ab "a") (Some data) w_ab = Ok (put_room w_ab 0 r1, ms) /\
    r_players r1 = r_players r /\
    (forall i l, m_layers (r_map r) !! i = Some l -> l_name l = "powerups" ->
       exists l', m_layers (r_map r1) !! i = Some l' /\
         js_get (l_data l') (cell_index (r_map r) (pw_col data) (pw_row data)) = Some 0%Z) /\
    (forall i l, m_layers (r_map r) !! i = Some l -> l_name l <> "powerups" ->
       m_layers (r_map r1) !! i = Some l) /\
    receivers "powerup disappear" ms = members (r_players r).
Proof.
  apply (onPowerupDisappear_clears_all (sock_at w_ab "a") w_ab 0 (room_at w_ab 0)); witness_tac.
Defined.

(** "a" resets the map of room 0 of [w_bomb]. *)
Lemma onMapReset_spec_witness :
  let r := room_at w_bomb 0 in
  exists r1 ms, onMapReset demo_map (sock_at w_bomb "a") w_bomb = (put_room w_bomb 0 r1, ms) /\
    r_map r1 = demo_map /\ next_spawn_index r1 = 0%nat /\ r_players r1 = r_players r /\ r_host r1 = r_host r /\
    ms = emitAll r1 "map reset" (PRoom r1) /\ receivers "map reset" ms = members (r_players r).
Proof. apply (onMapReset_spec demo_map (sock_at w_bomb "a") w_bomb 0 (room_at w_bomb 0)); witness_tac. Defined.

(** The players array of [w_ab] is ["a"; "b"], the two connected clients. *)
Lemma reachable_players_array_witness : plist_ok w_ab.
Proof. apply (reachable_players_array demo_map w_ab). exact w_ab_reachable. Defined.

(** "a" and "b" of [w_ab] are seated in room 0, found at position 0. *)
Lemma reachable_seated_witness :
  bind_ok w_ab /\
  forall cid s rid, w_socks w_ab !! cid = Some s -> s_room s = Some rid ->
    exists i, index_of rid (w_rlist w_ab) = Z.of_nat i /\ w_rlist w_ab !! i = Some rid /\ seated w_ab cid rid.
Proof. apply (reachable_seated demo_map w_ab); [witness_tac|exact w_ab_reachable]. Defined.

(** Removing room 1 from [0; 1; 2] leaves [0; 2] up to order. *)
Lemma swap_remove_equiv_witness :
  let l := [0; 1; 2]%nat in
  (1%nat ∈ l -> swap_remove (index_of 1 l) l ≡ₚ filter (fun x => x <> 1%nat) l) /\
  (1%nat ∉ l -> swap_remove (index_of 1 l) l = take (length l - 1) l).
Proof. apply swap_remove_equiv. witness_tac. Defined.

(** "b" leaves room 0 of [w_ab]: one step of the server, one
    [Lobby.leave] of the abstract lobby. *)
Definition w_b_left : World := world_of (dispatch demo_map 5 "b" EvDisconnect w_ab).

Lemma lobby_refinement_witness :
  exists L, Lobby.lstep (capacity demo_map) (lobby_op "b" EvDisconnect w_ab) (lobby_of w_ab) L /\
    Lobby.equiv (lobby_of w_b_left) L.
Proof.
  apply (lobby_refinement demo_map 5 "b" EvDisconnect w_ab w_b_left
           (msgs_of (dispatch demo_map 5 "b" EvDisconnect w_ab))); [witness_tac|exact w_ab_reachable|witness_tac..].
Defined.

(** A run of the process: the server comes up on the default port, "a"
    connects, joins a room and sends a spawn without payload; the handler
    throws and the process exits with 1. *)
Definition crash_run : list SysEvent :=
  [SListening; SSock 0 "a" EvConnect; SSock 0 "a" (EvRoomRequest (Some (mkRoomReq (Some "a"))) 7);
   SSock 1 "a" (EvSpawn None)].

Lemma graceful_shutdown_witness :
  p_proc (srun demo_map (port_of None) None crash_run sinit).1 = Exited 1%Z /\
  ((1%Z = 0%Z /\ p_err (srun demo_map (port_of None) None crash_run sinit).1 = [] /\
    exists pre, p_log (srun demo_map (port_of None) None crash_run sinit).1 = pre ++ [closed_line] /\
      sigterm_line ∈ pre) \/
   (1%Z = 1%Z /\ exists evs1 now cid ev evs2 e, crash_run = evs1 ++ SSock now cid ev :: evs2 /\
      dispatch demo_map now cid ev (srun demo_map (port_of None) None evs1 sinit).2 = Crash e /\
      p_err (srun demo_map (port_of None) None crash_run sinit).1 = [e])).
Proof.
  split; [vm_compute; reflexivity|].
  apply (proj1 (graceful_shutdown demo_map (port_of None) None) crash_run 1%Z). vm_compute. reflexivity.
Defined.

(** "a" chats in room 0 of [w_ab]: the run stays inside room 0. *)
Lemma room_scoping_witness :
  (s_room (sock_at w_ab "a") = None -> dispatch demo_map 3 "a" (EvChat (Some "hi")) w_ab = Ok (w_ab, [])) /\
  (forall rid r w' ms, room_of w_ab (sock_at w_ab "a") = Some (rid, r) ->
     dispatch demo_map 3 "a" (EvChat (Some "hi")) w_ab = Ok (w', ms) ->
     confined rid r (s_player (sock_at w_ab "a")) w_ab w' ms).
Proof. apply (room_scoping demo_map 3 "a" (EvChat (Some "hi")) w_ab (sock_at w_ab "a")); witness_tac. Defined.

(** ** Draining and leaking *)

Lemma w_ab_good : good_reachable demo_map w_ab.
Proof.
  apply (good_run demo_map (join "a" ++ join "b") init_world w_ab
           (msgs_of (run demo_map (join "a" ++ join "b") init_world))); [apply rtc_refl|vm_compute; reflexivity..].
Qed.

(** In [w_ab] every member of room 0 is bound to it. *)
Lemma registry_drains_witness :
  (forall rid r q, rid ∈ w_rlist w_ab -> w_rooms w_ab !! rid = Some r -> q ∈ members (r_players r) ->
     exists s, w_socks w_ab !! q = Some s /\ s_room s = Some rid) /\
  ((forall cid, w_socks w_ab !! cid = None) -> w_rlist w_ab = []).
Proof. apply (registry_drains demo_map w_ab); [witness_tac|exact w_ab_good]. Defined.

(** "a" connects, asks for a room twice, and leaves. *)
Definition leak_events : list (Z * string * Event) :=
  [(0%Z, "a", EvConnect); (0%Z, "a", EvRoomRequest (Some (mkRoomReq (Some "a"))) 7);
   (1%Z, "a", EvRoomRequest (Some (mkRoomReq (Some "a"))) 7); (2%Z, "a", EvDisconnect)].

Definition w_leak : World := world_of (run demo_map leak_events init_world).

(** Rooms leak when a client asks twice: after the run [leak_events]
    (one client connects, asks for a room twice and disconnects), which
    the server accepts without a crash, no client is connected, yet room 0
    stays in the rooms array with the departed player still in its
    roster. *)
Lemma rooms_leak :
  reachable demo_map w_leak /\ (forall cid, w_socks w_leak !! cid = None) /\
  w_rlist w_leak = [0%nat] /\ "a" ∈ members (r_players (room_at w_leak 0)).
Proof.
  split_and!.
  - reach_tac init_world leak_events. apply rtc_refl.
  - intros cid. assert (E : w_socks w_leak = ∅) by (vm_compute; reflexivity). by rewrite E, lookup_empty.
  - vm_compute. reflexivity.
  - vm_compute. left.
Qed.
